(** * msgbox: a shallow embedding of [src/msgbox.c]

    The development follows the C file top to bottom: machine integers
    and byte order, the data declared in [msgbox.h], the file-level
    statics gathered in one [State] record, the internal functions, the
    public functions, and then the properties.

    Conventions.
    - A C integer is a [Z]; where the code narrows a value the wrap is
      written out ([uint16], [uint32], [int32], [size_t]).
    - A C string is a [string] holding the characters before its
      terminating NUL, so [strlen] is [String.length].
    - Memory obtained from [malloc] is a block in [heap]; a pointer is a
      block together with a byte offset. Indeterminate bytes of a fresh
      block are modelled as zero.
    - The operating system and libc are inputs: the result of every
      system call is supplied by an oracle argument, and every system
      call issued is appended to the [syscalls] trace.
    - A function that can run into undefined behaviour, or into
      [assert(0)], returns an [Outcome]. *)

From Stdlib Require Import Ascii.
From stdpp Require Import gmap strings list fin_maps pretty relations.

Local Open Scope Z_scope.

(** ** Outcomes *)

Inductive Outcome (A : Type) : Type :=
  | Ret (a : A)     (* the function returned *)
  | AssertFail      (* [assert(0)] was reached in a DEBUG build *)
  | Undefined       (* undefined behaviour: invalid pointer, indeterminate read *)
  | OutOfFuel.      (* the loop bound given to the model was too small *)
Arguments Ret {A} a.
Arguments AssertFail {A}.
Arguments Undefined {A}.
Arguments OutOfFuel {A}.

Definition obind {A B : Type} (m : Outcome A) (k : A -> Outcome B) : Outcome B :=
  match m with
  | Ret a => k a
  | AssertFail => AssertFail
  | Undefined => Undefined
  | OutOfFuel => OutOfFuel
  end.

Notation "x <- m ;; k" := (obind m (fun x => k))
  (at level 100, m at next level, right associativity).

Definition of_option {A : Type} (o : option A) : Outcome A :=
  match o with
  | Some a => Ret a
  | None => Undefined
  end.

Definition to_option {A : Type} (o : Outcome A) : option A :=
  match o with
  | Ret a => Some a
  | _ => None
  end.

(** ** Machine integers and constants of the system headers *)

Definition uint16 (x : Z) : Z := x mod 65536.
Definition uint32 (x : Z) : Z := x mod 4294967296.
Definition int32 (x : Z) : Z := (x + 2147483648) mod 4294967296 - 2147483648.
Definition size_t (x : Z) : Z := x mod 18446744073709551616.

Definition is_uint16 (x : Z) : Prop := 0 <= x < 65536.
Definition is_byte (x : Z) : Prop := 0 <= x < 256.

(** Values of [<sys/socket.h>], [<poll.h>], [<errno.h>] and
    [<netinet/in.h>] on Linux. *)
Definition AF_INET : Z := 2.
Definition SOCK_STREAM : Z := 1.
Definition SOCK_DGRAM : Z := 2.
Definition POLLIN : Z := 1.
Definition MSG_PEEK : Z := 2.
Definition INADDR_ANY : Z := 0.
Definition EFAULT : Z := 14.
Definition EINVAL : Z := 22.

Definition msg_tcp : Z := SOCK_STREAM.
Definition msg_udp : Z := SOCK_DGRAM.

Definition recv_buffer_len : Z := 32768.
Definition header_len : Z := 8.

(** Possible values for message_type. *)
Definition one_way : Z := 0.
Definition request : Z := 1.
Definition reply : Z := 2.
Definition heartbeat : Z := 3.
Definition close : Z := 4.

(** ** Data of [msgbox.h] *)

Inductive pointer : Type :=
  | NULL
  | Ptr (block : Z) (offset : Z).

Definition ptr_add (p : pointer) (k : Z) : pointer :=
  match p with
  | NULL => NULL
  | Ptr b o => Ptr b (o + k)
  end.

(** Modelled from the spec: [msg_Event] is declared in [msgbox.h]; these
    are the events the spec names (listening, connection-ready, message,
    request, reply, error, closed/lost). *)
Inductive msg_Event : Type :=
  | msg_message
  | msg_request
  | msg_reply
  | msg_listening
  | msg_listening_ended
  | msg_connection_ready
  | msg_connection_closed
  | msg_connection_lost
  | msg_error.

(** Modelled from the spec: [msg_Data] is declared in [msgbox.h]; the
    code uses exactly these two fields. *)
Record msg_Data : Type := {
  num_bytes : Z;
  bytes : pointer
}.

(** Modelled from the spec: [msg_Conn] is declared in [msgbox.h]; the
    fields are the ones the code reads and writes. The callback is a
    function pointer, kept here as the number of a user routine. *)
Record msg_Conn : Type := {
  conn_context : Z;
  callback : Z;
  for_listening : Z;
  socket : Z;
  protocol_type : Z;
  remote_ip : Z;
  remote_port : Z;
  reply_id : Z
}.

Record PendingCall : Type := {
  conn : Z;
  event : msg_Event;
  data : msg_Data;
  to_free : pointer
}.

Record Header : Type := {
  message_type : Z;
  num_packets : Z;
  packet_id : Z;
  header_reply_id : Z
}.

Record Address : Type := {
  ip : Z;
  port : Z;
  address_protocol_type : Z
}.

Record ConnStatus : Type := {
  last_seen_at : Z
}.

Record sockaddr_in : Type := {
  sin_family : Z;
  sin_port : Z;
  sin_addr : Z
}.

Record pollfd : Type := {
  fd : Z;
  events : Z;
  revents : Z
}.

Global Instance pointer_eq_dec : EqDecision pointer.
Proof. solve_decision. Defined.
Global Instance msg_Event_eq_dec : EqDecision msg_Event.
Proof. solve_decision. Defined.
Global Instance msg_Data_eq_dec : EqDecision msg_Data.
Proof. solve_decision. Defined.
Global Instance PendingCall_eq_dec : EqDecision PendingCall.
Proof. solve_decision. Defined.
Global Instance Address_eq_dec : EqDecision Address.
Proof. solve_decision. Defined.
Global Instance Address_countable : Countable Address.
Proof.
  apply (inj_countable'
           (fun a => (ip a, port a, address_protocol_type a))
           (fun t => {| ip := t.1.1; port := t.1.2; address_protocol_type := t.2 |})).
  by intros [].
Defined.

(** ** Memory and the file-level statics *)

Inductive Obj : Type :=
  | OConn (c : msg_Conn)
  | OBytes (content : list Z).

Inductive Syscall : Type :=
  | SysSocket (domain type protocol : Z)
  | SysBind (sock : Z) (addr : sockaddr_in)
  | SysConnect (sock : Z) (addr : sockaddr_in)
  | SysPoll (fds : list pollfd) (timeout : Z)
  | SysRecv (sock len flags : Z)
  | SysRecvfrom (sock len flags : Z)
  | SysSend (sock : Z) (frame : list Z) (flags : Z)
  | SysSendto (sock : Z) (frame : list Z) (flags : Z) (addr : sockaddr_in).

(** [immediate_callbacks] is a pointer to a CArray of PendingCalls; the
    arrays it has pointed to live in [arrays], so that the array being
    flushed and the array being filled are two objects of one store.
    [poll_fds] and [conns] are never re-seated after initialisation and
    are kept by value. *)
Record State : Type := {
  heap : gmap Z Obj;
  arrays : gmap Z (list PendingCall);
  init_done : bool;
  immediate_callbacks : Z;
  poll_fds : list pollfd;
  conns : list Z;
  conn_status : gmap Address ConnStatus;
  errno : Z;
  syscalls : list Syscall;
  stderr : list string
}.

Definition set_heap (h : gmap Z Obj) (st : State) : State :=
  {| heap := h; arrays := arrays st; init_done := init_done st;
     immediate_callbacks := immediate_callbacks st; poll_fds := poll_fds st;
     conns := conns st; conn_status := conn_status st; errno := errno st;
     syscalls := syscalls st; stderr := stderr st |}.

Definition set_arrays (a : gmap Z (list PendingCall)) (st : State) : State :=
  {| heap := heap st; arrays := a; init_done := init_done st;
     immediate_callbacks := immediate_callbacks st; poll_fds := poll_fds st;
     conns := conns st; conn_status := conn_status st; errno := errno st;
     syscalls := syscalls st; stderr := stderr st |}.

Definition set_immediate_callbacks (p : Z) (st : State) : State :=
  {| heap := heap st; arrays := arrays st; init_done := init_done st;
     immediate_callbacks := p; poll_fds := poll_fds st;
     conns := conns st; conn_status := conn_status st; errno := errno st;
     syscalls := syscalls st; stderr := stderr st |}.

Definition set_poll_fds (l : list pollfd) (st : State) : State :=
  {| heap := heap st; arrays := arrays st; init_done := init_done st;
     immediate_callbacks := immediate_callbacks st; poll_fds := l;
     conns := conns st; conn_status := conn_status st; errno := errno st;
     syscalls := syscalls st; stderr := stderr st |}.

Definition set_conns (l : list Z) (st : State) : State :=
  {| heap := heap st; arrays := arrays st; init_done := init_done st;
     immediate_callbacks := immediate_callbacks st; poll_fds := poll_fds st;
     conns := l; conn_status := conn_status st; errno := errno st;
     syscalls := syscalls st; stderr := stderr st |}.

Definition set_conn_status (m : gmap Address ConnStatus) (st : State) : State :=
  {| heap := heap st; arrays := arrays st; init_done := init_done st;
     immediate_callbacks := immediate_callbacks st; poll_fds := poll_fds st;
     conns := conns st; conn_status := m; errno := errno st;
     syscalls := syscalls st; stderr := stderr st |}.

Definition set_errno (e : Z) (st : State) : State :=
  {| heap := heap st; arrays := arrays st; init_done := init_done st;
     immediate_callbacks := immediate_callbacks st; poll_fds := poll_fds st;
     conns := conns st; conn_status := conn_status st; errno := e;
     syscalls := syscalls st; stderr := stderr st |}.

Definition syscall (s : Syscall) (st : State) : State :=
  {| heap := heap st; arrays := arrays st; init_done := init_done st;
     immediate_callbacks := immediate_callbacks st; poll_fds := poll_fds st;
     conns := conns st; conn_status := conn_status st; errno := errno st;
     syscalls := syscalls st ++ [s]; stderr := stderr st |}.

Definition fprintf_stderr (s : string) (st : State) : State :=
  {| heap := heap st; arrays := arrays st; init_done := init_done st;
     immediate_callbacks := immediate_callbacks st; poll_fds := poll_fds st;
     conns := conns st; conn_status := conn_status st; errno := errno st;
     syscalls := syscalls st; stderr := stderr st ++ [s] |}.

(** The state of the process before any msgbox function has run. *)
Definition initial_state : State :=
  {| heap := ∅; arrays := ∅; init_done := false; immediate_callbacks := 0;
     poll_fds := []; conns := []; conn_status := ∅; errno := 0;
     syscalls := []; stderr := [] |}.

(** The pending calls of the array [immediate_callbacks] points to. *)
Definition queue (st : State) : list PendingCall :=
  default [] (arrays st !! immediate_callbacks st).

(** *** malloc, free, loads and stores *)

Definition malloc (o : Obj) (st : State) : Z * State :=
  let b := fresh (dom (heap st)) in
  (b, set_heap (<[b := o]> (heap st)) st).

Definition malloc_bytes (n : Z) (st : State) : Z * State :=
  malloc (OBytes (replicate (Z.to_nat n) 0)) st.

Definition free (p : pointer) (st : State) : Outcome State :=
  match p with
  | NULL => Ret st
  | Ptr b o =>
      if negb (o =? 0) then Undefined
      else match heap st !! b with
           | None => Undefined
           | Some _ => Ret (set_heap (delete b (heap st)) st)
           end
  end.

Definition load_conn (c : Z) (st : State) : Outcome msg_Conn :=
  match heap st !! c with
  | Some (OConn cn) => Ret cn
  | _ => Undefined
  end.

Definition store_conn (c : Z) (cn : msg_Conn) (st : State) : Outcome State :=
  match heap st !! c with
  | Some (OConn _) => Ret (set_heap (<[c := OConn cn]> (heap st)) st)
  | _ => Undefined
  end.

(** [n] bytes of [content] from offset [o]. *)
Definition slice (o n : Z) (content : list Z) : list Z :=
  take (Z.to_nat n) (drop (Z.to_nat o) content).

(** [content] with [bs] written over it from offset [o]. *)
Definition overwrite (o : Z) (bs content : list Z) : list Z :=
  take (Z.to_nat o) content ++ bs ++ drop (Z.to_nat o + length bs) content.

Definition load_bytes (p : pointer) (n : Z) (st : State) : Outcome (list Z) :=
  match p with
  | NULL => Undefined
  | Ptr b o =>
      match heap st !! b with
      | Some (OBytes content) =>
          if (0 <=? o) && (0 <=? n) && (o + n <=? Z.of_nat (length content))
          then Ret (slice o n content)
          else Undefined
      | _ => Undefined
      end
  end.

Definition store_bytes (p : pointer) (bs : list Z) (st : State) : Outcome State :=
  match p with
  | NULL => Undefined
  | Ptr b o =>
      match heap st !! b with
      | Some (OBytes content) =>
          if (0 <=? o) && (o + Z.of_nat (length bs) <=? Z.of_nat (length content))
          then Ret (set_heap (<[b := OBytes (overwrite o bs content)]> (heap st)) st)
          else Undefined
      | _ => Undefined
      end
  end.

Definition string_bytes (s : string) : list Z :=
  map (fun a => Z.of_nat (nat_of_ascii a)) (String.list_ascii_of_string s).

(** [snprintf(buf, 1024, ...)] keeps at most 1023 characters. *)
Definition snprintf_1024 (s : string) : string :=
  String.substring 0 1023 s.

(** ** The operating system and libc as inputs *)

Inductive recv_result : Type :=
  | recv_error (e : Z)
  | recv_bytes (bs : list Z).

Inductive recvfrom_result : Type :=
  | recvfrom_error (e : Z)
  | recvfrom_dgram (bs : list Z) (from : sockaddr_in).

(** What the two receive calls of one [read_from_socket] return. *)
Record read_oracle : Type := {
  on_recv : recv_result;
  on_recvfrom : recvfrom_result
}.

(** What [socket] and then [bind] or [connect] return in one
    [open_socket]; the errno is the one a return value of -1 leaves. *)
Record open_oracle : Type := {
  socket_ret : Z;
  socket_errno : Z;
  open_ret : Z;
  open_errno : Z
}.

(** What [poll] returns in one [msg_runloop], the [revents] it writes
    for the descriptor at each index, and the receive results for the
    descriptor at each index. *)
Record tick_oracle : Type := {
  poll_ret : Z;
  poll_errno : Z;
  poll_revents : nat -> Z;
  tick_reads : nat -> read_oracle
}.

(** One callback invocation of a flush: the call delivered, and what the
    global queue gained while the callback ran. *)
Record Delivery : Type := {
  delivered : PendingCall;
  enqueued_during : list PendingCall
}.

(** ** libc string routines the parser relies on *)

Definition strlen (s : string) : Z := Z.of_nat (String.length s).

(** [strchr(s, ch) - s], when [ch] occurs in [s]. *)
Fixpoint strchr (s : string) (ch : ascii) : option nat :=
  match s with
  | EmptyString => None
  | String a r => if decide (a = ch) then Some 0%nat else S <$> strchr r ch
  end.

(** [s + n], for [n] within the string. *)
Fixpoint string_drop (n : nat) (s : string) : string :=
  match n, s with
  | S n', String _ r => string_drop n' r
  | _, _ => s
  end.

Definition isspace (a : ascii) : bool :=
  let n := nat_of_ascii a in
  (n =? 32)%nat || ((9 <=? n)%nat && (n <=? 13)%nat).

Definition digit_of (a : ascii) : option Z :=
  let n := nat_of_ascii a in
  if ((48 <=? n)%nat && (n <=? 57)%nat) then Some (Z.of_nat n - 48) else None.

Fixpoint skip_spaces (s : string) : string :=
  match s with
  | String a r => if isspace a then skip_spaces r else s
  | EmptyString => s
  end.

Fixpoint digits (acc : Z) (s : string) : Z * string :=
  match s with
  | String a r =>
      match digit_of a with
      | Some d => digits (acc * 10 + d) r
      | None => (acc, s)
      end
  | EmptyString => (acc, s)
  end.

Definition LONG_MAX : Z := 9223372036854775807.
Definition LONG_MIN : Z := -9223372036854775808.

(** [strtol(s, &end_ptr, 10)] of ISO C with a 64-bit [long]: the value,
    and the string [end_ptr] is left pointing to. When no digits are
    found the value is 0 and [end_ptr] is [s] itself. *)
Definition strtol (s : string) : Z * string :=
  let t := skip_spaces s in
  let '(negative, u) :=
    match t with
    | String "-"%char r => (true, r)
    | String "+"%char r => (false, r)
    | _ => (false, t)
    end in
  match u with
  | String a _ =>
      match digit_of a with
      | Some _ =>
          let '(v, rest) := digits 0 u in
          let v := if negative then - v else v in
          (Z.max LONG_MIN (Z.min LONG_MAX v), rest)
      | None => (0, s)
      end
  | EmptyString => (0, s)
  end.

(** ** CArray and CMap *)

(** Modelled from the spec: [CArray.h] is not among the sources. A
    CArray is the list of its elements; the spec names the operations
    (append, remove an element, index-of, iterate). [CArrayElement] with
    an index outside the array has no defined result. *)
Definition CArrayAddElement {A : Type} (array : list A) (x : A) : list A :=
  array ++ [x].

Definition CArrayRemoveElement {A : Type} (array : list A) (index : nat) : list A :=
  delete index array.

Definition CArrayRemoveLast {A : Type} (array : list A) : Outcome (list A) :=
  match length array with
  | O => Undefined
  | S n => Ret (CArrayRemoveElement array n)
  end.

(** [CArrayNew]: a fresh, empty array of pending calls. *)
Definition CArrayNew (st : State) : Z * State :=
  let a := fresh (dom (arrays st)) in
  (a, set_arrays (<[a := []]> (arrays st)) st).

Definition CArrayDelete (a : Z) (st : State) : State :=
  set_arrays (delete a (arrays st)) st.

(** Modelled from the spec: [CMap.h] is not among the sources. The map
    from Address to ConnStatus is a finite map whose keys are compared
    byte for byte ([address_eq]); an Address has no padding, so that is
    equality of the three fields at their declared widths. The hash
    function the map is created with, [address_hash], is modelled on its
    own further down; the calls the map makes to it are not part of
    [CMapFind] and [CMapSet]. *)
Definition CMapFind (m : gmap Address ConnStatus) (a : Address) : option ConnStatus :=
  m !! a.

Definition CMapSet (m : gmap Address ConnStatus) (a : Address) (v : ConnStatus)
  : gmap Address ConnStatus :=
  <[a := v]> m.

Definition msg_no_data : msg_Data := {| num_bytes := 0; bytes := NULL |}.

(** Field updates of a connection. *)
Definition with_for_listening (v : Z) (cn : msg_Conn) : msg_Conn :=
  {| conn_context := conn_context cn; callback := callback cn; for_listening := v;
     socket := socket cn; protocol_type := protocol_type cn;
     remote_ip := remote_ip cn; remote_port := remote_port cn; reply_id := reply_id cn |}.
Definition with_socket (v : Z) (cn : msg_Conn) : msg_Conn :=
  {| conn_context := conn_context cn; callback := callback cn;
     for_listening := for_listening cn; socket := v; protocol_type := protocol_type cn;
     remote_ip := remote_ip cn; remote_port := remote_port cn; reply_id := reply_id cn |}.
Definition with_protocol_type (v : Z) (cn : msg_Conn) : msg_Conn :=
  {| conn_context := conn_context cn; callback := callback cn;
     for_listening := for_listening cn; socket := socket cn; protocol_type := v;
     remote_ip := remote_ip cn; remote_port := remote_port cn; reply_id := reply_id cn |}.
Definition with_remote_ip (v : Z) (cn : msg_Conn) : msg_Conn :=
  {| conn_context := conn_context cn; callback := callback cn;
     for_listening := for_listening cn; socket := socket cn;
     protocol_type := protocol_type cn;
     remote_ip := v; remote_port := remote_port cn; reply_id := reply_id cn |}.
Definition with_remote_port (v : Z) (cn : msg_Conn) : msg_Conn :=
  {| conn_context := conn_context cn; callback := callback cn;
     for_listening := for_listening cn; socket := socket cn;
     protocol_type := protocol_type cn;
     remote_ip := remote_ip cn; remote_port := v; reply_id := reply_id cn |}.
Definition with_reply_id (v : Z) (cn : msg_Conn) : msg_Conn :=
  {| conn_context := conn_context cn; callback := callback cn;
     for_listening := for_listening cn; socket := socket cn;
     protocol_type := protocol_type cn;
     remote_ip := remote_ip cn; remote_port := remote_port cn; reply_id := v |}.

(** ** The functions of [msgbox.c] *)

Section Msgbox.

(** Byte order of the host, whether [char] is a signed type, whether the
    file is built with DEBUG (so that [assert] is the real macro), and
    two libc routines. *)
Variable host_little_endian : bool.
Variable char_is_signed : bool.
Variable DEBUG : bool.
Variable strerror : Z -> string.
Variable inet_aton : string -> option Z.

(** *** Byte order *)

Definition htons (x : Z) : Z :=
  if host_little_endian then (x mod 256) * 256 + x / 256 else x.

Definition ntohs (x : Z) : Z := htons x.

(** A 16-bit value as it lies in memory, and back. *)
Definition store16 (x : Z) : list Z :=
  if host_little_endian then [x mod 256; x / 256] else [x / 256; x mod 256].

Definition load16 (b0 b1 : Z) : Z :=
  if host_little_endian then b0 + 256 * b1 else 256 * b0 + b1.

(** *** Internal functions *)

Definition remove_last_polling_conn (st : State) : Outcome State :=
  cs <- CArrayRemoveLast (conns st) ;;
  let st := set_conns cs st in
  ps <- CArrayRemoveLast (poll_fds st) ;;
  Ret (set_poll_fds ps st).

Definition init_if_needed (st : State) : State :=
  if init_done st then st
  else
    let '(a, st) := CArrayNew st in
    {| heap := heap st; arrays := arrays st; init_done := true;
       immediate_callbacks := a; poll_fds := []; conns := [];
       conn_status := ∅; errno := errno st; syscalls := syscalls st;
       stderr := stderr st |}.

Definition send_callback (c : Z) (ev : msg_Event) (d : msg_Data) (tf : pointer)
    (st : State) : State :=
  let pending_callback := {| conn := c; event := ev; data := d; to_free := tf |} in
  set_arrays
    (alter (fun q => CArrayAddElement q pending_callback) (immediate_callbacks st)
       (arrays st)) st.

Definition msg_new_data_space (n : Z) (st : State) : msg_Data * State :=
  let '(b, st) := malloc_bytes (n + header_len) st in
  ({| num_bytes := n; bytes := ptr_add (Ptr b 0) header_len |}, st).

Definition msg_new_data (str : string) (st : State) : Outcome (msg_Data * State) :=
  (* Allocate room for the string with +1 for the null terminator. *)
  let '(d, st) := msg_new_data_space (strlen str + 1) st in
  st <- store_bytes (bytes d) (string_bytes str ++ [0]) st ;;
  Ret (d, st).

(** [free(data.bytes - header_len)]; handing it anything but a data
    buffer has no defined result. *)
Definition msg_delete_data (d : msg_Data) (st : State) : Outcome State :=
  match bytes d with
  | NULL => Undefined
  | Ptr b o =>
      match heap st !! b with
      | Some (OBytes _) => free (Ptr b (o - header_len)) st
      | _ => Undefined
      end
  end.

Definition send_callback_error (c : Z) (msg : string) (tf : pointer) (st : State)
  : Outcome State :=
  r <- msg_new_data msg st ;;
  Ret (send_callback c msg_error r.1 tf r.2).

Definition send_callback_os_error (c : Z) (msg : string) (tf : pointer) (st : State)
  : Outcome State :=
  let err_msg := snprintf_1024 (msg +:+ ": " +:+ strerror (errno st)) in
  send_callback_error c err_msg tf st.

Definition set_sockaddr_for_conn (cn : msg_Conn) : sockaddr_in :=
  {| sin_family := AF_INET;
     sin_port := htons (uint16 (remote_port cn));
     sin_addr := uint32 (remote_ip cn) |}.

(** [parse_address_str]: [None] is [no_error]. The fields of the
    connection set before a failure stay set. *)
Definition parse_address_str (address : string) (cn : msg_Conn)
  : option string * msg_Conn :=
  let prefix_len := 6%nat in
  let after_prefix (cn : msg_Conn) : option string * msg_Conn :=
    let ip_start := string_drop prefix_len address in
    match strchr ip_start ":" with
    | None =>
        (Some (snprintf_1024
                 ("Can't parse address '" +:+ address +:+ "'; missing colon after ip")),
         cn)
    | Some ip_len =>
        if ((15 <? ip_len)%nat || (ip_len <? 1)%nat) then
          (Some (snprintf_1024
                   ("Failing because ip length=" +:+ pretty ip_len +:+
                    "; expected to be 1-15 (in addresss '" +:+ address +:+ "')")),
           cn)
        else
          let ip_str := String.substring 0 ip_len ip_start in
          let parsed_ip :=
            if decide (ip_str = "*") then Some INADDR_ANY else inet_aton ip_str in
          match parsed_ip with
          | None =>
              (Some (snprintf_1024 ("Couldn't parse ip string '" +:+ ip_str +:+ "'.")),
               cn)
          | Some s_addr =>
              let cn := with_remote_ip s_addr cn in
              let port_str := string_drop (S ip_len) ip_start in
              if decide (port_str = "") then
                (Some (snprintf_1024
                         ("Empty port string in address '" +:+ address +:+ "'")),
                 cn)
              else
                let '(v, end_ptr) := strtol port_str in
                let cn := with_remote_port (int32 v) cn in
                if decide (end_ptr = "") then (None, cn)
                else
                  (Some (snprintf_1024
                           ("Invalid port string in address '" +:+ address +:+ "'")),
                   cn)
          end
    end in
  if String.prefix "tcp://" address then
    after_prefix (with_protocol_type SOCK_STREAM cn)
  else if String.prefix "udp://" address then
    after_prefix (with_protocol_type SOCK_DGRAM cn)
  else
    (Some (snprintf_1024 ("Failing due to unrecognized prefix: " +:+ address)), cn).

(** The [Header] value [set_header] builds, as it lies in memory: four
    16-bit fields, each passed through [htons]. *)
Definition header_bytes (msg_type num_packets packet_id reply_id : Z) : list Z :=
  store16 (htons msg_type) ++ store16 (htons num_packets) ++
  store16 (htons packet_id) ++ store16 (htons reply_id).

(** [set_header] writes the header over the eight bytes that precede
    [data.bytes]. Its four parameters are [uint16_t]. *)
Definition set_header (d : msg_Data) (msg_type num_packets packet_id reply_id : Z)
    (st : State) : Outcome State :=
  store_bytes (ptr_add (bytes d) (- header_len))
    (header_bytes msg_type num_packets packet_id reply_id) st.

(** The eight bytes of a header as [read_header] turns them into fields:
    four 16-bit loads, each converted from network to host order. *)
Definition decode_header (buffer : list Z) : option Header :=
  match buffer with
  | [b0; b1; b2; b3; b4; b5; b6; b7] =>
      Some {| message_type := ntohs (load16 b0 b1);
              num_packets := ntohs (load16 b2 b3);
              packet_id := ntohs (load16 b4 b5);
              header_reply_id := ntohs (load16 b6 b7) |}
  | _ => None
  end.

(** [read_header]: [None] is the return value false. A peek that yields
    fewer than [header_len] bytes leaves the rest of the caller's
    [Header] as it was, which is indeterminate; as with the bytes of a
    fresh block, the model has zero there. The function goes on with
    what it has and returns true. *)
Definition read_header (sock : Z) (c : Z) (ro : read_oracle) (st : State)
  : Outcome (option Header * State) :=
  let st := syscall (SysRecv sock header_len MSG_PEEK) st in
  match on_recv ro with
  | recv_error e =>
      st <- send_callback_os_error c "recv" NULL (set_errno e st) ;;
      Ret (None, st)
  | recv_bytes bs =>
      match decode_header
              (take (Z.to_nat header_len) (bs ++ replicate (Z.to_nat header_len) 0)) with
      | None => Undefined
      | Some header =>
          cn <- load_conn c st ;;
          st <- store_conn c (with_reply_id (header_reply_id header) cn) st ;;
          Ret (Some header, st)
      end
  end.

(** The key [remote_address_seen] builds for a connection and a socket
    address. *)
Definition address_of (cn : msg_Conn) (sockaddr : sockaddr_in) : Address :=
  {| ip := uint32 (sin_addr sockaddr);
     port := uint16 (remote_port cn);
     address_protocol_type := uint16 (protocol_type cn) |}.

(** The key under which the registry holds a (remote ip, remote port,
    protocol type) triple: each value at the width of its field. *)
Definition registry_key (r_ip r_port proto : Z) : Address :=
  {| ip := uint32 r_ip; port := uint16 r_port; address_protocol_type := uint16 proto |}.

(** The [Address] and [ConnStatus] objects the function allocates are
    owned by the map (or freed at once) and are kept inside
    [conn_status], not in [heap]. *)
Definition remote_address_seen (c : Z) (sockaddr : sockaddr_in) (st : State)
  : Outcome State :=
  cn <- load_conn c st ;;
  let address := address_of cn sockaddr in
  match CMapFind (conn_status st) address with
  | Some _ =>
      (* TODO Update the timing data for this remote address. *)
      Ret st
  | None =>
      (* It's a new remote address; conn_status takes ownership of address. *)
      let status := {| last_seen_at := 0 |} in
      let st := set_conn_status (CMapSet (conn_status st) address status) st in
      Ret (send_callback c msg_connection_ready msg_no_data NULL st)
  end.

(** The [switch] of [read_from_socket]; [None] is an [event] left
    uninitialised, which happens when [assert] is compiled out. *)
Definition classify (message_type : Z) : Outcome (option msg_Event) :=
  if message_type =? one_way then Ret (Some msg_message)
  else if message_type =? request then Ret (Some msg_request)
  else if message_type =? reply then Ret (Some msg_reply)
  else if DEBUG then AssertFail else Ret None.

Definition read_from_socket (sock : Z) (c : Z) (ro : read_oracle) (st : State)
  : Outcome State :=
  r <- read_header sock c ro st ;;
  match r.1 with
  | None => Ret r.2
  | Some header =>
      let st := r.2 in
      ev <- classify (message_type header) ;;
      if num_packets header =? 1 then
        let '(buffer, st) := malloc_bytes recv_buffer_len st in
        let st := syscall (SysRecvfrom sock recv_buffer_len 0) st in
        match on_recvfrom ro with
        | recvfrom_error e =>
            send_callback_os_error c "recvfrom" NULL (set_errno e st)
        | recvfrom_dgram dgram remote_sockaddr =>
            let received := take (Z.to_nat recv_buffer_len) dgram in
            let bytes_recvd := Z.of_nat (length received) in
            st <- store_bytes (Ptr buffer 0) received st ;;
            let d := {| num_bytes := size_t (bytes_recvd - header_len);
                        bytes := ptr_add (Ptr buffer 0) header_len |} in
            cn <- load_conn c st ;;
            st <- store_conn c
                    (with_remote_port (ntohs (sin_port remote_sockaddr))
                       (with_remote_ip (sin_addr remote_sockaddr) cn)) st ;;
            st <- remote_address_seen c remote_sockaddr st ;;
            match ev with
            | None => Undefined
            | Some ev => Ret (send_callback c ev d NULL st)
            end
        end
      else
        (* TODO Handle the multi-packet case. *)
        if DEBUG then AssertFail else Ret st
  end.

Definition new_connection (conn_context callback : Z) (st : State) : Z * State :=
  malloc (OConn {| conn_context := conn_context; callback := callback;
                   for_listening := 0; socket := 0; protocol_type := 0;
                   remote_ip := 0; remote_port := 0; reply_id := 0 |}) st.

(** [setup_sockaddr]: [None] is the return value false. *)
Definition setup_sockaddr (address : string) (c : Z) (o : open_oracle) (st : State)
  : Outcome (option sockaddr_in * State) :=
  let use_default_protocol := 0 in
  let st := syscall (SysSocket AF_INET SOCK_DGRAM use_default_protocol) st in
  let sock := socket_ret o in
  if sock =? -1 then
    st <- send_callback_os_error c "socket" (Ptr c 0) (set_errno (socket_errno o) st) ;;
    Ret (None, st)
  else
    (* We have a real socket, so add entries to both poll_fds and conns. *)
    cn <- load_conn c st ;;
    st <- store_conn c (with_socket sock cn) st ;;
    let st := set_conns (CArrayAddElement (conns st) c) st in
    let st := set_poll_fds
                (CArrayAddElement (poll_fds st)
                   {| fd := sock; events := POLLIN; revents := 0 |}) st in
    cn <- load_conn c st ;;
    let '(err_msg, cn) := parse_address_str address cn in
    st <- store_conn c cn st ;;
    match err_msg with
    | Some err_msg =>
        st <- remove_last_polling_conn st ;;
        st <- send_callback_error c err_msg (Ptr c 0) st ;;
        Ret (None, st)
    | None =>
        (* Initialize the sockaddr_in struct. *)
        Ret (Some {| sin_family := AF_INET;
                     sin_port := htons (uint16 (remote_port cn));
                     sin_addr := uint32 (remote_ip cn) |}, st)
    end.

Definition open_socket (address : string) (conn_context callback : Z)
    (for_listening : Z) (o : open_oracle) (st : State) : Outcome State :=
  let st := init_if_needed st in
  let '(c, st) := new_connection conn_context callback st in
  cn <- load_conn c st ;;
  st <- store_conn c (with_for_listening for_listening cn) st ;;
  r <- setup_sockaddr address c o st ;;
  match r.1 with
  | None => Ret r.2  (* Error; setup_sockaddr now owns conn. *)
  | Some sockaddr =>
      let st := r.2 in
      cn <- load_conn c st ;;
      let st := syscall (if for_listening =? 0
                         then SysConnect (socket cn) sockaddr
                         else SysBind (socket cn) sockaddr) st in
      if open_ret o =? -1 then
        st <- send_callback_os_error c "bind" (Ptr c 0) (set_errno (open_errno o) st) ;;
        remove_last_polling_conn st
      else if for_listening =? 0 then
        remote_address_seen c sockaddr st  (* Sends the msg_connection_ready event. *)
      else
        Ret (send_callback c msg_listening msg_no_data NULL st)
  end.

(** *** Public functions *)

(** The [poll] call: on success it writes [revents] into every element
    of [poll_fds]; on failure it sets [errno]. *)
Definition poll (timeout_in_ms : Z) (o : tick_oracle) (st : State) : Z * State :=
  let st := syscall (SysPoll (poll_fds st) timeout_in_ms) st in
  if poll_ret o =? -1 then (-1, set_errno (poll_errno o) st)
  else
    (poll_ret o,
     set_poll_fds
       (imap (fun i p => {| fd := fd p; events := events p; revents := poll_revents o i |})
          (poll_fds st)) st).

(** The read loop over [poll_fds], from the element at [index] on. *)
Fixpoint read_ready (index : nat) (pfds : list pollfd) (o : tick_oracle) (st : State)
  : Outcome State :=
  match pfds with
  | [] => Ret st
  | poll_fd :: rest =>
      if Z.land (revents poll_fd) POLLIN =? 0 then read_ready (S index) rest o st
      else
        match conns st !! index with
        | None => Undefined
        | Some c =>
            st <- read_from_socket (fd poll_fd) c (tick_reads o index) st ;;
            read_ready (S index) rest o st
        end
  end.

Definition newline : string := String (ascii_of_nat 10) EmptyString.

(** The first half of [msg_runloop]: poll, then read every descriptor
    that reports POLLIN. Before [init_if_needed] has run, [poll_fds] is
    NULL and is dereferenced. (The [num_prints] block has no effect.) *)
Definition io_phase (timeout_in_ms : Z) (o : tick_oracle) (st : State) : Outcome State :=
  if negb (init_done st) then Undefined
  else
    let '(ret, st) := poll timeout_in_ms o st in
    if ret =? -1 then
      if (errno st =? EFAULT) || (errno st =? EINVAL) then
        Ret (fprintf_stderr
               ("Internal msgbox error during 'poll' call: " +:+ strerror (errno st)
                +:+ newline) st)
      else Ret st
    else if 0 <? ret then read_ready 0 (poll_fds st) o st
    else Ret st.

Section Callbacks.

(** The user's callback routines, by number: the state a routine leaves,
    or [None] when the routine itself runs into undefined behaviour. *)
Variable user_code : Z -> Z -> msg_Event -> msg_Data -> State -> option State.

(** The flush loop, [CArrayFor(PendingCall *, call, saved_immediate_callbacks)],
    from the element at [index] on. Every iteration looks the array up
    in the store again. The result lists the calls delivered, in order. *)
Fixpoint dispatch (fuel : nat) (saved : Z) (index : nat) (st : State)
  : Outcome (list Delivery * State) :=
  match arrays st !! saved with
  | None => Undefined
  | Some q =>
      match q !! index with
      | None => Ret ([], st)
      | Some call =>
          match fuel with
          | O => OutOfFuel
          | S fuel =>
              cn <- load_conn (conn call) st ;;
              let before := queue st in
              st1 <- of_option
                       (user_code (callback cn) (conn call) (event call) (data call) st) ;;
              st2 <- free (to_free call) st1 ;;
              r <- dispatch fuel saved (S index) st2 ;;
              Ret ({| delivered := call;
                      enqueued_during := drop (length before) (queue st1) |} :: r.1,
                   r.2)
          end
      end
  end.

(** The second half of [msg_runloop]: save the array of pending calls,
    point [immediate_callbacks] to a new one, run the saved calls. *)
Definition dispatch_phase (fuel : nat) (st : State) : Outcome (list Delivery * State) :=
  let saved_immediate_callbacks := immediate_callbacks st in
  let '(a, st) := CArrayNew st in
  let st := set_immediate_callbacks a st in
  r <- dispatch fuel saved_immediate_callbacks 0 st ;;
  Ret (r.1, CArrayDelete saved_immediate_callbacks r.2).

Definition msg_runloop (fuel : nat) (timeout_in_ms : Z) (o : tick_oracle) (st : State)
  : Outcome (list Delivery * State) :=
  st <- io_phase timeout_in_ms o st ;;
  dispatch_phase fuel st.



End Callbacks.

Definition msg_listen (address : string) (conn_context callback : Z)
    (o : open_oracle) (st : State) : Outcome State :=
  let for_listening := 1 in
  open_socket address conn_context callback for_listening o st.

Definition msg_connect (address : string) (conn_context callback : Z)
    (o : open_oracle) (st : State) : Outcome State :=
  let for_listening := 0 in
  open_socket address conn_context callback for_listening o st.

Definition msg_unlisten (c : Z) (st : State) : State := st.

(** The bytes handed to [send] or [sendto]: from [data.bytes - header_len],
    [data.num_bytes + header_len] of them. *)
Definition frame_of (d : msg_Data) (st : State) : Outcome (list Z) :=
  load_bytes (ptr_add (bytes d) (- header_len)) (num_bytes d + header_len) st.

Definition msg_disconnect (c : Z) (st : State) : Outcome State :=
  let '(d, st) := msg_new_data_space 0 st in
  let num_packets := 1 in
  let packet_id := 0 in
  let reply_id := 0 in
  st <- set_header d close num_packets packet_id reply_id st ;;
  let default_options := 0 in
  cn <- load_conn c st ;;
  frame <- frame_of d st ;;
  Ret (syscall (SysSend (socket cn) frame default_options) st).

Definition msg_send (c : Z) (d : msg_Data) (st : State) : Outcome State :=
  (* Set up the header. *)
  let num_packets := 1 in
  let packet_id := 0 in
  let reply_id := 0 in
  st <- set_header d one_way num_packets packet_id reply_id st ;;
  let default_options := 0 in
  cn <- load_conn c st ;;
  if (protocol_type cn =? msg_udp) && negb (for_listening cn =? 0) then
    (* set_sockaddr_for_conn returns no_error, so its error branch is never taken. *)
    let sockaddr := set_sockaddr_for_conn cn in
    frame <- frame_of d st ;;
    Ret (syscall (SysSendto (socket cn) frame default_options sockaddr) st)
  else
    frame <- frame_of d st ;;
    Ret (syscall (SysSend (socket cn) frame default_options) st).

Definition msg_get (c : Z) (d : msg_Data) (reply_context : Z) (st : State) : State := st.

(** ** What user code can do to the library

    The statics of [msgbox.c] are private to the file, so a callback
    changes them only by calling public functions; it may also write
    into a data buffer. [msg_runloop] is not among the steps: a callback
    that calls it is not one [callbacks_use_api] admits
    ([reentrant_user_code] below is such a callback). *)
Inductive api_step : State -> State -> Prop :=
  | api_listen address ctx cb o st st' :
      msg_listen address ctx cb o st = Ret st' -> api_step st st'
  | api_connect address ctx cb o st st' :
      msg_connect address ctx cb o st = Ret st' -> api_step st st'
  | api_unlisten c st :
      api_step st (msg_unlisten c st)
  | api_disconnect c st st' :
      msg_disconnect c st = Ret st' -> api_step st st'
  | api_send c d st st' :
      msg_send c d st = Ret st' -> api_step st st'
  | api_get c d ctx st :
      api_step st (msg_get c d ctx st)
  | api_new_data str st r :
      msg_new_data str st = Ret r -> api_step st r.2
  | api_new_data_space n st :
      api_step st (msg_new_data_space n st).2
  | api_delete_data d st st' :
      msg_delete_data d st = Ret st' -> api_step st st'
  | api_write p bs st st' :
      store_bytes p bs st = Ret st' -> api_step st st'.


(** The array [immediate_callbacks] points to exists once the library is
    initialised. *)
Definition queue_allocated (st : State) : Prop :=
  init_done st = true -> is_Some (arrays st !! immediate_callbacks st).

(** What a call enqueued: the pending calls of [after] beyond those of
    [before]. *)
Definition enqueued (before after : State) : list PendingCall :=
  drop (length (queue before)) (queue after).

(** [after] differs from [before], as far as pending calls go, only in
    that the array [immediate_callbacks] points to has gained elements at
    its end. *)
Definition queue_grows (before after : State) : Prop :=
  init_done after = init_done before /\
  immediate_callbacks after = immediate_callbacks before /\
  exists added,
    arrays after =
    alter (fun q => q ++ added) (immediate_callbacks before) (arrays before).

(** *** Runs of peer observations

    Both callers of [remote_address_seen] first write the connection
    (the parsed address in [open_socket], the sender of the frame in
    [read_from_socket]) and then call it. An observation is one such
    call: the connection, its contents at the call, and the socket
    address passed. The run returns, for every observation, what the
    call enqueued. *)
Record observation : Type := {
  obs_conn : Z;
  obs_contents : msg_Conn;
  obs_sockaddr : sockaddr_in
}.

Definition obs_key (ob : observation) : Address :=
  address_of (obs_contents ob) (obs_sockaddr ob).

(** The (remote ip, remote port, protocol type) triple of an
    observation, as [remote_address_seen] reads it: the ip from the
    socket address, port and protocol type from the connection. *)
Definition obs_triple (ob : observation) : Z * Z * Z :=
  (sin_addr (obs_sockaddr ob), remote_port (obs_contents ob),
   protocol_type (obs_contents ob)).

(** The values of the triple fit the types they are read into: [s_addr]
    is 32 bits wide; the port of a frame, [ntohs] of a 16-bit field, and
    the protocol type fit 16 bits. *)
Definition obs_in_range (ob : observation) : Prop :=
  0 <= sin_addr (obs_sockaddr ob) < 4294967296 /\
  is_uint16 (remote_port (obs_contents ob)) /\
  is_uint16 (protocol_type (obs_contents ob)).

Fixpoint observe_run (obs : list observation) (st : State)
  : Outcome (list (observation * list PendingCall) * State) :=
  match obs with
  | [] => Ret ([], st)
  | ob :: rest =>
      st0 <- store_conn (obs_conn ob) (obs_contents ob) st ;;
      st1 <- remote_address_seen (obs_conn ob) (obs_sockaddr ob) st0 ;;
      r <- observe_run rest st1 ;;
      Ret ((ob, enqueued st0 st1) :: r.1, r.2)
  end.

(** The calls a run enqueued at the observations of the triple [t]. *)
Definition enqueued_for (t : Z * Z * Z) (log : list (observation * list PendingCall))
  : list PendingCall :=
  concat (map snd (filter (fun e => obs_triple e.1 = t) log)).

(** *** The outcomes of [open_socket] *)

(** The connection an [open_socket] in state [st] allocates. *)
Definition opened_conn (st : State) : Z :=
  fresh (dom (heap (init_if_needed st))).

(** The connection [c] is in the registered set: it sits in [conns],
    and [poll_fds] holds its socket at the same index. *)
Definition registered (c : Z) (st : State) : Prop :=
  exists index cn pfd,
    conns st !! index = Some c /\
    poll_fds st !! index = Some pfd /\
    heap st !! c = Some (OConn cn) /\
    fd pfd = socket cn /\ events pfd = POLLIN.

(** The connection is registered and a listening or connection-ready
    event was enqueued for it. *)
Definition opened_registered (st st' : State) : Prop :=
  registered (opened_conn st) st' /\
  exists pc, pc ∈ enqueued (init_if_needed st) st' /\
    conn pc = opened_conn st /\
    (event pc = msg_listening \/ event pc = msg_connection_ready).

(** The connection is not registered ([conns] does not hold it and
    [poll_fds] has no entry more than before) and exactly one event, an
    error event, was enqueued for it. *)
Definition opened_failed (st st' : State) : Prop :=
  (opened_conn st ∉ conns st') /\
  poll_fds st' = poll_fds (init_if_needed st) /\
  exists pc, enqueued (init_if_needed st) st' = [pc] /\
    conn pc = opened_conn st /\ event pc = msg_error.

(** The connection is registered and nothing was enqueued. *)
Definition opened_silently (st st' : State) : Prop :=
  registered (opened_conn st) st' /\ enqueued (init_if_needed st) st' = [].

(** [conns] and [poll_fds] have corresponding elements at the same
    index, and every registered connection is an allocated block. *)
Definition conns_live (st : State) : Prop :=
  init_done st = true ->
  length (conns st) = length (poll_fds st) /\
  forall c, c ∈ conns st -> is_Some (heap st !! c).

(** *** Sample inputs *)

Definition linux_strerror (e : Z) : string :=
  if e =? 98 then "Address already in use"
  else if e =? 111 then "Connection refused"
  else if e =? 24 then "Too many open files"
  else "Unknown error " +:+ pretty e.

(** A stand-in for [inet_aton] that knows the loopback address only (as
    [s_addr] reads on a little-endian host). *)
Definition loopback_inet_aton (s : string) : option Z :=
  if decide (s = "127.0.0.1") then Some 16777343 else None.

Definition open_ok (sock : Z) : open_oracle :=
  {| socket_ret := sock; socket_errno := 0; open_ret := 0; open_errno := 0 |}.

(** User routine 1 answers the listening event by listening on an
    address that does not parse; every other routine returns at once. *)
Definition sample_user_code (f c : Z) (ev : msg_Event) (d : msg_Data) (st : State)
  : option State :=
  if f =? 1 then
    match ev with
    | msg_listening => to_option (msg_listen "bogus" 0 0 (open_ok 4) st)
    | _ => Some st
    end
  else Some st.

Definition idle_user_code (f c : Z) (ev : msg_Event) (d : msg_Data) (st : State)
  : option State := Some st.

(** A tick in which [poll] reports nothing. *)
Definition quiet_tick : tick_oracle :=
  {| poll_ret := 0; poll_errno := 0; poll_revents := fun _ => 0;
     tick_reads := fun _ => {| on_recv := recv_error 11; on_recvfrom := recvfrom_error 11 |} |}.

(** A one-way, single-packet frame carrying the two bytes of "hi". *)
Definition hi_frame : list Z := [0; 0; 0; 1; 0; 0; 0; 0; 104; 105].

Definition hi_sender : sockaddr_in :=
  {| sin_family := AF_INET; sin_port := 34835; sin_addr := 16777343 |}.

(** A tick in which every descriptor is readable and holds [hi_frame]. *)
Definition hi_tick : tick_oracle :=
  {| poll_ret := 1; poll_errno := 0; poll_revents := fun _ => POLLIN;
     tick_reads := fun _ =>
       {| on_recv := recv_bytes (take 8 hi_frame);
          on_recvfrom := recvfrom_dgram hi_frame hi_sender |} |}.

(** A close frame, as [msg_disconnect] sends it. *)
Definition close_frame : list Z := [0; 4; 0; 1; 0; 0; 0; 0].

Definition close_read : read_oracle :=
  {| on_recv := recv_bytes close_frame;
     on_recvfrom := recvfrom_dgram close_frame hi_sender |}.


(** The block [msg_new_data] leaves behind for a string: the reserved
    header prefix, the characters, the terminating NUL. *)
Definition text_block (str : string) : list Z :=
  overwrite header_len (string_bytes str ++ [0])
    (replicate (Z.to_nat (strlen str + 1 + header_len)) 0).

Definition text_data (b : Z) (str : string) : msg_Data :=
  {| num_bytes := strlen str + 1; bytes := Ptr b header_len |}.

(** The text of the error event built from [errno]. *)
Definition os_error_text (msg : string) (e : Z) : string :=
  snprintf_1024 (msg +:+ ": " +:+ strerror e).

(** The connection [new_connection] allocates, and the connection as
    [open_socket] hands it to [parse_address_str]. *)
Definition zeroed_conn (conn_context callback : Z) : msg_Conn :=
  {| conn_context := conn_context; callback := callback;
     for_listening := 0; socket := 0; protocol_type := 0;
     remote_ip := 0; remote_port := 0; reply_id := 0 |}.

Definition parsed_conn (address : string) (conn_context callback for_listening : Z)
    (o : open_oracle) : option string * msg_Conn :=
  parse_address_str address
    (with_socket (socket_ret o)
       (with_for_listening for_listening (zeroed_conn conn_context callback))).

(** The socket address [setup_sockaddr] fills in from a connection, and
    the key under which [open_socket] then looks the peer up. *)
Definition sockaddr_of (cn : msg_Conn) : sockaddr_in :=
  {| sin_family := AF_INET;
     sin_port := htons (uint16 (remote_port cn));
     sin_addr := uint32 (remote_ip cn) |}.

Definition peer_key (cn : msg_Conn) : Address := address_of cn (sockaddr_of cn).

Definition creates_socket (s : Syscall) : bool :=
  match s with
  | SysSocket _ _ _ => true
  | _ => false
  end.

Definition pending (c : Z) (ev : msg_Event) (d : msg_Data) (tf : pointer) : PendingCall :=
  {| conn := c; event := ev; data := d; to_free := tf |}.

(** Block [c] of the heap holds a connection. *)
Definition conn_at (st : State) (c : Z) : Prop :=
  exists cn, heap st !! c = Some (OConn cn).

(** The message types the [switch] of [read_from_socket] has a case for. *)
Definition handled_type (t : Z) : Prop :=
  t = one_way \/ t = request \/ t = reply.

Definition state_of (o : Outcome State) : State :=
  match o with
  | Ret st => st
  | _ => initial_state
  end.

(** The state after one successful [msg_listen], and after one
    successful [msg_connect], from the initial state. *)
Definition listening_state : State :=
  state_of (msg_listen "udp://*:9000" 0 1 (open_ok 3) initial_state).

Definition connected_state : State :=
  state_of (msg_connect "udp://*:9000" 0 0 (open_ok 3) initial_state).


(** A state holding one data buffer: the reserved prefix and "hi". *)
Definition buffer_state : State :=
  set_heap (<[7 := OBytes [0; 0; 0; 0; 0; 0; 0; 0; 104; 105]]> (heap listening_state))
    listening_state.

Definition hi_data : msg_Data := {| num_bytes := 2; bytes := Ptr 7 8 |}.

(** The connection [listening_state] holds at block 0. *)
Definition listening_conn : msg_Conn :=
  {| conn_context := 0; callback := 1; for_listening := 1; socket := 3;
     protocol_type := SOCK_DGRAM; remote_ip := 0; remote_port := 9000; reply_id := 0 |}.

(** Three frames from one sender, and one from another in between. *)
Definition sample_observations : list observation :=
  let from (port : Z) :=
    {| obs_conn := 0;
       obs_contents := with_remote_port port (with_remote_ip 16777343 listening_conn);
       obs_sockaddr := {| sin_family := AF_INET; sin_port := htons port;
                          sin_addr := 16777343 |} |} in
  [from 5000; from 6000; from 5000; from 5000].

Definition is_allocated (b : Z) (st : State) : bool :=
  match heap st !! b with
  | Some _ => true
  | None => false
  end.

(** The calls a tick delivered and the state it left, when it returned. *)
Definition tick_log (r : Outcome (list Delivery * State)) : list Delivery :=
  match r with
  | Ret (log, _) => log
  | _ => []
  end.

Definition tick_state (r : Outcome (list Delivery * State)) : State :=
  match r with
  | Ret (_, st) => st
  | _ => initial_state
  end.

Definition returned {A : Type} (r : Outcome A) : bool :=
  match r with
  | Ret _ => true
  | _ => false
  end.

(** ** Further functions of [msgbox.c]

    [msg_ip_str], which formats through [inet_ntoa], is left out. *)

(** A 32-bit value as it lies in memory. *)
Definition store32 (x : Z) : list Z :=
  if host_little_endian
  then [x mod 256; x / 256 mod 256; x / 65536 mod 256; x / 16777216]
  else [x / 16777216; x / 65536 mod 256; x / 256 mod 256; x mod 256].

(** The eight bytes of an [Address]: a [uint32_t] and two [uint16_t],
    with no padding between or after them. *)
Definition address_bytes (a : Address) : list Z :=
  store32 (ip a) ++ store16 (port a) ++ store16 (address_protocol_type a).

(** [address_eq]: [memcmp] over [sizeof(Address)] bytes is 0. *)
Definition address_eq (addr1 addr2 : Address) : bool :=
  bool_decide (address_bytes addr1 = address_bytes addr2).

(** [address_hash] reads the eight bytes of the key as [char] and folds
    them into an [int], [hash *= 234; hash += bytes[i]]. Arithmetic that
    leaves the range of [int] has no defined result. *)
Definition INT_MAX : Z := 2147483647.
Definition INT_MIN : Z := -2147483648.

Definition in_int (x : Z) : bool := (INT_MIN <=? x) && (x <=? INT_MAX).

(** A byte of memory read through a [char *]. *)
Definition as_char (byte : Z) : Z :=
  if char_is_signed && (128 <=? byte) then byte - 256 else byte.

Fixpoint address_hash_from (bytes : list Z) (hash : Z) : Outcome Z :=
  match bytes with
  | [] => Ret hash
  | byte :: rest =>
      let hash := hash * 234 in
      if negb (in_int hash) then Undefined
      else
        let hash := hash + as_char byte in
        if negb (in_int hash) then Undefined
        else address_hash_from rest hash
  end.

Definition address_hash (address : Address) : Outcome Z :=
  address_hash_from (address_bytes address) 0.

(** The C string that starts a list of bytes; there is none when the
    list holds no NUL. *)
Fixpoint bytes_to_cstring (bs : list Z) : option string :=
  match bs with
  | [] => None
  | b :: rest =>
      if b =? 0 then Some EmptyString
      else String (ascii_of_nat (Z.to_nat b)) <$> bytes_to_cstring rest
  end.

(** [msg_as_str] returns [data.bytes] as a [char *]: the string is what
    lies there up to the first NUL, which has to come before the end of
    the block. *)
Definition msg_as_str (d : msg_Data) (st : State) : Outcome string :=
  match bytes d with
  | NULL => Undefined
  | Ptr b o =>
      match heap st !! b with
      | Some (OBytes content) =>
          if (0 <=? o) && (o <=? Z.of_nat (length content))
          then of_option (bytes_to_cstring (drop (Z.to_nat o) content))
          else Undefined
      | _ => Undefined
      end
  end.

Definition msg_error_str (d : msg_Data) (st : State) : Outcome string :=
  msg_as_str d st.

(** A string that can be a C string: none of its characters is NUL. *)
Fixpoint no_nul (s : string) : Prop :=
  match s with
  | EmptyString => True
  | String a r => a <> zero /\ no_nul r
  end.

(** A string of decimal digits, and the number it writes. *)
Fixpoint all_digits (s : string) : Prop :=
  match s with
  | EmptyString => True
  | String a r => is_Some (digit_of a) /\ all_digits r
  end.

Definition decimal (s : string) : Z :=
  fold_left (fun acc a => acc * 10 + (Z.of_nat (nat_of_ascii a) - 48))
    (String.list_ascii_of_string s) 0.

(** The ip part of an address as [parse_address_str] reads it. *)
Definition parse_ip (ip_str : string) : option Z :=
  if decide (ip_str = "*") then Some INADDR_ANY else inet_aton ip_str.

(** ** Well-formed states

    A pending call either has nothing to free and is for a registered
    connection, or it owns its connection: [to_free] is the connection,
    which is allocated and not registered. *)
Definition call_ok (st : State) (pc : PendingCall) : Prop :=
  (to_free pc = NULL /\ conn pc ∈ conns st) \/
  (to_free pc = Ptr (conn pc) 0 /\ (conn pc ∉ conns st) /\ conn_at st (conn pc)).

(** The connections the calls of a list own. *)
Definition owned (calls : list PendingCall) : list Z :=
  conn <$> filter (fun pc => to_free pc <> NULL) calls.

(** The state is initialised, [conns] and [poll_fds] are aligned, every
    registered connection is allocated, and the calls still to be
    delivered (those of [pending], then those of the queue) are all in
    order, no connection being owned by two of them. *)
Definition inv (pending : list PendingCall) (st : State) : Prop :=
  init_done st = true /\
  is_Some (arrays st !! immediate_callbacks st) /\
  length (conns st) = length (poll_fds st) /\
  (forall c, c ∈ conns st -> conn_at st c) /\
  Forall (call_ok st) (pending ++ queue st) /\
  NoDup (owned (pending ++ queue st)).

Definition wf (st : State) : Prop := inv [] st.

(** Between two states only byte buffers and the traces differ. *)
Definition same_registry (st st' : State) : Prop :=
  init_done st' = init_done st /\
  immediate_callbacks st' = immediate_callbacks st /\
  arrays st' = arrays st /\
  conns st' = conns st /\
  poll_fds st' = poll_fds st /\
  conn_status st' = conn_status st /\
  forall c cn, heap st !! c = Some (OConn cn) -> heap st' !! c = Some (OConn cn).



(** Nothing registered in [st] is missing from [st']: the connections
    and descriptors of [st] are still there, in place, and so is every
    peer key. *)
Definition registrations_kept (st st' : State) : Prop :=
  conns st `prefix_of` conns st' /\
  (fd <$> poll_fds st) `prefix_of` (fd <$> poll_fds st') /\
  conn_status st ⊆ conn_status st'.


(** The text of the error event [open_socket] enqueues when it fails. *)
Definition open_error_text (address : string) (ctx cb fl : Z) (o : open_oracle) : string :=
  if socket_ret o =? -1 then os_error_text "socket" (socket_errno o)
  else match (parsed_conn address ctx cb fl o).1 with
       | Some err_msg => err_msg
       | None => os_error_text "bind" (open_errno o)
       end.

(** * Properties *)

(** The callback routines the properties are about. *)
Variable user_code : Z -> Z -> msg_Event -> msg_Data -> State -> option State.

(** ** Outcomes, memory and lists *)

Lemma obind_Ret {A B : Type} (m : Outcome A) (k : A -> Outcome B) (b : B) :
  obind m k = Ret b -> exists a, m = Ret a /\ k a = Ret b.
Proof. destruct m; simpl; intros H; try discriminate. eauto. Qed.

(** Splits a hypothesis [(x <- m ;; k) = Ret b] into its two steps. *)
Tactic Notation "obind_inv" hyp(H) "as" ident(a) ident(Ha) :=
  apply obind_Ret in H as (a & Ha & H).

(** Reduces projections of the state through the field updates. *)
Ltac state_simpl :=
  cbn [heap arrays init_done immediate_callbacks poll_fds conns conn_status
       errno syscalls stderr set_heap set_arrays set_immediate_callbacks
       set_poll_fds set_conns set_conn_status set_errno syscall fprintf_stderr
       fst snd obind] in *.

Lemma slice_overwrite_same (o : Z) (bs content : list Z) :
  0 <= o -> o + Z.of_nat (length bs) <= Z.of_nat (length content) ->
  slice o (Z.of_nat (length bs)) (overwrite o bs content) = bs.
Proof.
  intros Ho Hlen. unfold slice, overwrite.
  rewrite Nat2Z.id.
  rewrite drop_app_length'; [| rewrite length_take; lia].
  by rewrite take_app_length.
Qed.

Lemma slice_overwrite_after (o n : Z) (bs content : list Z) :
  0 <= o -> o + Z.of_nat (length bs) <= Z.of_nat (length content) ->
  slice (o + Z.of_nat (length bs)) n (overwrite o bs content)
  = slice (o + Z.of_nat (length bs)) n content.
Proof.
  intros Ho Hlen. unfold slice, overwrite. f_equal.
  replace (Z.to_nat (o + Z.of_nat (length bs))) with (Z.to_nat o + length bs)%nat by lia.
  rewrite app_assoc.
  rewrite drop_app_length'; [done |].
  rewrite length_app, length_take. lia.
Qed.

Lemma length_overwrite (o : Z) (bs content : list Z) :
  0 <= o -> o + Z.of_nat (length bs) <= Z.of_nat (length content) ->
  length (overwrite o bs content) = length content.
Proof.
  intros Ho Hlen. unfold overwrite.
  rewrite !length_app, length_take, length_drop. lia.
Qed.

Lemma load_conn_live (c : Z) (cn : msg_Conn) (st : State) :
  heap st !! c = Some (OConn cn) -> load_conn c st = Ret cn.
Proof. intros H. unfold load_conn. by rewrite H. Qed.

Lemma store_conn_live (c : Z) (cn cn' : msg_Conn) (st : State) :
  heap st !! c = Some (OConn cn) ->
  store_conn c cn' st = Ret (set_heap (<[c := OConn cn']> (heap st)) st).
Proof. intros H. unfold store_conn. by rewrite H. Qed.

Lemma store_bytes_live (b o : Z) (bs content : list Z) (st : State) :
  heap st !! b = Some (OBytes content) ->
  0 <= o -> o + Z.of_nat (length bs) <= Z.of_nat (length content) ->
  store_bytes (Ptr b o) bs st
  = Ret (set_heap (<[b := OBytes (overwrite o bs content)]> (heap st)) st).
Proof.
  intros H Ho Hlen. unfold store_bytes. rewrite H.
  destruct (0 <=? o) eqn:E1; [| lia].
  destruct (o + Z.of_nat (length bs) <=? Z.of_nat (length content)) eqn:E2; [| lia].
  done.
Qed.

Lemma load_bytes_live (b o n : Z) (content : list Z) (st : State) :
  heap st !! b = Some (OBytes content) ->
  0 <= o -> 0 <= n -> o + n <= Z.of_nat (length content) ->
  load_bytes (Ptr b o) n st = Ret (slice o n content).
Proof.
  intros H Ho Hn Hlen. unfold load_bytes. rewrite H.
  destruct (0 <=? o) eqn:E1; [| lia].
  destruct (0 <=? n) eqn:E2; [| lia].
  destruct (o + n <=? Z.of_nat (length content)) eqn:E3; [| lia].
  done.
Qed.

(** ** The wire codec *)

Lemma store16_htons (x : Z) :
  is_uint16 x -> store16 (htons x) = [x / 256; x mod 256].
Proof.
  unfold is_uint16, store16, htons. intros Hx.
  destruct host_little_endian; [| done].
  assert (0 <= x / 256 < 256) by (split; [apply Z.div_pos | apply Z.div_lt_upper_bound]; lia).
  assert (0 <= x mod 256 < 256) by (apply Z.mod_pos_bound; lia).
  f_equal; [| f_equal].
  - rewrite Z.add_comm, Z.mod_add by lia. apply Z.mod_small. lia.
  - rewrite Z.add_comm, Z.div_add by lia. rewrite Z.div_small by lia. lia.
Qed.

Lemma ntohs_load16 (b0 b1 : Z) :
  is_byte b0 -> is_byte b1 -> ntohs (load16 b0 b1) = 256 * b0 + b1.
Proof.
  unfold is_byte, ntohs, htons, load16. intros H0 H1.
  destruct host_little_endian; [| done].
  replace (b0 + 256 * b1) with (b0 + b1 * 256) by lia.
  rewrite Z.mod_add, Z.div_add by lia.
  rewrite Z.mod_small, Z.div_small by lia. lia.
Qed.

Lemma ntohs_load16_htons (x : Z) :
  is_uint16 x -> ntohs (load16 (x / 256) (x mod 256)) = x.
Proof.
  intros Hx. unfold is_uint16 in Hx.
  rewrite ntohs_load16.
  - symmetry. apply Z.div_mod. lia.
  - split; [apply Z.div_pos | apply Z.div_lt_upper_bound]; lia.
  - apply Z.mod_pos_bound. lia.
Qed.

Lemma header_bytes_network_order (t n p r : Z) :
  is_uint16 t -> is_uint16 n -> is_uint16 p -> is_uint16 r ->
  header_bytes t n p r =
  [t / 256; t mod 256; n / 256; n mod 256; p / 256; p mod 256; r / 256; r mod 256].
Proof.
  intros Ht Hn Hp Hr. unfold header_bytes.
  by rewrite !store16_htons.
Qed.

Lemma decode_header_bytes (t n p r : Z) :
  is_uint16 t -> is_uint16 n -> is_uint16 p -> is_uint16 r ->
  decode_header (header_bytes t n p r)
  = Some {| message_type := t; num_packets := n; packet_id := p; header_reply_id := r |}.
Proof.
  intros Ht Hn Hp Hr. rewrite header_bytes_network_order by done.
  unfold decode_header. by rewrite !ntohs_load16_htons.
Qed.

Lemma set_header_live (d : msg_Data) (b off : Z) (content : list Z) (t n p r : Z)
    (st : State) :
  bytes d = Ptr b off ->
  heap st !! b = Some (OBytes content) ->
  header_len <= off -> off <= Z.of_nat (length content) ->
  is_uint16 t -> is_uint16 n -> is_uint16 p -> is_uint16 r ->
  set_header d t n p r st
  = Ret (set_heap
           (<[b := OBytes (overwrite (off - header_len) (header_bytes t n p r) content)]>
              (heap st)) st).
Proof.
  intros Hd Hb Hoff Hlen Ht Hn Hp Hr. unfold set_header. rewrite Hd. simpl.
  replace (off + - header_len) with (off - header_len) by lia.
  apply store_bytes_live; [done | lia |].
  rewrite header_bytes_network_order by done. simpl. unfold header_len in *. lia.
Qed.

(** What [set_header] does to a well-formed data buffer. *)
Lemma set_header_effect (d : msg_Data) (b off : Z) (content : list Z) (t n p r : Z)
    (st : State) :
  bytes d = Ptr b off ->
  heap st !! b = Some (OBytes content) ->
  header_len <= off -> 0 <= num_bytes d ->
  off + num_bytes d <= Z.of_nat (length content) ->
  is_uint16 t -> is_uint16 n -> is_uint16 p -> is_uint16 r ->
  let st' :=
    set_heap
      (<[b := OBytes (overwrite (off - header_len) (header_bytes t n p r) content)]>
         (heap st)) st in
  set_header d t n p r st = Ret st' /\
  load_bytes (ptr_add (bytes d) (- header_len)) header_len st'
  = Ret (header_bytes t n p r) /\
  load_bytes (bytes d) (num_bytes d) st' = load_bytes (bytes d) (num_bytes d) st.
Proof.
  intros Hd Hb Hoff Hn Hlen Ht Hnp Hp Hr st'.
  assert (Hhl : Z.of_nat (length (header_bytes t n p r)) = header_len)
    by (by rewrite header_bytes_network_order).
  split; [eapply set_header_live; eauto; lia |].
  subst st'. set (hb := header_bytes t n p r) in *.
  assert (Hov : length (overwrite (off - header_len) hb content) = length content)
    by (apply length_overwrite; lia).
  rewrite Hd. simpl ptr_add.
  replace (off + - header_len) with (off - header_len) by lia.
  split.
  - erewrite load_bytes_live;
      [| state_simpl; apply lookup_insert_eq | unfold header_len in *; lia ..].
    f_equal. rewrite <- Hhl.
    apply slice_overwrite_same; lia.
  - erewrite load_bytes_live; [| state_simpl; apply lookup_insert_eq | lia ..].
    erewrite (load_bytes_live _ _ _ content); [| done | unfold header_len in *; lia ..].
    f_equal.
    replace off with ((off - header_len) + Z.of_nat (length hb)) at 1 3 by lia.
    apply slice_overwrite_after; lia.
Qed.

(** C2. Round trip of the frame header: after [set_header] has written
    the fields (message type, 1, 0, reply id) in front of a payload,
    decoding the eight header bytes the way [read_header] does gives
    back exactly these four fields, and the bytes of the payload are
    what they were before. *)
Theorem set_header_decode_roundtrip (d : msg_Data) (b off : Z) (content : list Z)
    (msg_type reply_id : Z) (st : State) :
  bytes d = Ptr b off ->
  heap st !! b = Some (OBytes content) ->
  header_len <= off -> 0 <= num_bytes d ->
  off + num_bytes d <= Z.of_nat (length content) ->
  is_uint16 msg_type -> is_uint16 reply_id ->
  exists st',
    set_header d msg_type 1 0 reply_id st = Ret st' /\
    (hdr <- load_bytes (ptr_add (bytes d) (- header_len)) header_len st' ;;
     Ret (decode_header hdr))
    = Ret (Some {| message_type := msg_type; num_packets := 1;
                   packet_id := 0; header_reply_id := reply_id |}) /\
    load_bytes (bytes d) (num_bytes d) st' = load_bytes (bytes d) (num_bytes d) st.
Proof.
  intros Hd Hb Hoff Hn Hlen Ht Hr.
  assert (H1 : is_uint16 1) by (unfold is_uint16; lia).
  assert (H0 : is_uint16 0) by (unfold is_uint16; lia).
  destruct (set_header_effect d b off content msg_type 1 0 reply_id st)
    as (Hset & Hhdr & Hpay); try done.
  eexists. split; [exact Hset |]. split; [| exact Hpay].
  rewrite Hhdr. cbn [obind]. by rewrite decode_header_bytes.
Qed.

(** ** Allocation of message data *)

Lemma length_string_bytes (s : string) :
  length (string_bytes s) = String.length s.
Proof.
  unfold string_bytes. rewrite length_map.
  induction s as [| a s IH]; simpl; [done | by rewrite IH].
Qed.

Lemma msg_new_data_ret (str : string) (st : State) :
  msg_new_data str st
  = Ret (text_data (fresh (dom (heap st))) str,
         set_heap (<[fresh (dom (heap st)) := OBytes (text_block str)]> (heap st)) st).
Proof.
  unfold msg_new_data, msg_new_data_space, malloc_bytes, malloc.
  set (b := fresh (dom (heap st))). cbn [bytes ptr_add].
  erewrite store_bytes_live; [| state_simpl; apply lookup_insert_eq | done |].
  - state_simpl. unfold text_data, text_block, set_heap. state_simpl.
    by rewrite insert_insert_eq.
  - rewrite length_replicate, length_app, length_string_bytes. unfold strlen, header_len.
    simpl length. lia.
Qed.

Lemma text_block_text (b : Z) (str : string) (st : State) :
  heap st !! b = Some (OBytes (text_block str)) ->
  load_bytes (bytes (text_data b str)) (num_bytes (text_data b str)) st
  = Ret (string_bytes str ++ [0]).
Proof.
  intros Hb. unfold text_data. cbn [bytes num_bytes].
  assert (Hl : Z.of_nat (length (string_bytes str ++ [0])) = strlen str + 1).
  { rewrite length_app, length_string_bytes. unfold strlen. simpl length. lia. }
  assert (Hr : Z.of_nat (length (replicate (Z.to_nat (strlen str + 1 + header_len)) 0))
               = strlen str + 1 + header_len).
  { rewrite length_replicate. unfold strlen, header_len. lia. }
  erewrite load_bytes_live; [| exact Hb | unfold header_len, strlen; lia ..|].
  - f_equal. unfold text_block. rewrite <- Hl. apply slice_overwrite_same.
    + unfold header_len; lia.
    + rewrite Hl, Hr. unfold header_len; lia.
  - unfold text_block. rewrite length_overwrite; rewrite ?Hl, ?Hr; unfold header_len; lia.
Qed.

Lemma send_callback_error_ret (c : Z) (msg : string) (tf : pointer) (st : State) :
  send_callback_error c msg tf st
  = Ret (send_callback c msg_error (text_data (fresh (dom (heap st))) msg) tf
           (set_heap (<[fresh (dom (heap st)) := OBytes (text_block msg)]> (heap st)) st)).
Proof. unfold send_callback_error. by rewrite msg_new_data_ret. Qed.

Lemma send_callback_os_error_ret (c : Z) (msg : string) (tf : pointer) (st : State) :
  send_callback_os_error c msg tf st
  = Ret (send_callback c msg_error
           (text_data (fresh (dom (heap st))) (os_error_text msg (errno st))) tf
           (set_heap
              (<[fresh (dom (heap st)) := OBytes (text_block (os_error_text msg (errno st)))]>
                 (heap st)) st)).
Proof. unfold send_callback_os_error. by rewrite send_callback_error_ret. Qed.

(** ** Opening a socket *)

Lemma CArrayRemoveLast_add {A : Type} (l : list A) (x : A) :
  CArrayRemoveLast (CArrayAddElement l x) = Ret l.
Proof.
  unfold CArrayRemoveLast, CArrayAddElement, CArrayRemoveElement.
  rewrite length_app. simpl. replace (length l + 1)%nat with (S (length l)) by lia.
  f_equal. induction l as [| a l IH]; simpl; [done | by rewrite IH].
Qed.

Lemma fresh_block_unused (h : gmap Z Obj) : h !! fresh (dom h) = None.
Proof. apply not_elem_of_dom, is_fresh. Qed.

Lemma init_if_needed_done (st : State) : init_done (init_if_needed st) = true.
Proof. unfold init_if_needed. destruct (init_done st) eqn:E; [done |]. by simpl. Qed.

Lemma init_if_needed_id (st : State) : init_done st = true -> init_if_needed st = st.
Proof. intros H. unfold init_if_needed. by rewrite H. Qed.

Lemma init_if_needed_syscalls (st : State) : syscalls (init_if_needed st) = syscalls st.
Proof. unfold init_if_needed. by destruct (init_done st). Qed.

Lemma init_if_needed_queue (st : State) :
  queue_allocated st ->
  is_Some (arrays (init_if_needed st) !! immediate_callbacks (init_if_needed st)).
Proof.
  intros Hq. unfold init_if_needed. destruct (init_done st) eqn:E; [by apply Hq |].
  simpl. rewrite lookup_insert_eq. eauto.
Qed.

(** Symbolic execution of loads and stores of a connection that the
    heap in the goal visibly holds. *)
Ltac conn_step :=
  first
    [ erewrite load_conn_live by (state_simpl; apply lookup_insert_eq)
    | erewrite store_conn_live by (state_simpl; apply lookup_insert_eq) ];
  state_simpl; rewrite ?insert_insert_eq.

(** Every way [open_socket] can go, with what it leaves behind. *)
Lemma open_socket_cases (address : string) (ctx cb fl : Z) (o : open_oracle) (st : State) :
  let st0 := init_if_needed st in
  let c := opened_conn st in
  exists st',
    open_socket address ctx cb fl o st = Ret st' /\
    init_done st' = true /\
    immediate_callbacks st' = immediate_callbacks st0 /\
    (exists rest,
        syscalls st' = syscalls st ++ SysSocket AF_INET SOCK_DGRAM 0 :: rest /\
        Forall (fun s => creates_socket s = false) rest) /\
    (((socket_ret o = -1 \/ is_Some (parsed_conn address ctx cb fl o).1
       \/ open_ret o = -1) /\
      conns st' = conns st0 /\ poll_fds st' = poll_fds st0 /\
      conn_status st' = conn_status st0 /\
      exists d,
        arrays st' =
        alter (fun q => q ++ [pending c msg_error d (Ptr c 0)])
          (immediate_callbacks st0) (arrays st0))
     \/
     (exists cn,
        socket_ret o <> -1 /\ parsed_conn address ctx cb fl o = (None, cn) /\
        open_ret o <> -1 /\
        heap st' !! c = Some (OConn cn) /\
        conns st' = conns st0 ++ [c] /\
        poll_fds st' =
          poll_fds st0 ++ [{| fd := socket_ret o; events := POLLIN; revents := 0 |}] /\
        ((fl <> 0 /\ conn_status st' = conn_status st0 /\
          arrays st' =
          alter (fun q => q ++ [pending c msg_listening msg_no_data NULL])
            (immediate_callbacks st0) (arrays st0))
         \/
         (fl = 0 /\ conn_status st0 !! peer_key cn = None /\
          conn_status st' = <[peer_key cn := {| last_seen_at := 0 |}]> (conn_status st0) /\
          arrays st' =
          alter (fun q => q ++ [pending c msg_connection_ready msg_no_data NULL])
            (immediate_callbacks st0) (arrays st0))
         \/
         (fl = 0 /\ is_Some (conn_status st0 !! peer_key cn) /\
          conn_status st' = conn_status st0 /\ arrays st' = arrays st0)))).
Proof.
  intros st0 c. unfold open_socket, new_connection, malloc.
  fold st0. unfold opened_conn in c. fold st0 in c. fold c.
  fold (zeroed_conn ctx cb).
  assert (Hsys : syscalls st0 = syscalls st) by apply init_if_needed_syscalls.
  assert (Hinit : init_done st0 = true) by apply init_if_needed_done.
  do 2 conn_step.
  unfold setup_sockaddr. destruct (socket_ret o =? -1) eqn:Es.
  - rewrite send_callback_os_error_ret. state_simpl.
    eexists. split; [reflexivity |]. unfold send_callback. state_simpl.
    repeat split; try done.
    + exists []. rewrite Hsys. split; [done | constructor].
    + left. repeat split; try done; [left; lia | eauto].
  - do 3 conn_step.
    fold (parsed_conn address ctx cb fl o).
    destruct (parsed_conn address ctx cb fl o) as [[err|] cn] eqn:Ep.
    + conn_step.
      unfold remove_last_polling_conn. state_simpl.
      repeat (rewrite CArrayRemoveLast_add; state_simpl).
      rewrite send_callback_error_ret. state_simpl.
      eexists. split; [reflexivity |]. unfold send_callback. state_simpl.
      repeat split; try done.
      * exists []. rewrite Hsys. split; [done | constructor].
      * left. repeat split; try done; [right; left; simpl; eauto | eauto].
    + do 2 conn_step.
      destruct (open_ret o =? -1) eqn:Eo.
      * rewrite send_callback_os_error_ret. state_simpl.
        unfold remove_last_polling_conn, send_callback. state_simpl.
        repeat (rewrite CArrayRemoveLast_add; state_simpl).
        eexists. split; [reflexivity |]. state_simpl.
        repeat split; try done.
        -- eexists. rewrite Hsys, <- app_assoc. split; [reflexivity |].
           destruct (fl =? 0); repeat constructor.
        -- left. repeat split; try done; [right; right; lia | eauto].
      * assert (Hrest : Forall (fun s => creates_socket s = false)
                          [if fl =? 0 then SysConnect (socket cn) (sockaddr_of cn)
                           else SysBind (socket cn) (sockaddr_of cn)])
          by (destruct (fl =? 0); repeat constructor).
        destruct (fl =? 0) eqn:Ef.
        -- unfold remote_address_seen. conn_step.
           fold (sockaddr_of cn). fold (peer_key cn). unfold CMapFind.
           destruct (conn_status st0 !! peer_key cn) as [status|] eqn:Ek.
           ++ eexists. split; [reflexivity |]. state_simpl.
              repeat split; try done.
              ** eexists. rewrite Hsys, <- app_assoc. split; [reflexivity | exact Hrest].
              ** right. exists cn. repeat split; try done; try lia.
                 { apply lookup_insert_eq. }
                 right. right. split; [lia |]. split; [eauto |]. done.
           ++ eexists. split; [reflexivity |]. unfold send_callback, CMapSet. state_simpl.
              repeat split; try done.
              ** eexists. rewrite Hsys, <- app_assoc. split; [reflexivity | exact Hrest].
              ** right. exists cn. repeat split; try done; try lia.
                 { apply lookup_insert_eq. }
                 right. left. split; [lia |]. split; [done |]. done.
        -- eexists. split; [reflexivity |]. unfold send_callback. state_simpl.
           repeat split; try done.
           ++ eexists. rewrite Hsys, <- app_assoc. split; [reflexivity | exact Hrest].
           ++ right. exists cn. repeat split; try done; try lia.
              { apply lookup_insert_eq. }
              left. split; [lia |]. done.
Qed.

Lemma enqueued_alter (before after : State) (q added : list PendingCall) :
  arrays before !! immediate_callbacks before = Some q ->
  immediate_callbacks after = immediate_callbacks before ->
  arrays after =
    alter (fun q => q ++ added) (immediate_callbacks before) (arrays before) ->
  queue after = q ++ added /\ enqueued before after = added.
Proof.
  intros Hq Hic Harr. unfold enqueued, queue. rewrite Hic, Harr, Hq.
  rewrite lookup_alter_eq, Hq. simpl.
  split; [done |]. by rewrite drop_app_length.
Qed.

Lemma enqueued_same (before after : State) :
  immediate_callbacks after = immediate_callbacks before ->
  arrays after = arrays before ->
  enqueued before after = [].
Proof.
  intros Hic Harr. unfold enqueued, queue. rewrite Hic, Harr.
  by rewrite drop_all.
Qed.

Lemma opened_conn_unregistered (st : State) :
  conns_live st -> opened_conn st ∉ conns (init_if_needed st).
Proof.
  intros Hlive Hin. unfold opened_conn in Hin.
  destruct (init_done st) eqn:E.
  - rewrite init_if_needed_id in Hin by done.
    destruct (Hlive E) as [_ Hl]. destruct (Hl _ Hin) as [x Hx].
    by rewrite fresh_block_unused in Hx.
  - unfold init_if_needed in Hin. rewrite E in Hin. simpl in Hin.
    by apply not_elem_of_nil in Hin.
Qed.

Lemma init_if_needed_lengths (st : State) :
  conns_live st ->
  length (conns (init_if_needed st)) = length (poll_fds (init_if_needed st)).
Proof.
  intros Hlive. destruct (init_done st) eqn:E.
  - rewrite init_if_needed_id by done. by destruct (Hlive E).
  - unfold init_if_needed. by rewrite E.
Qed.

(** [parse_address_str] leaves the socket of the connection alone. *)
Lemma parse_address_str_socket (address : string) (cn : msg_Conn) :
  socket (parse_address_str address cn).2 = socket cn.
Proof.
  unfold parse_address_str.
  repeat match goal with
         | |- context [if ?b then _ else _] => destruct b
         | |- context [match ?x with _ => _ end] => destruct x
         end; reflexivity.
Qed.

Lemma registered_last (c : Z) (cn : msg_Conn) (pfd : pollfd) (cs : list Z)
    (ps : list pollfd) (st' : State) :
  length cs = length ps ->
  conns st' = cs ++ [c] -> poll_fds st' = ps ++ [pfd] ->
  heap st' !! c = Some (OConn cn) ->
  fd pfd = socket cn -> events pfd = POLLIN ->
  registered c st'.
Proof.
  intros Hlen Hc Hp Hh Hfd Hev. exists (length cs), cn, pfd.
  rewrite Hc, Hp. split; [apply list_lookup_middle; done |].
  split; [apply list_lookup_middle; done |]. done.
Qed.

Lemma peer_key_registry_key (cn : msg_Conn) :
  peer_key cn = registry_key (remote_ip cn) (remote_port cn) (protocol_type cn).
Proof.
  unfold peer_key, address_of, sockaddr_of, registry_key, uint32. cbn [sin_addr].
  by rewrite Z.mod_mod.
Qed.

(** C1 (as amended). [open_socket] returns, and it ends in one of three
    ways. (a) The connection is registered and exactly one event was
    enqueued for it: a listening event for a listen; a connection-ready
    event for a connect, and then the (remote ip, remote port, protocol
    type) triple of the parsed address was not in the registry. (b) The
    connection is not registered and exactly one event, an error event,
    was enqueued for it. (c) The call was a connect whose triple was
    already in the registry: the connection is registered and nothing
    was enqueued. *)
Theorem open_socket_outcomes (address : string) (ctx cb fl : Z) (o : open_oracle)
    (st : State) :
  queue_allocated st -> conns_live st ->
  exists st',
    open_socket address ctx cb fl o st = Ret st' /\
    ((opened_registered st st' /\
      exists pc, enqueued (init_if_needed st) st' = [pc] /\
        ((fl <> 0 /\ event pc = msg_listening) \/
         (fl = 0 /\ event pc = msg_connection_ready /\
          exists cn, parsed_conn address ctx cb fl o = (None, cn) /\
            conn_status (init_if_needed st)
              !! registry_key (remote_ip cn) (remote_port cn) (protocol_type cn)
            = None))) \/
     opened_failed st st' \/
     (fl = 0 /\
      (exists cn, parsed_conn address ctx cb fl o = (None, cn) /\
         is_Some (conn_status (init_if_needed st)
                    !! registry_key (remote_ip cn) (remote_port cn) (protocol_type cn))) /\
      opened_silently st st')).
Proof.
  intros Hq Hlive.
  destruct (open_socket_cases address ctx cb fl o st)
    as (st' & Hret & Hinit & Hic & _ & Hcases).
  exists st'. split; [done |].
  destruct (init_if_needed_queue st Hq) as [q Hq0].
  pose proof (opened_conn_unregistered st Hlive) as Hfresh.
  pose proof (init_if_needed_lengths st Hlive) as Hlen.
  destruct Hcases as [(_ & Hc & Hp & _ & d & Harr)
                     | (cn & _ & Hparse & _ & Hh & Hc & Hp & Hsucc)].
  - right. left. split; [by rewrite Hc |]. split; [done |].
    destruct (enqueued_alter _ _ _ _ Hq0 Hic Harr) as [_ He].
    eexists. split; [exact He | done].
  - assert (Hreg : registered (opened_conn st) st').
    { eapply registered_last; try done.
      pose proof (parse_address_str_socket address
                    (with_socket (socket_ret o)
                       (with_for_listening fl (zeroed_conn ctx cb)))) as Hs.
      unfold parsed_conn in Hparse. rewrite Hparse in Hs. simpl in *. congruence. }
    destruct Hsucc as [(Hfl & _ & Harr) | [(Hfl & Hk & _ & Harr) | (Hfl & Hk & _ & Harr)]].
    + left. destruct (enqueued_alter _ _ _ _ Hq0 Hic Harr) as [_ He].
      split.
      * split; [done |].
        eexists. rewrite He. split; [apply list_elem_of_singleton; reflexivity |].
        split; [done | by left].
      * eexists. split; [exact He |]. by left.
    + left. destruct (enqueued_alter _ _ _ _ Hq0 Hic Harr) as [_ He].
      split.
      * split; [done |].
        eexists. rewrite He. split; [apply list_elem_of_singleton; reflexivity |].
        split; [done | by right].
      * eexists. split; [exact He |]. right. split; [done |]. split; [done |].
        exists cn. split; [done |]. by rewrite <- peer_key_registry_key.
    + right. right. split; [done |]. split.
      { exists cn. split; [done |]. by rewrite <- peer_key_registry_key. }
      split; [done |]. by apply enqueued_same.
Qed.

(** C9. Whatever the address says, [open_socket] creates its socket
    first, as [socket(AF_INET, SOCK_DGRAM, 0)], and creates no other
    socket: the system calls it adds to the trace start with that call
    and hold no further socket creation, so no stream socket is ever
    made, [tcp://] prefix or not. *)
Theorem open_socket_always_datagram (address : string) (ctx cb fl : Z) (o : open_oracle)
    (st : State) :
  exists st' rest,
    open_socket address ctx cb fl o st = Ret st' /\
    syscalls st' = syscalls st ++ SysSocket AF_INET SOCK_DGRAM 0 :: rest /\
    Forall (fun s => creates_socket s = false) rest.
Proof.
  destruct (open_socket_cases address ctx cb fl o st)
    as (st' & Hret & _ & _ & (rest & Hsys & Hrest) & _).
  by exists st', rest.
Qed.

(** C10. [msg_unlisten] and [msg_get] do nothing: the state they return
    is the state they were given, so no system call is issued, no
    pending call is enqueued, and the registered set, the peer registry
    and the queue are unchanged. *)
Theorem msg_unlisten_msg_get_no_op (c : Z) (d : msg_Data) (reply_context : Z)
    (st : State) :
  let st1 := msg_unlisten c st in
  let st2 := msg_get c d reply_context st in
  st1 = st /\ st2 = st /\
  syscalls st1 = syscalls st /\ syscalls st2 = syscalls st /\
  queue st1 = queue st /\ queue st2 = queue st /\
  conns st1 = conns st /\ conns st2 = conns st /\
  poll_fds st1 = poll_fds st /\ poll_fds st2 = poll_fds st /\
  conn_status st1 = conn_status st /\ conn_status st2 = conn_status st.
Proof. by repeat split. Qed.

(** ** Peer de-duplication *)

Lemma observe_step (ob : observation) (st : State) (q : list PendingCall) :
  conn_at st (obs_conn ob) ->
  arrays st !! immediate_callbacks st = Some q ->
  exists st0 st1,
    store_conn (obs_conn ob) (obs_contents ob) st = Ret st0 /\
    remote_address_seen (obs_conn ob) (obs_sockaddr ob) st0 = Ret st1 /\
    heap st1 = <[obs_conn ob := OConn (obs_contents ob)]> (heap st) /\
    immediate_callbacks st1 = immediate_callbacks st /\
    ((conn_status st !! obs_key ob = None /\
      conn_status st1 = <[obs_key ob := {| last_seen_at := 0 |}]> (conn_status st) /\
      enqueued st0 st1 = [pending (obs_conn ob) msg_connection_ready msg_no_data NULL] /\
      is_Some (arrays st1 !! immediate_callbacks st))
     \/
     (is_Some (conn_status st !! obs_key ob) /\
      conn_status st1 = conn_status st /\
      enqueued st0 st1 = [] /\
      arrays st1 = arrays st)).
Proof.
  intros [cn Hc] Hq.
  destruct (conn_status st !! obs_key ob) as [status|] eqn:Ek.
  - eexists _, _. split; [by apply (store_conn_live _ cn) |].
    unfold remote_address_seen. conn_step.
    fold (obs_key ob). unfold CMapFind. rewrite Ek.
    split; [reflexivity |]. state_simpl. split; [done |]. split; [done |].
    right. split; [eauto |]. split; [done |]. split; [| done].
    by apply enqueued_same.
  - eexists _, _. split; [by apply (store_conn_live _ cn) |].
    unfold remote_address_seen. conn_step.
    fold (obs_key ob). unfold CMapFind. rewrite Ek.
    split; [reflexivity |]. unfold send_callback, CMapSet. state_simpl.
    split; [done |]. split; [done |].
    left. split; [done |]. split; [done |]. split.
    + eapply enqueued_alter; state_simpl; [exact Hq | done | reflexivity].
    + rewrite lookup_alter_eq, Hq. simpl. eauto.
Qed.

Lemma conn_at_insert (h : gmap Z Obj) (st : State) (c c' : Z) (cn : msg_Conn) :
  heap st = <[c := OConn cn]> h ->
  (exists cn', h !! c' = Some (OConn cn')) -> conn_at st c'.
Proof.
  intros Hh [cn' Hc']. unfold conn_at. rewrite Hh.
  destruct (decide (c = c')) as [-> | Hne].
  - rewrite lookup_insert_eq. eauto.
  - rewrite lookup_insert_ne by done. eauto.
Qed.

(** Once a key is in the registry, observing it enqueues nothing. *)
Lemma observe_run_seen (k : Address) (obs : list observation) :
  forall st,
    (forall ob, ob ∈ obs -> conn_at st (obs_conn ob)) ->
    is_Some (arrays st !! immediate_callbacks st) ->
    is_Some (conn_status st !! k) ->
    exists log st',
      observe_run obs st = Ret (log, st') /\
      map fst log = obs /\
      Forall (fun e => obs_key e.1 = k -> e.2 = []) log.
Proof.
  induction obs as [| ob obs IH]; intros st Hlive [q Hq] Hk.
  - exists [], st. by repeat split.
  - destruct (observe_step ob st q) as (st0 & st1 & Hs0 & Hs1 & Hheap & Hic & Hcase);
      [apply Hlive; left | done |].
    assert (Hlive1 : forall ob', ob' ∈ obs -> conn_at st1 (obs_conn ob')).
    { intros ob' Hin. eapply conn_at_insert; [exact Hheap |].
      apply Hlive. by right. }
    assert (Hq1 : is_Some (arrays st1 !! immediate_callbacks st1)).
    { rewrite Hic. destruct Hcase as [(_ & _ & _ & H) | (_ & _ & _ & H)];
        [done | rewrite H; eauto]. }
    assert (Hk1 : is_Some (conn_status st1 !! k)).
    { destruct Hcase as [(_ & H & _) | (_ & H & _)]; rewrite H; [| done].
      destruct (decide (obs_key ob = k)) as [-> | Hne].
      - rewrite lookup_insert_eq. eauto.
      - by rewrite lookup_insert_ne. }
    destruct (IH st1 Hlive1 Hq1 Hk1) as (log & st' & Hrun & Hkeys & Hnone).
    exists ((ob, enqueued st0 st1) :: log), st'.
    split; [simpl; rewrite Hs0; simpl; rewrite Hs1; simpl; by rewrite Hrun |].
    split; [simpl; by rewrite Hkeys |].
    constructor; [| done]. simpl. intros Hek.
    destruct Hcase as [(Hnew & _) | (_ & _ & He & _)]; [| done].
    rewrite Hek in Hnew. destruct Hk as [x Hx]. congruence.
Qed.

(** The first observation of a key that is not in the registry enqueues
    the one connection-ready event; later observations of it enqueue
    nothing. *)
Lemma observe_run_first (k : Address) (obs : list observation) :
  forall st,
    (forall ob, ob ∈ obs -> conn_at st (obs_conn ob)) ->
    is_Some (arrays st !! immediate_callbacks st) ->
    conn_status st !! k = None ->
    k ∈ map obs_key obs ->
    exists log st' before ob after,
      observe_run obs st = Ret (log, st') /\
      map fst log = obs /\
      log = before ++
            (ob, [pending (obs_conn ob) msg_connection_ready msg_no_data NULL]) :: after /\
      Forall (fun e => obs_key e.1 <> k) before /\
      obs_key ob = k /\
      Forall (fun e => obs_key e.1 = k -> e.2 = []) after.
Proof.
  induction obs as [| ob obs IH]; intros st Hlive [q Hq] Hk Hin.
  - by apply not_elem_of_nil in Hin.
  - destruct (observe_step ob st q) as (st0 & st1 & Hs0 & Hs1 & Hheap & Hic & Hcase);
      [apply Hlive; left | done |].
    assert (Hlive1 : forall ob', ob' ∈ obs -> conn_at st1 (obs_conn ob')).
    { intros ob' Hin'. eapply conn_at_insert; [exact Hheap |].
      apply Hlive. by right. }
    assert (Hq1 : is_Some (arrays st1 !! immediate_callbacks st1)).
    { rewrite Hic. destruct Hcase as [(_ & _ & _ & H) | (_ & _ & _ & H)];
        [done | rewrite H; eauto]. }
    assert (Hrun : forall log st',
               observe_run obs st1 = Ret (log, st') ->
               observe_run (ob :: obs) st
               = Ret ((ob, enqueued st0 st1) :: log, st')).
    { intros log st' H. simpl. rewrite Hs0. simpl. rewrite Hs1. simpl. by rewrite H. }
    destruct (decide (obs_key ob = k)) as [Heq | Hne].
    + (* the first observation of [k] *)
      destruct Hcase as [(_ & Hcs & Henq & _) | (Hseen & _)];
        [| rewrite Heq, Hk in Hseen; by destruct Hseen].
      assert (Hk1 : is_Some (conn_status st1 !! k))
        by (rewrite Hcs, Heq, lookup_insert_eq; eauto).
      destruct (observe_run_seen k obs st1 Hlive1 Hq1 Hk1)
        as (log & st' & Hr & Hkeys & Hnone).
      exists ((ob, enqueued st0 st1) :: log), st', [], ob, log.
      split; [by apply Hrun |].
      split; [simpl; by rewrite Hkeys |].
      split; [simpl; by rewrite Henq |].
      split; [constructor |]. by split.
    + (* an observation of another key *)
      assert (Hk1 : conn_status st1 !! k = None).
      { destruct Hcase as [(_ & H & _) | (_ & H & _)]; rewrite H; [| done].
        by rewrite lookup_insert_ne. }
      assert (Hin1 : k ∈ map obs_key obs).
      { simpl in Hin. apply elem_of_cons in Hin as [Hin | Hin]; [congruence | done]. }
      destruct (IH st1 Hlive1 Hq1 Hk1 Hin1)
        as (log & st' & before & ob1 & after & Hr & Hkeys & Hlog & Hbefore & Hev & Hafter).
      exists ((ob, enqueued st0 st1) :: log), st',
        ((ob, enqueued st0 st1) :: before), ob1, after.
      split; [by apply Hrun |].
      split; [simpl; by rewrite Hkeys |].
      split; [simpl; by rewrite Hlog |].
      split; [by constructor |]. by split.
Qed.

(** For values in range the key is the triple itself. *)
Lemma obs_key_in_range (ob : observation) :
  obs_in_range ob ->
  obs_key ob =
  {| ip := sin_addr (obs_sockaddr ob); port := remote_port (obs_contents ob);
     address_protocol_type := protocol_type (obs_contents ob) |}.
Proof.
  intros (Hip & Hport & Hproto). unfold is_uint16 in *.
  unfold obs_key, address_of, uint32, uint16.
  by rewrite !Z.mod_small by lia.
Qed.

Lemma obs_key_triple (ob : observation) (r_ip r_port proto : Z) :
  obs_in_range ob ->
  obs_key ob = {| ip := r_ip; port := r_port; address_protocol_type := proto |} <->
  obs_triple ob = (r_ip, r_port, proto).
Proof.
  intros Hr. rewrite (obs_key_in_range ob Hr). unfold obs_triple.
  split; intros H; injection H as <- <- <-; reflexivity.
Qed.

Lemma enqueued_for_none (t : Z * Z * Z) (log : list (observation * list PendingCall)) :
  Forall (fun e => obs_triple e.1 = t -> e.2 = []) log -> enqueued_for t log = [].
Proof.
  unfold enqueued_for. induction 1 as [| e log He _ IH]; [done |].
  rewrite filter_cons. destruct (decide (obs_triple e.1 = t)) as [Ht | Ht]; [| done].
  simpl. by rewrite (He Ht), IH.
Qed.

(** C3. Take any (remote ip, remote port, protocol type) triple that
    the registry does not hold, and any run of observations, of this
    triple and of others in any order, with values in the range of
    their types, in which the triple is observed at least once. The
    calls to [remote_address_seen] enqueue exactly one event at the
    observations of the triple, a connection-ready event for the
    connection observed, and they do so at its first observation: every
    later observation of the triple enqueues nothing. *)
Theorem connection_ready_once_per_peer (r_ip r_port proto : Z) (obs : list observation) :
  forall st,
    (forall ob, ob ∈ obs -> conn_at st (obs_conn ob)) ->
    is_Some (arrays st !! immediate_callbacks st) ->
    Forall obs_in_range obs ->
    conn_status st !! {| ip := r_ip; port := r_port; address_protocol_type := proto |}
    = None ->
    (exists ob, ob ∈ obs /\ obs_triple ob = (r_ip, r_port, proto)) ->
    exists log st' before ob pc after,
      observe_run obs st = Ret (log, st') /\
      map fst log = obs /\
      log = before ++ (ob, [pc]) :: after /\
      Forall (fun e => obs_triple e.1 <> (r_ip, r_port, proto)) before /\
      obs_triple ob = (r_ip, r_port, proto) /\
      pc = pending (obs_conn ob) msg_connection_ready msg_no_data NULL /\
      Forall (fun e => obs_triple e.1 = (r_ip, r_port, proto) -> e.2 = []) after /\
      enqueued_for (r_ip, r_port, proto) log = [pc].
Proof.
  intros st Hlive Hq Hrange Hk (ob0 & Hob0 & Ht0).
  set (k := {| ip := r_ip; port := r_port; address_protocol_type := proto |}) in *.
  assert (Hin : k ∈ map obs_key obs).
  { apply list_elem_of_fmap. exists ob0. split; [| done]. symmetry.
    apply obs_key_triple; [| done]. rewrite Forall_forall in Hrange. by apply Hrange. }
  destruct (observe_run_first k obs st Hlive Hq Hk Hin)
    as (log & st' & before & ob & after & Hrun & Hfst & Hlog & Hbefore & Hkey & Hafter).
  assert (Hlr : Forall (fun e => obs_in_range e.1) log).
  { rewrite Forall_forall in Hrange. apply Forall_forall. intros e He.
    apply Hrange. rewrite <- Hfst. apply list_elem_of_fmap. eauto. }
  rewrite Hlog in Hlr. apply Forall_app in Hlr as [Hrb Hra].
  apply Forall_cons in Hra as [Hro Hra]. simpl in Hro.
  assert (Hbefore' : Forall (fun e => obs_triple e.1 <> (r_ip, r_port, proto)) before).
  { rewrite Forall_forall in *. intros e He Ht.
    apply (Hbefore e He). by apply obs_key_triple; [apply Hrb |]. }
  assert (Hafter' : Forall (fun e => obs_triple e.1 = (r_ip, r_port, proto) -> e.2 = [])
                      after).
  { rewrite Forall_forall in *. intros e He Ht.
    apply (Hafter e He). by apply obs_key_triple; [apply Hra |]. }
  assert (Ht : obs_triple ob = (r_ip, r_port, proto)) by (by apply obs_key_triple).
  exists log, st', before, ob,
    (pending (obs_conn ob) msg_connection_ready msg_no_data NULL), after.
  split_and!; try done.
  rewrite Hlog. unfold enqueued_for. rewrite filter_app, filter_cons.
  destruct (decide (obs_triple (ob, [pending (obs_conn ob) msg_connection_ready
                                       msg_no_data NULL]).1 = (r_ip, r_port, proto)))
    as [_ | Hn]; [| done].
  rewrite map_app, concat_app. cbn [map concat snd].
  fold (enqueued_for (r_ip, r_port, proto) before).
  fold (enqueued_for (r_ip, r_port, proto) after).
  rewrite (enqueued_for_none _ before), (enqueued_for_none _ after); [done | done |].
  eapply Forall_impl; [exact Hbefore' |]. intros e Hne Heq. done.
Qed.

(** ** Reading from a socket *)

Lemma fresh_block_ne (h : gmap Z Obj) (c : Z) :
  is_Some (h !! c) -> fresh (dom h) <> c.
Proof. intros [x Hx] Heq. rewrite <- Heq, fresh_block_unused in Hx. done. Qed.

Lemma queue_send_callback (c : Z) (ev : msg_Event) (d : msg_Data) (tf : pointer)
    (st : State) (q : list PendingCall) :
  arrays st !! immediate_callbacks st = Some q ->
  queue (send_callback c ev d tf st) = q ++ [pending c ev d tf].
Proof.
  intros Hq. unfold queue, send_callback. state_simpl.
  by rewrite lookup_alter_eq, Hq.
Qed.

(** Eight bytes that decode are the bytes [read_header] decodes. *)
Lemma decode_header_padded (bs pad : list Z) (header : Header) :
  decode_header (take (Z.to_nat header_len) bs) = Some header ->
  decode_header (take (Z.to_nat header_len) (bs ++ pad)) = Some header.
Proof.
  intros H.
  assert (Hl : (Z.to_nat header_len <= length bs)%nat).
  { destruct (decide (Z.to_nat header_len <= length bs)%nat) as [| Hn]; [done |].
    exfalso. rewrite take_ge in H by lia.
    assert (Hs : (length bs < 8)%nat) by (unfold header_len in Hn; lia).
    do 8 (destruct bs as [| ? bs]; [discriminate H |]). simpl in Hs. lia. }
  by rewrite take_app_le.
Qed.

Lemma read_header_ok (sock c : Z) (ro : read_oracle) (st : State) (bs : list Z)
    (header : Header) (cn : msg_Conn) :
  on_recv ro = recv_bytes bs ->
  decode_header (take (Z.to_nat header_len) bs) = Some header ->
  heap st !! c = Some (OConn cn) ->
  read_header sock c ro st
  = Ret (Some header,
         set_heap (<[c := OConn (with_reply_id (header_reply_id header) cn)]> (heap st))
           (syscall (SysRecv sock header_len MSG_PEEK) st)).
Proof.
  intros Hr Hd Hc. unfold read_header.
  rewrite Hr, (decode_header_padded _ _ _ Hd).
  erewrite load_conn_live by (state_simpl; exact Hc). cbn [obind].
  erewrite store_conn_live by (state_simpl; exact Hc). by state_simpl.
Qed.

Lemma classify_handled (t : Z) :
  handled_type t -> exists ev, classify t = Ret (Some ev).
Proof.
  unfold classify. intros [-> | [-> | ->]]; simpl; eauto.
Qed.

Lemma classify_unhandled (t : Z) :
  ~ handled_type t -> classify t = if DEBUG then AssertFail else Ret None.
Proof.
  unfold handled_type, classify. intros Hn.
  destruct (t =? one_way) eqn:E0; [exfalso; apply Hn; left; lia |].
  destruct (t =? request) eqn:E1; [exfalso; apply Hn; right; left; lia |].
  destruct (t =? reply) eqn:E2; [exfalso; apply Hn; right; right; lia |].
  done.
Qed.

Lemma registered_transfer (c : Z) (st st' : State) (cn cn' : msg_Conn) :
  conns st' = conns st -> poll_fds st' = poll_fds st ->
  heap st !! c = Some (OConn cn) -> heap st' !! c = Some (OConn cn') ->
  socket cn' = socket cn ->
  registered c st -> registered c st'.
Proof.
  intros Hc Hp Hh Hh' Hs (index & cn0 & pfd & Hi & Hj & Hh0 & Hfd & Hev).
  exists index, cn', pfd. rewrite Hc, Hp.
  repeat split; try done. congruence.
Qed.

(** C7. When a receive call fails in the read phase ([recv] in
    [read_header], or [recvfrom] after a header that was read), the read
    enqueues one error event for the connection, whose text is the name
    of the call, a colon, and the system's text for errno; [conns] and
    [poll_fds] are what they were, so a registered connection stays
    registered. *)
Theorem receive_failure_keeps_connection (sock c : Z) (ro : read_oracle) (st : State)
    (q : list PendingCall) (e : Z) (msg : string) :
  arrays st !! immediate_callbacks st = Some q ->
  conn_at st c ->
  (on_recv ro = recv_error e /\ msg = "recv") \/
  (exists bs header ev,
      on_recv ro = recv_bytes bs /\
      decode_header (take (Z.to_nat header_len) bs) = Some header /\
      classify (message_type header) = Ret ev /\
      num_packets header = 1 /\
      on_recvfrom ro = recvfrom_error e /\ msg = "recvfrom") ->
  exists st' d,
    read_from_socket sock c ro st = Ret st' /\
    queue st' = q ++ [pending c msg_error d NULL] /\
    load_bytes (bytes d) (num_bytes d) st'
    = Ret (string_bytes (os_error_text msg e) ++ [0]) /\
    conns st' = conns st /\ poll_fds st' = poll_fds st /\
    (registered c st -> registered c st').
Proof.
  intros Hq [cn Hc] [[Hr ->] | (bs & header & ev & Hr & Hd & Hcl & Hn & Hrf & ->)].
  - unfold read_from_socket, read_header. rewrite Hr.
    rewrite send_callback_os_error_ret. state_simpl.
    eexists _, _. split; [reflexivity |].
    split; [by apply queue_send_callback |].
    split.
    { apply text_block_text. unfold send_callback. state_simpl.
      apply lookup_insert_eq. }
    split; [done |]. split; [done |].
    apply (registered_transfer c st _ cn cn); try done.
    unfold send_callback. state_simpl.
    rewrite lookup_insert_ne by (apply fresh_block_ne; eauto). done.
  - unfold read_from_socket.
    erewrite read_header_ok by eassumption. state_simpl.
    rewrite Hcl, Hn. cbn [obind]. simpl (1 =? 1).
    unfold malloc_bytes, malloc. state_simpl. rewrite Hrf.
    rewrite send_callback_os_error_ret. state_simpl.
    eexists _, _. split; [reflexivity |].
    split; [by apply queue_send_callback |].
    split.
    { apply text_block_text. unfold send_callback. state_simpl.
      apply lookup_insert_eq. }
    split; [done |]. split; [done |].
    set (h1 := <[c := OConn (with_reply_id (header_reply_id header) cn)]> (heap st)).
    assert (Hc1 : h1 !! c = Some (OConn (with_reply_id (header_reply_id header) cn)))
      by apply lookup_insert_eq.
    apply (registered_transfer c st _ cn (with_reply_id (header_reply_id header) cn));
      try done.
    unfold send_callback. state_simpl.
    rewrite lookup_insert_ne.
    + rewrite lookup_insert_ne by (apply fresh_block_ne; eauto). done.
    + apply fresh_block_ne. rewrite lookup_insert_ne by (apply fresh_block_ne; eauto).
      eauto.
Qed.

(** A single-packet frame of a handled type is read to the end. *)
Lemma read_from_socket_valid (sock c : Z) (ro : read_oracle) (st : State) (bs : list Z)
    (header : Header) :
  on_recv ro = recv_bytes bs ->
  decode_header (take (Z.to_nat header_len) bs) = Some header ->
  conn_at st c ->
  handled_type (message_type header) -> num_packets header = 1 ->
  exists st', read_from_socket sock c ro st = Ret st'.
Proof.
  intros Hr Hd [cn Hc] Hh Hn. unfold read_from_socket.
  erewrite read_header_ok by eassumption. state_simpl.
  destruct (classify_handled _ Hh) as [ev ->]. rewrite Hn. cbn [obind]. simpl (1 =? 1).
  unfold malloc_bytes, malloc. state_simpl.
  set (h1 := <[c := OConn (with_reply_id (header_reply_id header) cn)]> (heap st)).
  assert (Hne : fresh (dom h1) <> c).
  { apply fresh_block_ne. unfold h1. rewrite lookup_insert_eq. eauto. }
  set (b := fresh (dom h1)) in *.
  destruct (on_recvfrom ro) as [e | dgram from].
  - rewrite send_callback_os_error_ret. eauto.
  - erewrite store_bytes_live; [| state_simpl; apply lookup_insert_eq | done |].
    + state_simpl. rewrite insert_insert_eq.
      erewrite load_conn_live
        by (state_simpl; rewrite lookup_insert_ne by done; apply lookup_insert_eq).
      cbn [obind].
      erewrite store_conn_live
        by (state_simpl; rewrite lookup_insert_ne by done; apply lookup_insert_eq).
      state_simpl. unfold remote_address_seen. conn_step.
      destruct (CMapFind _ _); state_simpl; eauto.
    + rewrite length_replicate, length_take. unfold recv_buffer_len. lia.
Qed.

(** C5 (as amended). For a header that was read, the read path maps the
    message types one-way, request and reply to the message, request and
    reply events; a single-packet frame of one of these types is read to
    the end, so neither [assert(0)] is reached; in a DEBUG build any
    other frame (another message type, heartbeat and close included, or
    a packet count other than 1) stops the read at [assert(0)]. *)
Theorem read_from_socket_assertions (sock c : Z) (ro : read_oracle) (st : State)
    (bs : list Z) (header : Header) :
  on_recv ro = recv_bytes bs ->
  decode_header (take (Z.to_nat header_len) bs) = Some header ->
  conn_at st c ->
  (classify one_way = Ret (Some msg_message) /\
   classify request = Ret (Some msg_request) /\
   classify reply = Ret (Some msg_reply)) /\
  (handled_type (message_type header) /\ num_packets header = 1 ->
   exists st', read_from_socket sock c ro st = Ret st') /\
  (DEBUG = true ->
   ~ (handled_type (message_type header) /\ num_packets header = 1) ->
   read_from_socket sock c ro st = AssertFail).
Proof.
  intros Hr Hd Hc. split; [done |]. split.
  - intros [Hh Hn]. by eapply read_from_socket_valid.
  - intros HD Hbad. destruct Hc as [cn Hc]. unfold read_from_socket.
    erewrite read_header_ok by eassumption. state_simpl.
    destruct (decide (handled_type (message_type header))) as [Hh | Hh].
    + destruct (classify_handled _ Hh) as [ev ->]. cbn [obind].
      destruct (num_packets header =? 1) eqn:En; [exfalso; apply Hbad; split; [done | lia] |].
      by rewrite HD.
    + rewrite classify_unhandled, HD by done. done.
Qed.

(** ** Sending *)

Lemma slice_overwrite_frame (o n : Z) (bs content : list Z) :
  0 <= o -> 0 <= n -> o + Z.of_nat (length bs) <= Z.of_nat (length content) ->
  slice o (n + Z.of_nat (length bs)) (overwrite o bs content)
  = bs ++ slice (o + Z.of_nat (length bs)) n content.
Proof.
  intros Ho Hn Hlen. unfold slice, overwrite.
  rewrite drop_app_length'; [| rewrite length_take; lia].
  replace (Z.to_nat (n + Z.of_nat (length bs))) with (length bs + Z.to_nat n)%nat by lia.
  rewrite take_app_add. f_equal. f_equal. f_equal. lia.
Qed.

(** C8. [msg_send] writes the header (one-way, 1, 0, 0) into the eight
    bytes in front of the payload and hands header and payload, as one
    frame, to a single system call: [sendto], to the connection's remote
    endpoint, exactly when the connection's protocol type is [msg_udp]
    and it is a listening connection, and [send] in every other case. *)
Theorem msg_send_frames_and_routes (c : Z) (d : msg_Data) (st : State) (cn : msg_Conn)
    (b off : Z) (content : list Z) :
  heap st !! c = Some (OConn cn) ->
  bytes d = Ptr b off ->
  heap st !! b = Some (OBytes content) ->
  header_len <= off -> 0 <= num_bytes d ->
  off + num_bytes d <= Z.of_nat (length content) ->
  let header := header_bytes one_way 1 0 0 in
  let frame := header ++ slice off (num_bytes d) content in
  exists st',
    msg_send c d st = Ret st' /\
    decode_header header
    = Some {| message_type := one_way; num_packets := 1; packet_id := 0;
              header_reply_id := 0 |} /\
    load_bytes (ptr_add (bytes d) (- header_len)) header_len st' = Ret header /\
    load_bytes (bytes d) (num_bytes d) st' = load_bytes (bytes d) (num_bytes d) st /\
    syscalls st' =
      syscalls st ++
      [if (protocol_type cn =? msg_udp) && negb (for_listening cn =? 0)
       then SysSendto (socket cn) frame 0 (set_sockaddr_for_conn cn)
       else SysSend (socket cn) frame 0] /\
    queue st' = queue st /\ conns st' = conns st.
Proof.
  intros Hc Hd Hb Hoff Hn Hlen header frame.
  assert (H16 : forall x, 0 <= x < 2 -> is_uint16 x) by (unfold is_uint16; lia).
  assert (Hhl : Z.of_nat (length header) = header_len).
  { unfold header. rewrite header_bytes_network_order by (apply H16; unfold one_way; lia).
    done. }
  assert (Hne : b <> c) by congruence.
  destruct (set_header_effect d b off content one_way 1 0 0 st)
    as (Hset & Hhdr & Hpay); try done; try (apply H16; unfold one_way; lia).
  fold header in Hset, Hhdr, Hpay.
  unfold msg_send. rewrite Hset. cbn [obind].
  erewrite load_conn_live
    by (state_simpl; rewrite lookup_insert_ne by done; exact Hc).
  cbn [obind].
  assert (Hframe :
    frame_of d
      (set_heap (<[b := OBytes (overwrite (off - header_len) header content)]> (heap st)) st)
    = Ret frame).
  { unfold frame_of. rewrite Hd. simpl ptr_add.
    replace (off + - header_len) with (off - header_len) by lia.
    erewrite load_bytes_live;
      [| state_simpl; apply lookup_insert_eq | unfold header_len in *; lia ..|].
    - f_equal. rewrite <- Hhl at 2. rewrite slice_overwrite_frame by lia.
      unfold frame. f_equal. f_equal. lia.
    - rewrite length_overwrite; lia. }
  fold header. rewrite Hframe.
  exists (syscall
            (if (protocol_type cn =? msg_udp) && negb (for_listening cn =? 0)
             then SysSendto (socket cn) frame 0 (set_sockaddr_for_conn cn)
             else SysSend (socket cn) frame 0)
            (set_heap
               (<[b := OBytes (overwrite (off - header_len) header content)]> (heap st)) st)).
  split; [by destruct ((protocol_type cn =? msg_udp) && negb (for_listening cn =? 0)) |].
  split; [apply decode_header_bytes; apply H16; unfold one_way; lia |].
  split; [exact Hhdr |]. split; [exact Hpay |]. done.
Qed.

(** ** The queue of pending calls under the library's operations *)

Lemma queue_grows_same (st st' : State) :
  init_done st' = init_done st ->
  immediate_callbacks st' = immediate_callbacks st ->
  arrays st' = arrays st ->
  queue_grows st st'.
Proof.
  intros Hi Hic Ha. split; [done |]. split; [done |].
  exists []. rewrite Ha. apply map_eq. intros i. rewrite lookup_alter.
  case_decide; [| done]. subst i.
  destruct (arrays st !! immediate_callbacks st); simpl; [| done].
  by rewrite app_nil_r.
Qed.

Lemma queue_grows_refl (st : State) : queue_grows st st.
Proof. by apply queue_grows_same. Qed.

Lemma queue_grows_trans (st1 st2 st3 : State) :
  queue_grows st1 st2 -> queue_grows st2 st3 -> queue_grows st1 st3.
Proof.
  intros (Hi1 & Hic1 & a1 & Ha1) (Hi2 & Hic2 & a2 & Ha2).
  split; [congruence |]. split; [congruence |].
  exists (a1 ++ a2). rewrite Ha2, Hic1, Ha1.
  rewrite alter_alter_eq. apply alter_ext. intros q _. simpl.
  by rewrite app_assoc.
Qed.






Lemma store_bytes_grows (p : pointer) (bs : list Z) (st st' : State) :
  store_bytes p bs st = Ret st' -> queue_grows st st'.
Proof.
  unfold store_bytes. intros H.
  destruct p as [| b o]; try discriminate.
  destruct (heap st !! b) as [[|]|]; try discriminate.
  destruct (_ && _); try discriminate.
  inversion H; subst. by apply queue_grows_same.
Qed.

Lemma free_grows (p : pointer) (st st' : State) :
  free p st = Ret st' -> queue_grows st st'.
Proof.
  unfold free. intros H.
  destruct p as [| b o]; [inversion H; subst; apply queue_grows_refl |].
  destruct (negb (o =? 0)); try discriminate.
  destruct (heap st !! b); try discriminate.
  inversion H; subst. by apply queue_grows_same.
Qed.








Lemma open_socket_grows (address : string) (ctx cb fl : Z) (o : open_oracle)
    (st st' : State) :
  init_done st = true ->
  open_socket address ctx cb fl o st = Ret st' -> queue_grows st st'.
Proof.
  intros Hi H.
  destruct (open_socket_cases address ctx cb fl o st)
    as (st'' & Hret & Hinit & Hic & _ & Hcases).
  rewrite H in Hret. inversion Hret; subst st''.
  rewrite init_if_needed_id in * by done.
  split; [congruence |]. split; [done |].
  destruct Hcases as [(_ & _ & _ & _ & d & Ha)
                     | (cn & _ & _ & _ & _ & _ & _ &
                        [(_ & _ & Ha) | [(_ & _ & _ & Ha) | (_ & _ & _ & Ha)]])];
    try (eexists; exact Ha).
  apply (queue_grows_same st st'); congruence.
Qed.

Lemma set_header_grows (d : msg_Data) (t n p r : Z) (st st' : State) :
  set_header d t n p r st = Ret st' -> queue_grows st st'.
Proof. unfold set_header. apply store_bytes_grows. Qed.

Lemma msg_send_grows (c : Z) (d : msg_Data) (st st' : State) :
  msg_send c d st = Ret st' -> queue_grows st st'.
Proof.
  unfold msg_send. intros H. obind_inv H as st1 Hstep. obind_inv H as cn Hcn.
  apply set_header_grows in Hstep.
  eapply queue_grows_trans; [exact Hstep |].
  destruct (_ && _); obind_inv H as frame Hframe; inversion H; subst;
    by apply queue_grows_same.
Qed.

Lemma msg_disconnect_grows (c : Z) (st st' : State) :
  msg_disconnect c st = Ret st' -> queue_grows st st'.
Proof.
  unfold msg_disconnect, msg_new_data_space, malloc_bytes, malloc. intros H.
  obind_inv H as st1 Hstep. obind_inv H as cn Hcn. obind_inv H as frame Hframe.
  inversion H; subst.
  apply set_header_grows in Hstep.
  eapply queue_grows_trans; [| eapply queue_grows_trans; [exact Hstep |]];
    by apply queue_grows_same.
Qed.

Lemma msg_delete_data_grows (d : msg_Data) (st st' : State) :
  msg_delete_data d st = Ret st' -> queue_grows st st'.
Proof.
  unfold msg_delete_data. intros H.
  destruct (bytes d) as [| b o]; try discriminate.
  destruct (heap st !! b) as [[|]|]; try discriminate.
  by apply free_grows in H.
Qed.

Lemma api_step_grows (st st' : State) :
  api_step st st' -> init_done st = true -> queue_grows st st'.
Proof.
  intros Hstep Hi. destruct Hstep.
  - by eapply open_socket_grows.
  - by eapply open_socket_grows.
  - apply queue_grows_refl.
  - by eapply msg_disconnect_grows.
  - by eapply msg_send_grows.
  - apply queue_grows_refl.
  - rewrite msg_new_data_ret in H. inversion H; subst. by apply queue_grows_same.
  - by apply queue_grows_same.
  - by eapply msg_delete_data_grows.
  - by eapply store_bytes_grows.
Qed.


(** ** The dispatch phase *)











(** * Further properties *)

(** ** Peer keys *)

Lemma store16_inj (x y : Z) :
  is_uint16 x -> is_uint16 y -> store16 x = store16 y -> x = y.
Proof.
  unfold is_uint16, store16. intros Hx Hy H.
  pose proof (Z.div_mod x 256 ltac:(lia)) as Ex.
  pose proof (Z.div_mod y 256 ltac:(lia)) as Ey.
  destruct host_little_endian; injection H as H0 H1; rewrite Ex, Ey; congruence.
Qed.

Lemma store32_inj (x y : Z) :
  0 <= x < 4294967296 -> 0 <= y < 4294967296 -> store32 x = store32 y -> x = y.
Proof.
  unfold store32. intros Hx Hy H.
  assert (Hrec : forall z, 0 <= z < 4294967296 ->
            z = z mod 256 + 256 * (z / 256 mod 256) + 65536 * (z / 65536 mod 256)
                + 16777216 * (z / 16777216)).
  { intros z Hz. Z.div_mod_to_equations. lia. }
  rewrite (Hrec x Hx), (Hrec y Hy).
  destruct host_little_endian; injection H as H0 H1 H2 H3; congruence.
Qed.

(** X1. [address_eq] compares the keys [remote_address_seen] builds
    byte for byte, and two such keys have the same eight bytes exactly
    when their ip, port and protocol type are the same. *)
Theorem address_eq_same_fields (cn1 cn2 : msg_Conn) (sa1 sa2 : sockaddr_in) :
  address_eq (address_of cn1 sa1) (address_of cn2 sa2) = true <->
  address_of cn1 sa1 = address_of cn2 sa2.
Proof.
  unfold address_eq. rewrite bool_decide_eq_true. split; [| by intros ->].
  unfold address_bytes, address_of. cbn [ip port address_protocol_type].
  intros H.
  assert (H32 : forall z, 0 <= uint32 z < 4294967296)
    by (intros z; unfold uint32; apply Z.mod_pos_bound; lia).
  assert (H16 : forall z, is_uint16 (uint16 z))
    by (intros z; unfold is_uint16, uint16; apply Z.mod_pos_bound; lia).
  assert (Hl32 : forall z, length (store32 z) = 4%nat)
    by (intros z; unfold store32; by destruct host_little_endian).
  assert (Hl16 : forall z, length (store16 z) = 2%nat)
    by (intros z; unfold store16; by destruct host_little_endian).
  apply app_inj_1 in H as [Hip H]; [| by rewrite !Hl32].
  apply app_inj_1 in H as [Hport Hproto]; [| by rewrite !Hl16].
  apply store32_inj in Hip; [| done ..].
  apply store16_inj in Hport; [| done ..].
  apply store16_inj in Hproto; [| done ..].
  by rewrite Hip, Hport, Hproto.
Qed.

(** ** Message data *)

Lemma bytes_to_cstring_string_bytes (s : string) (rest : list Z) :
  no_nul s -> bytes_to_cstring (string_bytes s ++ 0 :: rest) = Some s.
Proof.
  unfold string_bytes. induction s as [| a s IH]; intros Hs; simpl; [done |].
  destruct Hs as [Ha Hs].
  destruct (Z.of_nat (nat_of_ascii a) =? 0) eqn:E.
  - exfalso. apply Ha. rewrite <- (ascii_nat_embedding a).
    replace (nat_of_ascii a) with 0%nat by lia. done.
  - rewrite Nat2Z.id, ascii_nat_embedding, IH by done. done.
Qed.

(** A block holding the text of a string reads back as the string. *)
Lemma msg_as_str_text_block (b : Z) (str : string) (st : State) :
  heap st !! b = Some (OBytes (text_block str)) ->
  no_nul str ->
  msg_as_str (text_data b str) st = Ret str.
Proof.
  intros Hb Hs. unfold msg_as_str, text_data. cbn [bytes]. rewrite Hb.
  assert (Hl : length (text_block str) = Z.to_nat (strlen str + 1 + header_len)).
  { unfold text_block. rewrite length_overwrite.
    - by rewrite length_replicate.
    - unfold header_len; lia.
    - rewrite length_replicate, length_app, length_string_bytes.
      unfold strlen, header_len. simpl length. lia. }
  destruct (_ && _) eqn:E.
  2: { exfalso. rewrite Hl in E. unfold header_len, strlen in E.
       apply andb_false_iff in E as [E | E]; [done |].
       apply Z.leb_gt in E. lia. }
  unfold text_block, overwrite.
  rewrite drop_app_length'
    by (rewrite length_take, length_replicate; unfold header_len, strlen; lia).
  rewrite <- app_assoc. simpl app.
  by rewrite bytes_to_cstring_string_bytes.
Qed.

(** X2. [msg_new_data] and [msg_as_str] are inverse to each other: the
    data made from a C string reads back as that string, its length is
    the string's length plus one for the NUL, and its block is new. *)
Theorem msg_new_data_reads_back (str : string) (st : State) :
  no_nul str ->
  exists d st' b,
    msg_new_data str st = Ret (d, st') /\
    bytes d = Ptr b header_len /\ heap st !! b = None /\
    num_bytes d = strlen str + 1 /\
    msg_as_str d st' = Ret str /\
    msg_error_str d st' = Ret str.
Proof.
  intros Hs. rewrite msg_new_data_ret.
  eexists _, _, _. split; [reflexivity |].
  split; [reflexivity |]. split; [apply fresh_block_unused |].
  split; [reflexivity |].
  assert (H : msg_as_str (text_data (fresh (dom (heap st))) str)
                (set_heap (<[fresh (dom (heap st)) := OBytes (text_block str)]> (heap st)) st)
              = Ret str).
  { apply msg_as_str_text_block; [| done]. state_simpl. apply lookup_insert_eq. }
  split; [exact H | exact H].
Qed.

(** X3. [msg_delete_data] undoes [msg_new_data_space]: the state is what
    it was before the buffer was made. Deleting the same data a second
    time has no defined result. *)
Theorem msg_delete_data_undoes_new (n : Z) (st : State) :
  let r := msg_new_data_space n st in
  msg_delete_data r.1 r.2 = Ret st /\
  (forall st', msg_delete_data r.1 r.2 = Ret st' ->
               msg_delete_data r.1 st' = Undefined).
Proof.
  unfold msg_new_data_space, malloc_bytes, malloc. cbn [fst snd].
  assert (H : msg_delete_data
                {| num_bytes := n; bytes := ptr_add (Ptr (fresh (dom (heap st))) 0) header_len |}
                (set_heap
                   (<[fresh (dom (heap st)) :=
                        OBytes (replicate (Z.to_nat (n + header_len)) 0)]> (heap st)) st)
              = Ret st).
  { unfold msg_delete_data, free. cbn [bytes ptr_add]. state_simpl.
    rewrite lookup_insert_eq.
    replace (0 + header_len - header_len =? 0) with true by (unfold header_len; lia).
    cbn [negb]. f_equal.
    rewrite delete_insert_eq, delete_id by apply fresh_block_unused.
    by destruct st. }
  split; [exact H |].
  intros st' H'. rewrite H in H'. inversion H'; subst st'.
  unfold msg_delete_data. cbn [bytes ptr_add].
  by rewrite fresh_block_unused.
Qed.

(** ** Parsing an address *)

Lemma append_cons (a : ascii) (p s : string) :
  String a p +:+ s = String a (p +:+ s).
Proof. reflexivity. Qed.

Lemma append_nil (s : string) : EmptyString +:+ s = s.
Proof. reflexivity. Qed.

Lemma prefix_append (p s : string) : String.prefix p (p +:+ s) = true.
Proof.
  induction p as [| a p IH]; rewrite ?append_cons, ?append_nil; simpl;
    [by destruct s |].
  by destruct (ascii_dec a a).
Qed.

Lemma prefix_split (p : string) :
  forall s, String.prefix p s = true -> s = p +:+ string_drop (String.length p) s.
Proof.
  induction p as [| a p IH]; intros s H; simpl; [by destruct s |].
  destruct s as [| b s]; simpl in H; [done |].
  destruct (ascii_dec a b) as [-> |]; [| done].
  rewrite append_cons. f_equal. by apply IH.
Qed.

Lemma string_drop_append (p s : string) :
  string_drop (String.length p) (p +:+ s) = s.
Proof.
  induction p as [| a p IH]; rewrite ?append_cons, ?append_nil; simpl;
    [by destruct s | done].
Qed.

Lemma strchr_append (ip rest : string) (ch : ascii) :
  strchr ip ch = None ->
  strchr (ip +:+ String ch rest) ch = Some (String.length ip).
Proof.
  induction ip as [| a ip IH]; rewrite ?append_cons, ?append_nil; simpl; intros H.
  - by destruct (decide (ch = ch)).
  - destruct (decide (a = ch)); [done |].
    destruct (strchr ip ch); [done |]. by rewrite IH.
Qed.

Lemma strchr_split (ch : ascii) (s : string) :
  forall n, strchr s ch = Some n ->
    exists ip rest,
      s = ip +:+ String ch rest /\ strchr ip ch = None /\ String.length ip = n.
Proof.
  induction s as [| a s IH]; simpl; intros n H; [done |].
  destruct (decide (a = ch)) as [-> | Hne].
  - inversion H; subst. by exists EmptyString, s.
  - destruct (strchr s ch) as [m|] eqn:E; [| done].
    inversion H; subst.
    destruct (IH m eq_refl) as (ip & rest & -> & Hip & Hlen).
    exists (String a ip), rest. rewrite append_cons. simpl.
    destruct (decide (a = ch)); [done |]. by rewrite Hip, Hlen.
Qed.

Lemma substring_append (ip rest : string) :
  String.substring 0 (String.length ip) (ip +:+ rest) = ip.
Proof.
  induction ip as [| a ip IH]; rewrite ?append_cons, ?append_nil; simpl;
    [by destruct rest | by rewrite IH].
Qed.

Lemma string_drop_past (ip rest : string) (ch : ascii) :
  string_drop (S (String.length ip)) (ip +:+ String ch rest) = rest.
Proof.
  induction ip as [| a ip IH]; rewrite ?append_cons, ?append_nil; simpl;
    [done | exact IH].
Qed.

(** What [parse_address_str] does once the prefix is read. *)
Lemma parse_after_prefix (proto ip_start : string) (cn : msg_Conn) :
  proto = "tcp://" \/ proto = "udp://" ->
  parse_address_str (proto +:+ ip_start) cn
  = let address := proto +:+ ip_start in
    let cn := with_protocol_type
                (if decide (proto = "tcp://") then SOCK_STREAM else SOCK_DGRAM) cn in
    match strchr ip_start ":" with
    | None =>
        (Some (snprintf_1024
                 ("Can't parse address '" +:+ address +:+ "'; missing colon after ip")),
         cn)
    | Some ip_len =>
        if ((15 <? ip_len)%nat || (ip_len <? 1)%nat) then
          (Some (snprintf_1024
                   ("Failing because ip length=" +:+ pretty ip_len +:+
                    "; expected to be 1-15 (in addresss '" +:+ address +:+ "')")),
           cn)
        else
          let ip_str := String.substring 0 ip_len ip_start in
          match parse_ip ip_str with
          | None =>
              (Some (snprintf_1024 ("Couldn't parse ip string '" +:+ ip_str +:+ "'.")),
               cn)
          | Some s_addr =>
              let cn := with_remote_ip s_addr cn in
              let port_str := string_drop (S ip_len) ip_start in
              if decide (port_str = "") then
                (Some (snprintf_1024
                         ("Empty port string in address '" +:+ address +:+ "'")),
                 cn)
              else
                let cn := with_remote_port (int32 (strtol port_str).1) cn in
                if decide ((strtol port_str).2 = "") then (None, cn)
                else
                  (Some (snprintf_1024
                           ("Invalid port string in address '" +:+ address +:+ "'")),
                   cn)
          end
    end.
Proof.
  intros [-> | ->]; unfold parse_address_str, parse_ip; cbv zeta;
    change (String.prefix "tcp://" ("tcp://" +:+ ip_start))
      with (String.prefix "tcp://" ("tcp://" +:+ ip_start));
    rewrite ?prefix_append.
  - change (string_drop 6 ("tcp://" +:+ ip_start)) with ip_start.
    destruct (decide ("tcp://" = "tcp://")); [| done].
    destruct (strchr ip_start ":"); [| done].
    destruct (_ || _); [done |].
    destruct (if decide _ then _ else _); [| done].
    destruct (decide _); [done |].
    by destruct (strtol _).
  - change (String.prefix "tcp://" ("udp://" +:+ ip_start)) with false.
    cbv iota.
    change (string_drop 6 ("udp://" +:+ ip_start)) with ip_start.
    destruct (decide ("udp://" = "tcp://")); [done |].
    destruct (strchr ip_start ":"); [| done].
    destruct (_ || _); [done |].
    destruct (if decide _ then _ else _); [| done].
    destruct (decide _); [done |].
    by destruct (strtol _).
Qed.

(** The shape of every address [parse_address_str] accepts. *)
Lemma parse_address_str_accepted (address : string) (cn cn' : msg_Conn) :
  parse_address_str address cn = (None, cn') ->
  exists proto ip_str port_str s_addr,
    address = proto +:+ ip_str +:+ String ":" port_str /\
    (proto = "tcp://" \/ proto = "udp://") /\
    strchr ip_str ":" = None /\
    (1 <= String.length ip_str <= 15)%nat /\
    parse_ip ip_str = Some s_addr /\
    port_str <> "" /\
    (strtol port_str).2 = "" /\
    cn' = with_remote_port (int32 (strtol port_str).1)
            (with_remote_ip s_addr
               (with_protocol_type
                  (if decide (proto = "tcp://") then SOCK_STREAM else SOCK_DGRAM) cn)).
Proof.
  intros H.
  assert (Hp : exists proto ip_start,
             address = proto +:+ ip_start /\ (proto = "tcp://" \/ proto = "udp://")).
  { unfold parse_address_str in H. cbv zeta in H.
    destruct (String.prefix "tcp://" address) eqn:Et.
    { apply prefix_split in Et. eauto. }
    destruct (String.prefix "udp://" address) eqn:Eu.
    { apply prefix_split in Eu. eauto. }
    discriminate H. }
  destruct Hp as (proto & ip_start & -> & Hproto).
  rewrite parse_after_prefix in H by done. cbv zeta in H.
  destruct (strchr ip_start ":") as [ip_len|] eqn:Ec; [| discriminate H].
  destruct (strchr_split _ _ _ Ec) as (ip_str & port_str & -> & Hnc & Hlen).
  destruct ((15 <? ip_len)%nat || (ip_len <? 1)%nat) eqn:El; [discriminate H |].
  rewrite <- Hlen, substring_append, string_drop_past in H.
  destruct (parse_ip ip_str) as [s_addr|] eqn:Ei; [| discriminate H].
  destruct (decide (port_str = "")) as [| Hport]; [discriminate H |].
  destruct (decide ((strtol port_str).2 = "")) as [Hend |]; [| discriminate H].
  inversion H; subst cn'.
  exists proto, ip_str, port_str, s_addr.
  apply orb_false_iff in El as [E1 E2].
  apply Nat.ltb_ge in E1. apply Nat.ltb_ge in E2.
  repeat split; try done; lia.
Qed.

(** Every address of that shape is accepted. *)
Lemma parse_address_str_accepts (proto ip_str port_str : string) (s_addr : Z)
    (cn : msg_Conn) :
  proto = "tcp://" \/ proto = "udp://" ->
  strchr ip_str ":" = None ->
  (1 <= String.length ip_str <= 15)%nat ->
  parse_ip ip_str = Some s_addr ->
  port_str <> "" ->
  (strtol port_str).2 = "" ->
  parse_address_str (proto +:+ ip_str +:+ String ":" port_str) cn
  = (None,
     with_remote_port (int32 (strtol port_str).1)
       (with_remote_ip s_addr
          (with_protocol_type
             (if decide (proto = "tcp://") then SOCK_STREAM else SOCK_DGRAM) cn))).
Proof.
  intros Hproto Hnc Hlen Hi Hport Hend.
  rewrite parse_after_prefix by done. cbv zeta.
  rewrite (strchr_append _ _ _ Hnc).
  destruct ((15 <? String.length ip_str)%nat || (String.length ip_str <? 1)%nat) eqn:El.
  { apply orb_true_iff in El as [E | E]; apply Nat.ltb_lt in E; lia. }
  rewrite substring_append, string_drop_past, Hi.
  destruct (decide (port_str = "")); [done |].
  by destruct (decide ((strtol port_str).2 = "")).
Qed.

(** X5. [parse_address_str] accepts exactly the strings made of the
    prefix [tcp://] or [udp://], an ip part of 1 to 15 characters
    without a colon that is [*] or that [inet_aton] accepts, a colon,
    and a non-empty port part that [strtol] reads to its end; it then
    sets the protocol type from the prefix, the ip, and the port as
    [strtol] returns it, narrowed to [int], with no check of its range. *)
Theorem parse_address_str_accepts_exactly (address : string) (cn cn' : msg_Conn) :
  parse_address_str address cn = (None, cn') <->
  exists proto ip_str port_str s_addr,
    address = proto +:+ ip_str +:+ String ":" port_str /\
    (proto = "tcp://" \/ proto = "udp://") /\
    strchr ip_str ":" = None /\
    (1 <= String.length ip_str <= 15)%nat /\
    parse_ip ip_str = Some s_addr /\
    port_str <> "" /\
    (strtol port_str).2 = "" /\
    cn' = with_remote_port (int32 (strtol port_str).1)
            (with_remote_ip s_addr
               (with_protocol_type
                  (if decide (proto = "tcp://") then SOCK_STREAM else SOCK_DGRAM) cn)).
Proof.
  split; [apply parse_address_str_accepted |].
  intros (proto & ip_str & port_str & s_addr & -> & Hproto & Hnc & Hlen & Hi & Hport
          & Hend & ->).
  by apply parse_address_str_accepts.
Qed.

Lemma digit_not_space_or_sign (a : ascii) :
  is_Some (digit_of a) ->
  isspace a = false /\ a <> "-"%char /\ a <> "+"%char.
Proof.
  intros [d Hd]. unfold digit_of in Hd. unfold isspace.
  destruct (_ && _) eqn:E; [| done].
  apply andb_true_iff in E as [E1 E2].
  apply Nat.leb_le in E1. apply Nat.leb_le in E2.
  split.
  - apply orb_false_iff. split; [apply Nat.eqb_neq; lia |].
    apply andb_false_iff. right. apply Nat.leb_gt. lia.
  - split; intros ->; vm_compute in E1; lia.
Qed.

Lemma digits_all_digits (s : string) :
  forall acc,
    all_digits s ->
    digits acc s
    = (fold_left (fun acc a => acc * 10 + (Z.of_nat (nat_of_ascii a) - 48))
         (String.list_ascii_of_string s) acc, EmptyString).
Proof.
  induction s as [| a s IH]; intros acc Hs; simpl; [done |].
  destruct Hs as [[d Hd] Hs]. rewrite Hd.
  rewrite IH by done. f_equal. f_equal.
  unfold digit_of in Hd. destruct (_ && _); inversion Hd. done.
Qed.


Lemma fold_digits_nonneg (l : list ascii) :
  forall acc,
    0 <= acc ->
    Forall (fun a => is_Some (digit_of a)) l ->
    0 <= fold_left (fun acc a => acc * 10 + (Z.of_nat (nat_of_ascii a) - 48)) l acc.
Proof.
  induction l as [| a l IH]; intros acc Hacc Hl; simpl; [done |].
  inversion Hl as [| ? ? [d Hd] Hl']; subst.
  apply IH; [| done].
  unfold digit_of in Hd. destruct (_ && _) eqn:E; [| done].
  apply andb_true_iff in E as [E1 _]. apply Nat.leb_le in E1. lia.
Qed.

Lemma all_digits_Forall (s : string) :
  all_digits s -> Forall (fun a => is_Some (digit_of a)) (String.list_ascii_of_string s).
Proof.
  induction s as [| a s IH]; simpl; [constructor |].
  intros [Ha Hs]. constructor; [done | by apply IH].
Qed.

Lemma sign_match (a : ascii) (r : string) :
  a <> "-"%char -> a <> "+"%char ->
  match String a r with
  | String "-"%char r' => (true, r')
  | String "+"%char r' => (false, r')
  | _ => (false, String a r)
  end = (false, String a r).
Proof.
  intros Hm Hp.
  destruct a as [[] [] [] [] [] [] [] []]; try reflexivity; congruence.
Qed.

(** [strtol] on a non-empty string of digits. *)
Lemma strtol_all_digits (port_str : string) :
  port_str <> "" -> all_digits port_str ->
  strtol port_str = (Z.min LONG_MAX (decimal port_str), EmptyString).
Proof.
  intros Hne Hd. destruct port_str as [| a r]; [done |].
  destruct (digit_not_space_or_sign a) as (Hs & Hm & Hp); [by destruct Hd |].
  unfold strtol. cbn [skip_spaces]. rewrite Hs.
  rewrite (sign_match a r Hm Hp).
  destruct Hd as [[d Ha] Hr]. rewrite Ha.
  rewrite digits_all_digits by (split; eauto).
  fold (decimal (String a r)).
  pose proof (fold_digits_nonneg _ 0 (Z.le_refl 0)
                (all_digits_Forall (String a r) (conj (ex_intro _ d Ha) Hr))) as Hnn.
  fold (decimal (String a r)) in Hnn.
  f_equal. unfold LONG_MIN, LONG_MAX in *. lia.
Qed.

(** X6. For an address whose port part is a non-empty string of decimal
    digits, the port stored is the number the digits write, capped at
    LONG_MAX and narrowed to [int]: ports above 65535 are accepted. The
    fields other than protocol type, ip and port are left as they were. *)
Theorem parse_address_str_decimal_port (proto ip_str port_str : string) (s_addr : Z)
    (cn : msg_Conn) :
  proto = "tcp://" \/ proto = "udp://" ->
  strchr ip_str ":" = None ->
  (1 <= String.length ip_str <= 15)%nat ->
  parse_ip ip_str = Some s_addr ->
  port_str <> "" -> all_digits port_str ->
  exists cn',
    parse_address_str (proto +:+ ip_str +:+ String ":" port_str) cn = (None, cn') /\
    protocol_type cn' = (if decide (proto = "tcp://") then SOCK_STREAM else SOCK_DGRAM) /\
    remote_ip cn' = s_addr /\
    remote_port cn' = int32 (Z.min LONG_MAX (decimal port_str)) /\
    conn_context cn' = conn_context cn /\ callback cn' = callback cn /\
    for_listening cn' = for_listening cn /\ socket cn' = socket cn /\
    reply_id cn' = reply_id cn.
Proof.
  intros Hproto Hnc Hlen Hi Hne Hd.
  pose proof (strtol_all_digits port_str Hne Hd) as Hs.
  eexists. split.
  - apply (parse_address_str_accepts _ _ _ s_addr); try done. by rewrite Hs.
  - rewrite Hs. by repeat split.
Qed.

Lemma length_snprintf_1024 (s : string) :
  (String.length (snprintf_1024 s) <= 1023)%nat.
Proof.
  unfold snprintf_1024. generalize 1023%nat as n.
  induction s as [| a s IH]; intros n; destruct n; simpl; try lia.
  specialize (IH n). lia.
Qed.

(** X7. [parse_address_str] writes no field of the connection other
    than protocol type, remote ip and remote port. For an address that
    starts with neither [tcp://] nor [udp://] it writes nothing and
    reports the unrecognised prefix. Every error text it returns is at
    most 1023 characters long. *)
Theorem parse_address_str_frame (address : string) (cn : msg_Conn) :
  let r := parse_address_str address cn in
  (conn_context r.2 = conn_context cn /\ callback r.2 = callback cn /\
   for_listening r.2 = for_listening cn /\ socket r.2 = socket cn /\
   reply_id r.2 = reply_id cn) /\
  (String.prefix "tcp://" address = false ->
   String.prefix "udp://" address = false ->
   r = (Some (snprintf_1024 ("Failing due to unrecognized prefix: " +:+ address)), cn)) /\
  (forall err_msg, r.1 = Some err_msg -> (String.length err_msg <= 1023)%nat).
Proof.
  cbv zeta. split; [| split].
  - unfold parse_address_str.
    repeat match goal with
           | |- context [if ?b then _ else _] => destruct b
           | |- context [match ?x with _ => _ end] => destruct x
           end; by repeat split.
  - intros Ht Hu. unfold parse_address_str. by rewrite Ht, Hu.
  - intros err_msg. unfold parse_address_str.
    repeat match goal with
           | |- context [if ?b then _ else _] => destruct b
           | |- context [match ?x with _ => _ end] => destruct x
           end; cbn [fst]; intros H; inversion H; subst;
      apply length_snprintf_1024.
Qed.

(** ** Receiving a frame *)

Lemma slice_overwrite_prefix (n : Z) (bs content : list Z) :
  0 <= n <= Z.of_nat (length bs) ->
  (length bs <= length content)%nat ->
  slice n (Z.of_nat (length bs) - n) (overwrite 0 bs content) = drop (Z.to_nat n) bs.
Proof.
  intros Hn Hlen. unfold slice, overwrite. simpl.
  rewrite drop_app_le by lia.
  rewrite take_app_length'; [done |].
  rewrite length_drop. lia.
Qed.

(** What [read_from_socket] does with a frame it can read. *)
Lemma read_from_socket_frame (sock c : Z) (ro : read_oracle) (st : State)
    (q : list PendingCall) (cn : msg_Conn) (bs : list Z) (header : Header)
    (ev : msg_Event) (dgram : list Z) (from : sockaddr_in) :
  arrays st !! immediate_callbacks st = Some q ->
  heap st !! c = Some (OConn cn) ->
  on_recv ro = recv_bytes bs ->
  decode_header (take (Z.to_nat header_len) bs) = Some header ->
  classify (message_type header) = Ret (Some ev) ->
  num_packets header = 1 ->
  on_recvfrom ro = recvfrom_dgram dgram from ->
  (8 <= length dgram)%nat ->
  let received := take (Z.to_nat recv_buffer_len) dgram in
  let cn' := with_remote_port (ntohs (sin_port from))
               (with_remote_ip (sin_addr from)
                  (with_reply_id (header_reply_id header) cn)) in
  let key := address_of cn' from in
  exists st' b,
    read_from_socket sock c ro st = Ret st' /\
    heap st !! b = None /\
    let d := {| num_bytes := Z.of_nat (length received) - header_len;
                bytes := Ptr b header_len |} in
    load_bytes (bytes d) (num_bytes d) st' = Ret (drop 8 received) /\
    heap st' !! c = Some (OConn cn') /\
    queue st' =
      q ++ match conn_status st !! key with
           | Some _ => []
           | None => [pending c msg_connection_ready msg_no_data NULL]
           end ++ [pending c ev d NULL] /\
    conn_status st' =
      match conn_status st !! key with
      | Some _ => conn_status st
      | None => <[key := {| last_seen_at := 0 |}]> (conn_status st)
      end /\
    conns st' = conns st /\ poll_fds st' = poll_fds st.
Proof.
  intros Hq Hc Hr Hd Hcl Hn Hrf Hlen received cn' key.
  unfold read_from_socket.
  erewrite read_header_ok by eassumption. state_simpl.
  rewrite Hcl, Hn. cbn [obind]. simpl (1 =? 1).
  unfold malloc_bytes, malloc. state_simpl. rewrite Hrf.
  set (h1 := <[c := OConn (with_reply_id (header_reply_id header) cn)]> (heap st)).
  assert (Hne : fresh (dom h1) <> c).
  { apply fresh_block_ne. unfold h1. rewrite lookup_insert_eq. eauto. }
  assert (Hb : heap st !! fresh (dom h1) = None).
  { destruct (heap st !! fresh (dom h1)) eqn:E; [| done].
    exfalso.
    assert (Hf : <[c := OConn (with_reply_id (header_reply_id header) cn)]> (heap st)
                 !! fresh (dom h1) = None) by apply (fresh_block_unused h1).
    rewrite lookup_insert_ne in Hf by done. congruence. }
  set (b := fresh (dom h1)) in *.
  fold received.
  assert (Hrl : 8 <= Z.of_nat (length received) <= 32768).
  { unfold received. rewrite length_take. unfold recv_buffer_len. lia. }
  remember (replicate (Z.to_nat recv_buffer_len) 0) as zeros eqn:Hz.
  assert (Hzl : Z.of_nat (length zeros) = 32768)
    by (rewrite Hz, length_replicate; unfold recv_buffer_len; lia).
  clear Hz.
  erewrite store_bytes_live;
    [| state_simpl; apply lookup_insert_eq | done | rewrite Hzl; lia].
  state_simpl. rewrite insert_insert_eq.
  erewrite load_conn_live
    by (state_simpl; rewrite lookup_insert_ne by done; apply lookup_insert_eq).
  cbn [obind].
  erewrite store_conn_live
    by (state_simpl; rewrite lookup_insert_ne by done; apply lookup_insert_eq).
  state_simpl. unfold remote_address_seen. conn_step.
  fold cn'. fold key. unfold CMapFind.
  assert (Hsz : size_t (Z.of_nat (length received) - header_len)
                = Z.of_nat (length received) - header_len).
  { unfold size_t, header_len. apply Z.mod_small. lia. }
  rewrite Hsz. cbn [ptr_add]. replace (0 + header_len) with header_len by lia.
  assert (Hload : forall st',
             heap st' !! b = Some (OBytes (overwrite 0 received zeros)) ->
             load_bytes (Ptr b header_len) (Z.of_nat (length received) - header_len) st'
             = Ret (drop 8 received)).
  { intros st' Hst'. erewrite load_bytes_live; [| exact Hst' | unfold header_len; lia ..|].
    - f_equal. apply slice_overwrite_prefix; unfold header_len; lia.
    - rewrite length_overwrite; unfold header_len; lia. }
  destruct (conn_status st !! key) as [status|] eqn:Ek; cbn [obind].
  - eexists _, b. split; [reflexivity |]. split; [done |]. cbv zeta. cbn [bytes num_bytes].
    split.
    { apply Hload. unfold send_callback. state_simpl.
      rewrite lookup_insert_ne by done. apply lookup_insert_eq. }
    split; [unfold send_callback; state_simpl; apply lookup_insert_eq |].
    split; [by apply queue_send_callback |]. done.
  - eexists _, b. split; [reflexivity |]. split; [done |]. cbv zeta. cbn [bytes num_bytes].
    split.
    { apply Hload. unfold send_callback. state_simpl.
      rewrite lookup_insert_ne by done. apply lookup_insert_eq. }
    split; [unfold send_callback; state_simpl; apply lookup_insert_eq |].
    split.
    { rewrite (queue_send_callback _ _ _ _ _ (q ++ [pending c msg_connection_ready msg_no_data NULL])).
      - by rewrite <- app_assoc.
      - unfold send_callback. state_simpl. by rewrite lookup_alter_eq, Hq. }
    done.
Qed.

(** X8. A single-packet frame of a handled type, read on a live
    connection, is delivered as one pending call of the matching event
    kind whose data is the datagram without its eight header bytes, in a
    buffer that is new. The connection takes the sender's ip and port
    and the header's reply id. A connection-ready call is enqueued in
    front of it exactly when the sender's key was not in the registry.
    Nothing is registered or unregistered. *)
Theorem read_from_socket_delivers (sock c : Z) (ro : read_oracle) (st : State)
    (q : list PendingCall) (cn : msg_Conn) (bs : list Z) (header : Header)
    (ev : msg_Event) (dgram : list Z) (from : sockaddr_in) :
  arrays st !! immediate_callbacks st = Some q ->
  heap st !! c = Some (OConn cn) ->
  on_recv ro = recv_bytes bs ->
  decode_header (take (Z.to_nat header_len) bs) = Some header ->
  classify (message_type header) = Ret (Some ev) ->
  num_packets header = 1 ->
  on_recvfrom ro = recvfrom_dgram dgram from ->
  (8 <= length dgram)%nat ->
  let received := take (Z.to_nat recv_buffer_len) dgram in
  let cn' := with_remote_port (ntohs (sin_port from))
               (with_remote_ip (sin_addr from)
                  (with_reply_id (header_reply_id header) cn)) in
  let key := address_of cn' from in
  exists st' b,
    read_from_socket sock c ro st = Ret st' /\
    heap st !! b = None /\
    let d := {| num_bytes := Z.of_nat (length received) - header_len;
                bytes := Ptr b header_len |} in
    load_bytes (bytes d) (num_bytes d) st' = Ret (drop 8 received) /\
    heap st' !! c = Some (OConn cn') /\
    queue st' =
      q ++ match conn_status st !! key with
           | Some _ => []
           | None => [pending c msg_connection_ready msg_no_data NULL]
           end ++ [pending c ev d NULL] /\
    conn_status st' =
      match conn_status st !! key with
      | Some _ => conn_status st
      | None => <[key := {| last_seen_at := 0 |}]> (conn_status st)
      end /\
    conns st' = conns st /\ poll_fds st' = poll_fds st.
Proof.
  intros Hq Hc Hr Hd Hcl Hn Hrf Hlen.
  by apply (read_from_socket_frame sock c ro st q cn bs header ev dgram from).
Qed.

(** ** Sending, continued *)

(** The state [msg_send] leaves. *)
Lemma msg_send_effect (c : Z) (d : msg_Data) (st : State) (cn : msg_Conn)
    (b off : Z) (content : list Z) :
  heap st !! c = Some (OConn cn) ->
  bytes d = Ptr b off ->
  heap st !! b = Some (OBytes content) ->
  header_len <= off -> 0 <= num_bytes d ->
  off + num_bytes d <= Z.of_nat (length content) ->
  let header := header_bytes one_way 1 0 0 in
  let frame := header ++ slice off (num_bytes d) content in
  msg_send c d st
  = Ret (syscall
           (if (protocol_type cn =? msg_udp) && negb (for_listening cn =? 0)
            then SysSendto (socket cn) frame 0 (set_sockaddr_for_conn cn)
            else SysSend (socket cn) frame 0)
           (set_heap
              (<[b := OBytes (overwrite (off - header_len) header content)]> (heap st)) st)).
Proof.
  intros Hc Hd Hb Hoff Hn Hlen header frame.
  assert (H16 : forall x, 0 <= x < 2 -> is_uint16 x) by (unfold is_uint16; lia).
  assert (Hhl : Z.of_nat (length header) = header_len).
  { unfold header. rewrite header_bytes_network_order by (apply H16; unfold one_way; lia).
    done. }
  assert (Hne : b <> c) by congruence.
  destruct (set_header_effect d b off content one_way 1 0 0 st)
    as (Hset & _ & _); try done; try (apply H16; unfold one_way; lia).
  fold header in Hset.
  unfold msg_send. rewrite Hset. cbn [obind].
  erewrite load_conn_live
    by (state_simpl; rewrite lookup_insert_ne by done; exact Hc).
  cbn [obind].
  assert (Hframe :
    frame_of d
      (set_heap (<[b := OBytes (overwrite (off - header_len) header content)]> (heap st)) st)
    = Ret frame).
  { unfold frame_of. rewrite Hd. simpl ptr_add.
    replace (off + - header_len) with (off - header_len) by lia.
    erewrite load_bytes_live;
      [| state_simpl; apply lookup_insert_eq | unfold header_len in *; lia ..|].
    - f_equal. rewrite <- Hhl at 2. rewrite slice_overwrite_frame by lia.
      unfold frame. f_equal. f_equal. lia.
    - rewrite length_overwrite; lia. }
  rewrite Hframe.
  by destruct ((protocol_type cn =? msg_udp) && negb (for_listening cn =? 0)).
Qed.

Lemma length_slice (o n : Z) (content : list Z) :
  0 <= o -> 0 <= n -> o + n <= Z.of_nat (length content) ->
  Z.of_nat (length (slice o n content)) = n.
Proof.
  intros Ho Hn Hlen. unfold slice. rewrite length_take, length_drop. lia.
Qed.

(** X10. [msg_disconnect] sends one frame, through [send]: the eight
    header bytes of a close message (type close, 1 packet, packet 0,
    reply id 0) and no payload. It leaves the connection registered,
    enqueues nothing, and frees neither the connection nor the buffer it
    allocated for the frame. *)
Theorem msg_disconnect_sends_close (c : Z) (cn : msg_Conn) (st : State) :
  heap st !! c = Some (OConn cn) ->
  exists st' b,
    msg_disconnect c st = Ret st' /\
    syscalls st' = syscalls st ++ [SysSend (socket cn) [0; 4; 0; 1; 0; 0; 0; 0] 0] /\
    conns st' = conns st /\ poll_fds st' = poll_fds st /\
    queue st' = queue st /\ conn_status st' = conn_status st /\
    heap st' !! c = Some (OConn cn) /\
    heap st !! b = None /\ is_Some (heap st' !! b).
Proof.
  intros Hc. unfold msg_disconnect, msg_new_data_space, malloc_bytes, malloc.
  cbn [fst snd]. set (b := fresh (dom (heap st))).
  assert (Hne : b <> c) by (apply fresh_block_ne; eauto).
  assert (H16 : forall x, 0 <= x < 5 -> is_uint16 x) by (unfold is_uint16; lia).
  assert (Hhb : header_bytes close 1 0 0 = [0; 4; 0; 1; 0; 0; 0; 0])
    by (rewrite header_bytes_network_order by (apply H16; unfold close; lia); done).
  unfold set_header. cbn [bytes ptr_add].
  replace (0 + header_len + - header_len) with 0 by lia.
  erewrite store_bytes_live;
    [| state_simpl; apply lookup_insert_eq | done | rewrite Hhb; done].
  state_simpl. rewrite insert_insert_eq.
  erewrite load_conn_live
    by (state_simpl; rewrite lookup_insert_ne by done; exact Hc).
  cbn [obind]. unfold frame_of. cbn [bytes num_bytes ptr_add].
  replace (0 + header_len + - header_len) with 0 by lia.
  erewrite load_bytes_live;
    [| state_simpl; apply lookup_insert_eq | unfold header_len; lia .. |].
  2: { rewrite length_overwrite; rewrite ?Hhb; simpl; unfold header_len; lia. }
  cbn [obind].
  exists (syscall
            (SysSend (socket cn)
               (slice 0 (0 + header_len)
                  (overwrite 0 (header_bytes close 1 0 0)
                     (replicate (Z.to_nat (0 + header_len)) 0))) 0)
            (set_heap
               (<[b := OBytes (overwrite 0 (header_bytes close 1 0 0)
                                 (replicate (Z.to_nat (0 + header_len)) 0))]> (heap st)) st)), b.
  split; [reflexivity |]. state_simpl.
  split.
  { f_equal. f_equal. rewrite Hhb. reflexivity. }
  repeat split; try done.
  - by rewrite lookup_insert_ne.
  - apply fresh_block_unused.
  - rewrite lookup_insert_eq. eauto.
Qed.

(** ** Well-formed states *)

Lemma same_registry_refl (st : State) : same_registry st st.
Proof. by repeat split. Qed.

Lemma same_registry_trans (st1 st2 st3 : State) :
  same_registry st1 st2 -> same_registry st2 st3 -> same_registry st1 st3.
Proof.
  intros (A1 & A2 & A3 & A4 & A5 & A6 & A7) (B1 & B2 & B3 & B4 & B5 & B6 & B7).
  repeat split; try congruence. intros c cn H. by apply B7, A7.
Qed.

Lemma same_registry_malloc (o : list Z) (st : State) :
  same_registry st (set_heap (<[fresh (dom (heap st)) := OBytes o]> (heap st)) st).
Proof.
  repeat split; try done. intros c cn H. state_simpl.
  rewrite lookup_insert_ne; [done |]. apply fresh_block_ne. eauto.
Qed.

Lemma same_registry_store_bytes (p : pointer) (bs : list Z) (st st' : State) :
  store_bytes p bs st = Ret st' -> same_registry st st'.
Proof.
  unfold store_bytes. intros H.
  destruct p as [| b o]; try discriminate.
  destruct (heap st !! b) as [[|content]|] eqn:Eb; try discriminate.
  destruct (_ && _); try discriminate.
  inversion H; subst. repeat split; try done.
  intros c cn Hc. state_simpl. rewrite lookup_insert_ne; [done | congruence].
Qed.

Lemma same_registry_syscall (s : Syscall) (st : State) :
  same_registry st (syscall s st).
Proof. by repeat split. Qed.

Lemma same_registry_msg_send (c : Z) (d : msg_Data) (st st' : State) :
  msg_send c d st = Ret st' -> same_registry st st'.
Proof.
  unfold msg_send, set_header. intros H.
  obind_inv H as st1 Hset. obind_inv H as cn Hcn.
  apply same_registry_store_bytes in Hset.
  eapply same_registry_trans; [exact Hset |].
  destruct (_ && _); obind_inv H as frame Hframe; inversion H; subst;
    apply same_registry_syscall.
Qed.

Lemma same_registry_msg_disconnect (c : Z) (st st' : State) :
  msg_disconnect c st = Ret st' -> same_registry st st'.
Proof.
  unfold msg_disconnect, msg_new_data_space, malloc_bytes, malloc, set_header.
  intros H. cbn [fst snd] in H.
  obind_inv H as st1 Hset. obind_inv H as cn Hcn. obind_inv H as frame Hframe.
  inversion H; subst.
  apply same_registry_store_bytes in Hset.
  eapply same_registry_trans; [apply same_registry_malloc |].
  eapply same_registry_trans; [exact Hset |]. apply same_registry_syscall.
Qed.

Lemma same_registry_msg_delete_data (d : msg_Data) (st st' : State) :
  msg_delete_data d st = Ret st' -> same_registry st st'.
Proof.
  unfold msg_delete_data, free. intros H.
  destruct (bytes d) as [| b o]; try discriminate.
  destruct (heap st !! b) as [[|content]|] eqn:Eb; try discriminate.
  destruct (negb _); try discriminate.
  inversion H; subst. repeat split; try done.
  intros c cn Hc. state_simpl. rewrite lookup_delete_ne; [done | congruence].
Qed.

Lemma conn_at_same_registry (st st' : State) (c : Z) :
  same_registry st st' -> conn_at st c -> conn_at st' c.
Proof. intros (_ & _ & _ & _ & _ & _ & H) [cn Hc]. exists cn. by apply H. Qed.

Lemma call_ok_mono (st st' : State) (pc : PendingCall) :
  (forall c, conn_at st c -> conn_at st' c) ->
  (forall c, c ∈ conns st -> c ∈ conns st') ->
  (forall c, conn_at st c -> c ∉ conns st -> c ∉ conns st') ->
  call_ok st pc -> call_ok st' pc.
Proof.
  intros Hlive Hreg Hunreg [[Hf Hc] | (Hf & Hc & Ha)].
  - left. split; [done | by apply Hreg].
  - right. split; [done |]. split; [by apply Hunreg | by apply Hlive].
Qed.

Lemma inv_same_registry (L : list PendingCall) (st st' : State) :
  same_registry st st' -> inv L st -> inv L st'.
Proof.
  intros Hs (Hi & Hq & Hlen & Hlive & Hcalls & Hnd).
  pose proof Hs as (A1 & A2 & A3 & A4 & A5 & A6 & A7).
  assert (Hqq : queue st' = queue st) by (unfold queue; by rewrite A2, A3).
  unfold inv. rewrite Hqq, A1, A2, A3, A4, A5.
  repeat split; try done.
  - intros c Hc. eapply conn_at_same_registry; [done | by apply Hlive].
  - eapply Forall_impl; [exact Hcalls |]. intros pc.
    apply call_ok_mono; rewrite ?A4; try done.
    intros c. by apply conn_at_same_registry.
Qed.

Lemma init_if_needed_heap (st : State) : heap (init_if_needed st) = heap st.
Proof. unfold init_if_needed. by destruct (init_done st). Qed.

Lemma init_if_needed_stderr (st : State) : stderr (init_if_needed st) = stderr st.
Proof. unfold init_if_needed. by destruct (init_done st). Qed.

Lemma lookup_fresh_insert (h : gmap Z Obj) (x y : Obj) (b : Z) :
  h !! b = Some x -> <[fresh (dom h) := y]> h !! b = Some x.
Proof.
  intros H. rewrite lookup_insert_ne; [done |]. apply fresh_block_ne. eauto.
Qed.

(** What [open_socket] does to the heap: every block there was is as it
    was, the new connection is allocated, and nothing is printed. *)
Lemma open_socket_heap (address : string) (ctx cb fl : Z) (o : open_oracle) (st : State) :
  exists st',
    open_socket address ctx cb fl o st = Ret st' /\
    (forall b x, heap st !! b = Some x -> heap st' !! b = Some x) /\
    conn_at st' (opened_conn st) /\
    stderr st' = stderr st.
Proof.
  pose (st0 := init_if_needed st). pose (c := opened_conn st).
  unfold open_socket, new_connection, malloc.
  fold st0. unfold opened_conn in c. fold st0 in c. fold c.
  fold (zeroed_conn ctx cb).
  assert (Hheap : heap st0 = heap st) by apply init_if_needed_heap.
  assert (Herr : stderr st0 = stderr st) by apply init_if_needed_stderr.
  assert (Hold : forall y b x, heap st !! b = Some x ->
                   <[c := y]> (heap st0) !! b = Some x).
  { intros y b x Hb. unfold c. apply lookup_fresh_insert. by rewrite Hheap. }
  assert (Hold2 : forall y z b x, heap st !! b = Some x ->
                   <[fresh (dom (<[c := y]> (heap st0))) := z]>
                     (<[c := y]> (heap st0)) !! b = Some x).
  { intros y z b x Hb. apply lookup_fresh_insert. by apply Hold. }
  assert (Hc : forall y, conn_at (set_heap (<[c := OConn y]> (heap st0)) st0) c).
  { intros y. exists y. state_simpl. apply lookup_insert_eq. }
  assert (Hc2 : forall y z, <[fresh (dom (<[c := OConn y]> (heap st0))) := z]>
                     (<[c := OConn y]> (heap st0)) !! c = Some (OConn y)).
  { intros y z. apply lookup_fresh_insert, lookup_insert_eq. }
  do 2 conn_step.
  unfold setup_sockaddr. destruct (socket_ret o =? -1) eqn:Es.
  - rewrite send_callback_os_error_ret. state_simpl.
    eexists. split; [reflexivity |]. unfold send_callback, conn_at. state_simpl.
    split; [by apply Hold2 |]. split; [| done]. eexists. apply Hc2.
  - do 3 conn_step.
    fold (parsed_conn address ctx cb fl o).
    destruct (parsed_conn address ctx cb fl o) as [[err|] cn] eqn:Ep.
    + conn_step.
      unfold remove_last_polling_conn. state_simpl.
      repeat (rewrite CArrayRemoveLast_add; state_simpl).
      rewrite send_callback_error_ret. state_simpl.
      eexists. split; [reflexivity |]. unfold send_callback, conn_at. state_simpl.
      split; [by apply Hold2 |]. split; [| done]. eexists. apply Hc2.
    + do 2 conn_step.
      destruct (open_ret o =? -1) eqn:Eo.
      * rewrite send_callback_os_error_ret. state_simpl.
        unfold remove_last_polling_conn, send_callback. state_simpl.
        repeat (rewrite CArrayRemoveLast_add; state_simpl).
        eexists. split; [reflexivity |]. unfold conn_at. state_simpl.
        split; [by apply Hold2 |]. split; [| done]. eexists. apply Hc2.
      * destruct (fl =? 0) eqn:Ef.
        -- unfold remote_address_seen. conn_step.
           fold (sockaddr_of cn). fold (peer_key cn). unfold CMapFind.
           destruct (conn_status st0 !! peer_key cn) as [status|] eqn:Ek.
           ++ eexists. split; [reflexivity |]. unfold conn_at. state_simpl.
              split; [by apply Hold |]. split; [| done].
              eexists. apply lookup_insert_eq.
           ++ eexists. split; [reflexivity |].
              unfold send_callback, CMapSet, conn_at. state_simpl.
              split; [by apply Hold |]. split; [| done].
              eexists. apply lookup_insert_eq.
        -- eexists. split; [reflexivity |]. unfold send_callback, conn_at. state_simpl.
           split; [by apply Hold |]. split; [| done].
           eexists. apply lookup_insert_eq.
Qed.

Lemma owned_app (K1 K2 : list PendingCall) : owned (K1 ++ K2) = owned K1 ++ owned K2.
Proof. unfold owned. by rewrite filter_app, fmap_app. Qed.

Lemma owned_live (st : State) (K : list PendingCall) (c : Z) :
  Forall (call_ok st) K -> c ∈ owned K -> conn_at st c /\ c ∉ conns st.
Proof.
  intros HK Hc. unfold owned in Hc.
  apply list_elem_of_fmap in Hc as (pc & -> & Hpc).
  apply list_elem_of_filter in Hpc as [Hnn Hpc].
  rewrite Forall_forall in HK. destruct (HK pc Hpc) as [[Hf _] | (_ & Hu & Ha)]; done.
Qed.

(** The invariant is kept by a step that appends calls which are in
    order in the new state and keeps what was allocated and registered. *)
Lemma inv_step (L added : list PendingCall) (st st' : State) :
  inv L st ->
  init_done st' = true ->
  immediate_callbacks st' = immediate_callbacks st ->
  arrays st' = alter (fun q => q ++ added) (immediate_callbacks st) (arrays st) ->
  length (conns st') = length (poll_fds st') ->
  (forall c, conn_at st c -> conn_at st' c) ->
  (forall c, c ∈ conns st -> c ∈ conns st') ->
  (forall c, c ∈ conns st' -> conn_at st' c) ->
  (forall c, conn_at st c -> c ∉ conns st -> c ∉ conns st') ->
  Forall (call_ok st') added ->
  NoDup (owned added) ->
  (forall c, c ∈ owned added -> ~ conn_at st c) ->
  inv L st'.
Proof.
  intros (Hi & [q Hq] & Hlen & Hlive & Hcalls & Hnd)
    Hi' Hic Harr Hlen' Hmono Hreg Hlive' Hunreg Hadded Hnd' Hnew.
  assert (Hqs : queue st = q) by (unfold queue; by rewrite Hq).
  assert (Hqs' : queue st' = q ++ added).
  { unfold queue. by rewrite Hic, Harr, lookup_alter_eq, Hq. }
  unfold inv. rewrite Hqs in *. rewrite Hqs', app_assoc.
  repeat split; try done.
  - rewrite Hic, Harr, lookup_alter_eq, Hq. eauto.
  - apply Forall_app. split; [| done].
    eapply Forall_impl; [exact Hcalls |]. intros pc. by apply call_ok_mono.
  - rewrite owned_app. apply NoDup_app. split; [done |]. split; [| done].
    intros c Hc Hc'. apply (Hnew c Hc'). by eapply owned_live.
Qed.

Lemma alter_app_nil (a : Z) (m : gmap Z (list PendingCall)) :
  m = alter (fun q => q ++ []) a m.
Proof. symmetry. apply alter_id. intros x _. apply app_nil_r. Qed.

Lemma open_socket_inv (L : list PendingCall) (address : string) (ctx cb fl : Z)
    (o : open_oracle) (st st' : State) :
  inv L st ->
  open_socket address ctx cb fl o st = Ret st' ->
  inv L st'.
Proof.
  intros Hinv Hopen.
  pose proof Hinv as (Hi & Hq & Hlen & Hlive & Hcalls & Hnd).
  destruct (open_socket_cases address ctx cb fl o st)
    as (st1 & Hopen1 & Hi' & Hic & _ & Hcases).
  destruct (open_socket_heap address ctx cb fl o st)
    as (st2 & Hopen2 & Hold & Hnewc & _).
  rewrite Hopen in Hopen1, Hopen2.
  injection Hopen1 as <-. injection Hopen2 as <-.
  rewrite (init_if_needed_id st Hi) in Hic, Hcases.
  assert (Hfresh : ~ conn_at st (opened_conn st)).
  { intros [cn Hcn]. unfold opened_conn in Hcn.
    rewrite (init_if_needed_id st Hi), fresh_block_unused in Hcn. done. }
  assert (Hmono : forall c, conn_at st c -> conn_at st' c).
  { intros c [cn Hcn]. exists cn. by apply Hold. }
  set (c := opened_conn st) in *.
  destruct Hcases as [(_ & Hconns & Hfds & _ & d & Harr)
                     | (cn & _ & _ & _ & Hcn & Hconns & Hfds & Hcases)].
  - apply (inv_step L [pending c msg_error d (Ptr c 0)] st st'); try done.
    + by rewrite Hconns, Hfds.
    + intros b. by rewrite Hconns.
    + intros b Hb. rewrite Hconns in Hb. by apply Hmono, Hlive.
    + intros b _. by rewrite Hconns.
    + constructor; [| constructor]. right. simpl.
      split; [done |]. split; [| done].
      rewrite Hconns. intros Hin. by apply Hfresh, Hlive.
    + unfold owned. simpl. apply NoDup_singleton.
    + intros b Hb. unfold owned in Hb. simpl in Hb.
      apply list_elem_of_singleton in Hb. by subst.
  - assert (Hlen' : length (conns st') = length (poll_fds st')).
    { rewrite Hconns, Hfds, !length_app. simpl. lia. }
    assert (Hreg : forall b, b ∈ conns st -> b ∈ conns st').
    { intros b Hb. rewrite Hconns. apply elem_of_app. by left. }
    assert (Hlive' : forall b, b ∈ conns st' -> conn_at st' b).
    { intros b Hb. rewrite Hconns in Hb. apply elem_of_app in Hb as [Hb | Hb].
      - by apply Hmono, Hlive.
      - apply list_elem_of_singleton in Hb. by subst. }
    assert (Hunreg : forall b, conn_at st b -> b ∉ conns st -> b ∉ conns st').
    { intros b Hb Hn. rewrite Hconns. intros Hin.
      apply elem_of_app in Hin as [Hin | Hin]; [done |].
      apply list_elem_of_singleton in Hin. by subst. }
    assert (Hplain : forall ev, Forall (call_ok st') [pending c ev msg_no_data NULL]).
    { intros ev. constructor; [| constructor]. left. simpl. split; [done |].
      rewrite Hconns. apply elem_of_app. right. by apply list_elem_of_singleton. }
    destruct Hcases as [(_ & _ & Harr) | [(_ & _ & _ & Harr) | (_ & _ & _ & Harr)]].
    + apply (inv_step L [pending c msg_listening msg_no_data NULL] st st'); try done.
      * unfold owned. simpl. constructor.
      * intros b Hb. unfold owned in Hb. simpl in Hb. by apply elem_of_nil in Hb.
    + apply (inv_step L [pending c msg_connection_ready msg_no_data NULL] st st');
        try done.
      * unfold owned. simpl. constructor.
      * intros b Hb. unfold owned in Hb. simpl in Hb. by apply elem_of_nil in Hb.
    + apply (inv_step L [] st st'); try done.
      * rewrite Harr. apply alter_app_nil.
      * unfold owned. simpl. constructor.
      * intros b Hb. unfold owned in Hb. simpl in Hb. by apply elem_of_nil in Hb.
Qed.

Lemma init_if_needed_idem (st : State) :
  init_if_needed (init_if_needed st) = init_if_needed st.
Proof. apply init_if_needed_id, init_if_needed_done. Qed.

Lemma open_socket_init (address : string) (ctx cb fl : Z) (o : open_oracle) (st : State) :
  open_socket address ctx cb fl o (init_if_needed st) =
  open_socket address ctx cb fl o st.
Proof. unfold open_socket. by rewrite init_if_needed_idem. Qed.

Lemma init_if_needed_wf (st : State) : init_done st = false -> wf (init_if_needed st).
Proof.
  intros H. unfold wf, inv, init_if_needed, queue. rewrite H. simpl.
  rewrite lookup_insert_eq. simpl.
  repeat split; try done; try constructor; eauto.
  intros c Hc. by apply elem_of_nil in Hc.
Qed.

Lemma open_socket_wf (address : string) (ctx cb fl : Z) (o : open_oracle) (st : State) :
  init_done st = false \/ wf st ->
  exists st', open_socket address ctx cb fl o st = Ret st' /\ wf st'.
Proof.
  intros H.
  destruct (open_socket_cases address ctx cb fl o st) as (st' & Hopen & _).
  exists st'. split; [done |].
  destruct H as [H | H].
  - rewrite <- open_socket_init in Hopen.
    eapply open_socket_inv; [| exact Hopen]. by apply init_if_needed_wf.
  - by eapply open_socket_inv.
Qed.

(** ** Reading keeps states well-formed *)



















(** ** A tick keeps states well-formed *)

Lemma registrations_kept_refl (st : State) : registrations_kept st st.
Proof. by split_and!. Qed.

Lemma registrations_kept_trans (st1 st2 st3 : State) :
  registrations_kept st1 st2 -> registrations_kept st2 st3 ->
  registrations_kept st1 st3.
Proof. intros (A1 & A2 & A3) (B1 & B2 & B3). split_and!; by etrans. Qed.

Lemma registrations_kept_same (st st' : State) :
  conns st' = conns st -> fd <$> poll_fds st' = fd <$> poll_fds st ->
  conn_status st ⊆ conn_status st' ->
  registrations_kept st st'.
Proof. intros H1 H2 H3. unfold registrations_kept. by rewrite H1, H2. Qed.

Lemma same_registry_kept (st st' : State) :
  same_registry st st' -> registrations_kept st st'.
Proof.
  intros (A1 & A2 & A3 & A4 & A5 & A6 & A7).
  apply registrations_kept_same; [done | by rewrite A5 | by rewrite A6].
Qed.

Lemma open_socket_kept (address : string) (ctx cb fl : Z) (o : open_oracle)
    (st st' : State) :
  init_done st = true ->
  open_socket address ctx cb fl o st = Ret st' ->
  registrations_kept st st'.
Proof.
  intros Hi Hopen.
  destruct (open_socket_cases address ctx cb fl o st)
    as (st1 & Hopen1 & _ & _ & _ & Hcases).
  rewrite Hopen in Hopen1. injection Hopen1 as <-.
  rewrite (init_if_needed_id st Hi) in Hcases.
  destruct Hcases as [(_ & Hconns & Hfds & Hcs & _)
                     | (cn & _ & _ & _ & Hcn & Hconns & Hfds & Hcases)].
  - apply registrations_kept_same; [done | by rewrite Hfds | by rewrite Hcs].
  - unfold registrations_kept. rewrite Hconns, Hfds, fmap_app.
    split_and!; [by apply prefix_app_r | by apply prefix_app_r |].
    destruct Hcases as [(_ & -> & _) | [(_ & Hnone & -> & _) | (_ & _ & -> & _)]];
      [done | by apply insert_subseteq | done].
Qed.

Lemma api_step_kept (st st' : State) :
  api_step st st' -> init_done st = true -> registrations_kept st st'.
Proof.
  intros Hstep Hi. destruct Hstep.
  - by eapply open_socket_kept.
  - by eapply open_socket_kept.
  - apply registrations_kept_refl.
  - by eapply same_registry_kept, same_registry_msg_disconnect.
  - by eapply same_registry_kept, same_registry_msg_send.
  - apply registrations_kept_refl.
  - rewrite msg_new_data_ret in H. inversion H; subst.
    apply same_registry_kept, same_registry_malloc.
  - apply same_registry_kept, same_registry_malloc.
  - by eapply same_registry_kept, same_registry_msg_delete_data.
  - by eapply same_registry_kept, same_registry_store_bytes.
Qed.

Lemma api_step_inv (L : list PendingCall) (st st' : State) :
  api_step st st' -> inv L st -> inv L st'.
Proof.
  intros Hstep Hinv. destruct Hstep.
  - by eapply open_socket_inv.
  - by eapply open_socket_inv.
  - done.
  - by eapply inv_same_registry; [eapply same_registry_msg_disconnect |].
  - by eapply inv_same_registry; [eapply same_registry_msg_send |].
  - done.
  - rewrite msg_new_data_ret in H. inversion H; subst.
    by eapply inv_same_registry; [apply same_registry_malloc |].
  - by eapply inv_same_registry; [apply same_registry_malloc |].
  - by eapply inv_same_registry; [eapply same_registry_msg_delete_data |].
  - by eapply inv_same_registry; [eapply same_registry_store_bytes |].
Qed.

Lemma api_steps_inv (L : list PendingCall) (st st' : State) :
  rtc api_step st st' -> inv L st -> inv L st' /\ registrations_kept st st'.
Proof.
  induction 1 as [st | st st1 st2 Hstep _ IH]; intros Hinv.
  - split; [done | apply registrations_kept_refl].
  - pose proof (api_step_inv L _ _ Hstep Hinv) as Hinv1.
    destruct (IH Hinv1) as [Hinv2 Hk]. split; [done |].
    eapply registrations_kept_trans; [| exact Hk].
    apply api_step_kept; [done |]. by destruct Hinv.
Qed.







(** X11. [open_socket], and so [msg_listen] and [msg_connect], returns
    whatever the system calls answer and whatever the address is. Called
    before the library is initialised, or on a well-formed state, it
    leaves a well-formed state: connections and descriptors aligned,
    every registered connection allocated, every pending call either
    for a registered connection or the only owner of an unregistered
    one. *)
Theorem open_socket_keeps_well_formed (address : string) (ctx cb fl : Z)
    (o : open_oracle) (st : State) :
  init_done st = false \/ wf st ->
  exists st', open_socket address ctx cb fl o st = Ret st' /\ wf st'.
Proof. apply open_socket_wf. Qed.


Lemma api_steps_kept (st st' : State) :
  rtc api_step st st' -> init_done st = true -> registrations_kept st st'.
Proof.
  induction 1 as [st | st st1 st2 Hstep _ IH]; intros Hi.
  - apply registrations_kept_refl.
  - eapply registrations_kept_trans; [by apply api_step_kept |].
    apply IH. destruct (api_step_grows _ _ Hstep Hi) as (-> & _). done.
Qed.

(** X13. No public function unregisters anything. Through any sequence
    of calls of [msg_listen], [msg_connect], [msg_unlisten],
    [msg_disconnect], [msg_send], [msg_get] and the data functions, the
    connections and descriptors registered stay where they are in
    [conns] and [poll_fds], and no peer key leaves the registry; a
    well-formed state stays well-formed. *)
Theorem public_functions_keep_registrations (st st' : State) :
  init_done st = true ->
  rtc api_step st st' ->
  registrations_kept st st' /\ (wf st -> wf st').
Proof.
  intros Hi Hsteps. split; [by apply api_steps_kept |].
  intros Hwf. by destruct (api_steps_inv [] _ _ Hsteps Hwf).
Qed.

(** ** A tick without input *)

Lemma read_ready_nothing (o : tick_oracle) (pfds : list pollfd) :
  Forall (fun p => Z.land (revents p) POLLIN = 0) pfds ->
  forall index st, read_ready index pfds o st = Ret st.
Proof.
  induction 1 as [| p pfds Hp _ IH]; intros index st; simpl; [done |].
  rewrite Hp. simpl. apply IH.
Qed.

(** X14. Descriptors are read only when [poll] returns a positive count
    and reports POLLIN. When [poll] fails or times out, or reports
    POLLIN for no descriptor, the first half of [msg_runloop] makes the
    one system call [poll] and reads nothing: no call is enqueued,
    nothing is allocated or registered, and what the tick then does is
    the flush of the queue as it was. A failure of [poll] is reported
    to no callback; it is printed to stderr when errno is EFAULT or
    EINVAL and dropped otherwise. *)
Theorem msg_runloop_without_input (timeout : Z) (o : tick_oracle) (st : State) :
  init_done st = true ->
  poll_ret o <= 0 \/ (forall i, Z.land (poll_revents o i) POLLIN = 0) ->
  exists st1,
    io_phase timeout o st = Ret st1 /\
    syscalls st1 = syscalls st ++ [SysPoll (poll_fds st) timeout] /\
    heap st1 = heap st /\ arrays st1 = arrays st /\
    immediate_callbacks st1 = immediate_callbacks st /\ queue st1 = queue st /\
    conns st1 = conns st /\ conn_status st1 = conn_status st /\
    fd <$> poll_fds st1 = fd <$> poll_fds st /\
    stderr st1 =
      stderr st ++
      (if (poll_ret o =? -1) && ((poll_errno o =? EFAULT) || (poll_errno o =? EINVAL))
       then ["Internal msgbox error during 'poll' call: " +:+ strerror (poll_errno o)
             +:+ newline]
       else []) /\
    forall fuel,
      msg_runloop user_code fuel timeout o st = dispatch_phase user_code fuel st1.
Proof.
  intros Hi Hno.
  assert (Hio : exists st1,
    io_phase timeout o st = Ret st1 /\
    syscalls st1 = syscalls st ++ [SysPoll (poll_fds st) timeout] /\
    heap st1 = heap st /\ arrays st1 = arrays st /\ conns st1 = conns st /\
    conn_status st1 = conn_status st /\
    fd <$> poll_fds st1 = fd <$> poll_fds st /\
    stderr st1 =
      stderr st ++
      (if (poll_ret o =? -1) && ((poll_errno o =? EFAULT) || (poll_errno o =? EINVAL))
       then ["Internal msgbox error during 'poll' call: " +:+ strerror (poll_errno o)
             +:+ newline]
       else []) /\
    immediate_callbacks st1 = immediate_callbacks st).
  { unfold io_phase, poll. rewrite Hi. simpl negb. cbn iota.
    destruct (poll_ret o =? -1) eqn:Er.
    - cbn [fst snd]. change (-1 =? -1) with true. cbn iota. state_simpl.
      destruct (_ || _); eexists; (split; [reflexivity |]); state_simpl;
        rewrite ?app_nil_r; by split_and!.
    - cbn [fst snd]. rewrite Er. state_simpl.
      set (pfds := imap _ (poll_fds st)).
      assert (Hfds : fd <$> pfds = fd <$> poll_fds st).
      { unfold pfds. apply list_eq. intros i.
        rewrite !list_lookup_fmap, list_lookup_imap.
        by destruct (poll_fds st !! i). }
      destruct (0 <? poll_ret o) eqn:Ep.
      + destruct Hno as [Hno | Hno]; [apply Z.ltb_lt in Ep; lia |].
        rewrite read_ready_nothing.
        * eexists. split; [reflexivity |]. state_simpl. rewrite app_nil_r.
          by split_and!.
        * apply Forall_forall. intros p Hp. unfold pfds in Hp.
          apply list_elem_of_lookup in Hp as [i Hp].
          rewrite list_lookup_imap in Hp.
          destruct (poll_fds st !! i); simpl in Hp; [| done].
          inversion Hp; subst. simpl. apply Hno.
      + eexists. split; [reflexivity |]. state_simpl. rewrite app_nil_r.
        by split_and!. }
  destruct Hio as (st1 & Hio & H1 & H2 & H3 & H4 & H5 & H6 & H7 & Hic1).
  exists st1. split_and!; try done.
  - unfold queue. by rewrite Hic1, H3.
  - intros fuel. unfold msg_runloop. by rewrite Hio.
Qed.

(** ** Sending a string *)


(** ** How a failure to open is reported *)

Lemma open_socket_failure (address : string) (ctx cb fl : Z) (o : open_oracle)
    (st : State) :
  let st0 := init_if_needed st in
  let c := opened_conn st in
  let text := open_error_text address ctx cb fl o in
  socket_ret o = -1 \/ is_Some (parsed_conn address ctx cb fl o).1 \/ open_ret o = -1 ->
  exists st' b,
    open_socket address ctx cb fl o st = Ret st' /\
    heap st' !! b = Some (OBytes (text_block text)) /\
    heap st0 !! b = None /\
    immediate_callbacks st' = immediate_callbacks st0 /\
    arrays st' =
      alter (fun q => q ++ [pending c msg_error (text_data b text) (Ptr c 0)])
        (immediate_callbacks st0) (arrays st0).
Proof.
  intros st0 c text Hfail. unfold open_socket, new_connection, malloc.
  fold st0. unfold opened_conn in c. fold st0 in c. fold c.
  fold (zeroed_conn ctx cb).
  assert (Hfresh : forall y, heap st0 !! fresh (dom (<[c := y]> (heap st0))) = None).
  { intros y. destruct (heap st0 !! fresh (dom (<[c := y]> (heap st0)))) eqn:E; [| done].
    exfalso. apply (fresh_block_ne (<[c := y]> (heap st0)) (fresh (dom (<[c := y]> (heap st0))))).
    - destruct (decide (fresh (dom (<[c := y]> (heap st0))) = c)) as [-> | Hne].
      + rewrite lookup_insert_eq. eauto.
      + rewrite lookup_insert_ne by done. eauto.
    - done. }
  unfold text, open_error_text.
  do 2 conn_step.
  unfold setup_sockaddr. destruct (socket_ret o =? -1) eqn:Es.
  - rewrite send_callback_os_error_ret. state_simpl.
    eexists _, _. split; [reflexivity |]. unfold send_callback. state_simpl.
    split; [apply lookup_insert_eq |]. split; [apply Hfresh |]. done.
  - do 3 conn_step.
    fold (parsed_conn address ctx cb fl o).
    destruct (parsed_conn address ctx cb fl o) as [[err|] cn] eqn:Ep.
    + conn_step.
      unfold remove_last_polling_conn. state_simpl.
      repeat (rewrite CArrayRemoveLast_add; state_simpl).
      rewrite send_callback_error_ret. state_simpl.
      eexists _, _. split; [reflexivity |]. unfold send_callback. state_simpl.
      split; [apply lookup_insert_eq |]. split; [apply Hfresh |]. done.
    + do 2 conn_step.
      destruct (open_ret o =? -1) eqn:Eo.
      * rewrite send_callback_os_error_ret. state_simpl.
        unfold remove_last_polling_conn, send_callback. state_simpl.
        repeat (rewrite CArrayRemoveLast_add; state_simpl).
        eexists _, _. split; [reflexivity |]. state_simpl.
        split; [apply lookup_insert_eq |]. split; [apply Hfresh |]. done.
      * exfalso. destruct Hfail as [H | [[x H] | H]]; [lia | done | lia].
Qed.

(** X16. How [open_socket] reports a failure. When [socket] fails, the
    address does not parse, or [bind] or [connect] fails, exactly one
    call is enqueued: an error event for the new connection, which it
    owns. Its data reads, through [msg_error_str], as [socket: ] and the
    text of the system error, as the message of the address parser, or
    as [bind: ] and the text of the system error, also when the call
    that failed was [connect]. The connection is not registered. *)
Theorem open_socket_reports_failure (address : string) (ctx cb fl : Z) (o : open_oracle)
    (st : State) :
  let text := open_error_text address ctx cb fl o in
  queue_allocated st -> conns_live st ->
  socket_ret o = -1 \/ is_Some (parsed_conn address ctx cb fl o).1 \/ open_ret o = -1 ->
  no_nul text ->
  exists st' pc,
    open_socket address ctx cb fl o st = Ret st' /\
    queue st' = queue (init_if_needed st) ++ [pc] /\
    conn pc = opened_conn st /\ event pc = msg_error /\
    to_free pc = Ptr (opened_conn st) 0 /\
    msg_error_str (data pc) st' = Ret text /\
    msg_as_str (data pc) st' = Ret text /\
    (opened_conn st ∉ conns st') /\
    length (poll_fds st') = length (poll_fds (init_if_needed st)).
Proof.
  intros text Hq Hlive Hfail Hnn.
  destruct (open_socket_failure address ctx cb fl o st Hfail)
    as (st' & b & Hopen & Hb & Hb0 & Hic & Harr).
  destruct (open_socket_cases address ctx cb fl o st)
    as (st1 & Hopen1 & _ & _ & _ & Hcases).
  rewrite Hopen in Hopen1. injection Hopen1 as <-.
  fold text in Hb, Harr.
  destruct (init_if_needed_queue st Hq) as [q Hq0].
  destruct (enqueued_alter _ _ _ _ Hq0 Hic Harr) as [Hqueue _].
  exists st', (pending (opened_conn st) msg_error (text_data b text) (Ptr (opened_conn st) 0)).
  assert (Hstr : msg_as_str (text_data b text) st' = Ret text)
    by (by apply msg_as_str_text_block).
  assert (Hq0' : queue (init_if_needed st) = q) by (unfold queue; by rewrite Hq0).
  rewrite Hq0'. split_and!; try done.
  - destruct Hcases as [(_ & -> & _) | (cn & Hs & Hp & Ho & _)].
    + by apply opened_conn_unregistered.
    + exfalso. rewrite Hp in Hfail. destruct Hfail as [H | [[x H] | H]]; done.
  - destruct Hcases as [(_ & _ & -> & _) | (cn & Hs & Hp & Ho & _)]; [done |].
    exfalso. rewrite Hp in Hfail. destruct Hfail as [H | [[x H] | H]]; done.
Qed.

(** ** Replying *)

Lemma htons_involutive (x : Z) : is_uint16 x -> htons (uint16 (htons x)) = x.
Proof.
  unfold is_uint16, htons, uint16. intros Hx.
  destruct host_little_endian; [| by rewrite Z.mod_small].
  assert (0 <= x / 256 < 256) by (split; [apply Z.div_pos | apply Z.div_lt_upper_bound]; lia).
  assert (0 <= x mod 256 < 256) by (apply Z.mod_pos_bound; lia).
  rewrite (Z.mod_small (x mod 256 * 256 + x / 256)) by lia.
  assert (E1 : (x mod 256 * 256 + x / 256) mod 256 = x / 256)
    by (rewrite Z.add_comm, Z.mod_add by lia; apply Z.mod_small; lia).
  assert (E2 : (x mod 256 * 256 + x / 256) / 256 = x mod 256)
    by (rewrite Z.add_comm, Z.div_add by lia; rewrite Z.div_small by lia; lia).
  rewrite E1, E2.
  pose proof (Z.div_mod x 256 ltac:(lia)). lia.
Qed.

(** [msg_send] on a listening UDP connection, with data that can be
    loaded. *)
Lemma msg_send_reply (c b : Z) (d : msg_Data) (st : State) (cn : msg_Conn)
    (payload : list Z) :
  heap st !! c = Some (OConn cn) ->
  bytes d = Ptr b header_len ->
  load_bytes (bytes d) (num_bytes d) st = Ret payload ->
  protocol_type cn = msg_udp -> for_listening cn <> 0 ->
  exists st',
    msg_send c d st = Ret st' /\
    last (syscalls st') =
      Some (SysSendto (socket cn) ([0; 0; 0; 1; 0; 0; 0; 0] ++ payload) 0
              (set_sockaddr_for_conn cn)).
Proof.
  intros Hc Hd Hload Hudp Hlisten. rewrite Hd in Hload. unfold load_bytes in Hload.
  destruct (heap st !! b) as [[x | content] |] eqn:Eb; try discriminate.
  destruct (_ && _) eqn:E; try discriminate.
  apply andb_true_iff in E as [E E3]. apply andb_true_iff in E as [E1 E2].
  apply Z.leb_le in E2, E3.
  injection Hload as Hslice.
  eexists. split.
  - by apply (msg_send_effect c d st cn b header_len content).
  - cbn [syscalls syscall]. rewrite last_snoc.
    rewrite Hudp. replace (for_listening cn =? 0) with false by lia.
    change ((msg_udp =? msg_udp) && negb false) with true. cbn iota.
    rewrite Hslice.
    assert (H16 : forall x, 0 <= x < 2 -> is_uint16 x) by (unfold is_uint16; lia).
    rewrite header_bytes_network_order by (apply H16; unfold one_way; lia).
    reflexivity.
Qed.
(** X17. A listening UDP connection replies to whoever sent last.
    After [read_from_socket] has delivered a frame, [msg_send] on that
    connection with the delivered data hands [sendto] the socket
    address the frame came from, port and ip as they were received, and
    a one-way frame with the payload received. *)
Theorem reply_goes_to_last_sender (sock c : Z) (ro : read_oracle) (st : State)
    (q : list PendingCall) (cn : msg_Conn) (bs : list Z) (header : Header)
    (ev : msg_Event) (dgram : list Z) (from : sockaddr_in) :
  arrays st !! immediate_callbacks st = Some q ->
  heap st !! c = Some (OConn cn) ->
  on_recv ro = recv_bytes bs ->
  decode_header (take (Z.to_nat header_len) bs) = Some header ->
  classify (message_type header) = Ret (Some ev) ->
  num_packets header = 1 ->
  on_recvfrom ro = recvfrom_dgram dgram from ->
  (8 <= length dgram)%nat ->
  protocol_type cn = msg_udp -> for_listening cn <> 0 ->
  is_uint16 (sin_port from) -> 0 <= sin_addr from < 4294967296 ->
  exists st' call st'',
    read_from_socket sock c ro st = Ret st' /\
    last (queue st') = Some call /\
    conn call = c /\ event call = ev /\
    msg_send c (data call) st' = Ret st'' /\
    last (syscalls st'') =
      Some (SysSendto (socket cn)
              ([0; 0; 0; 1; 0; 0; 0; 0] ++ drop 8 (take (Z.to_nat recv_buffer_len) dgram))
              0
              {| sin_family := AF_INET; sin_port := sin_port from;
                 sin_addr := sin_addr from |}).
Proof.
  intros Hq Hc Hr Hd Hcl Hn Hrf Hlen Hudp Hlisten Hport Hip.
  destruct (read_from_socket_frame sock c ro st q cn bs header ev dgram from
              Hq Hc Hr Hd Hcl Hn Hrf Hlen)
    as (st' & b & Hread & Hfresh & Hres).
  cbv zeta in Hres. destruct Hres as (Hload & Hc' & Hqueue & _).
  revert Hload Hc' Hqueue. generalize (take (Z.to_nat recv_buffer_len) dgram).
  intros received Hload Hc' Hqueue.
  destruct (msg_send_reply c b
              {| num_bytes := Z.of_nat (length received) - header_len;
                 bytes := Ptr b header_len |}
              st' _ (drop 8 received) Hc' eq_refl Hload Hudp Hlisten)
    as (st'' & Hsend & Hsys).
  eexists st', _, st''.
  split; [exact Hread |].
  split; [rewrite Hqueue, !app_assoc; apply last_snoc |].
  split; [reflexivity |]. split; [reflexivity |]. split; [exact Hsend |].
  rewrite Hsys. unfold set_sockaddr_for_conn.
  cbn [socket remote_port remote_ip with_remote_port with_remote_ip with_reply_id].
  unfold ntohs. rewrite htons_involutive by done.
  unfold uint32. rewrite (Z.mod_small (sin_addr from)) by done. reflexivity.
Qed.
(** ** The hash of a peer key *)

Lemma address_hash_from_step (byte : Z) (rest : list Z) (hash r : Z) :
  address_hash_from (byte :: rest) hash = Ret r ->
  -2147483648 <= hash * 234 <= 2147483647 /\
  -2147483648 <= hash * 234 + as_char byte <= 2147483647 /\
  address_hash_from rest (hash * 234 + as_char byte) = Ret r.
Proof.
  simpl. unfold in_int, INT_MIN, INT_MAX.
  destruct ((-2147483648 <=? hash * 234) && (hash * 234 <=? 2147483647)) eqn:E1;
    simpl; [| discriminate].
  destruct ((-2147483648 <=? hash * 234 + as_char byte)
            && (hash * 234 + as_char byte <=? 2147483647)) eqn:E2;
    simpl; [| discriminate].
  apply andb_true_iff in E1 as [E1 E1'], E2 as [E2 E2'].
  apply Z.leb_le in E1, E1', E2, E2'. done.
Qed.

Lemma address_hash_from_outcome (bytes : list Z) :
  forall hash,
    (exists r, address_hash_from bytes hash = Ret r) \/
    address_hash_from bytes hash = Undefined.
Proof.
  induction bytes as [| byte rest IH]; intros hash; simpl; [eauto |].
  destruct (negb (in_int (hash * 234))); [by right |].
  destruct (negb (in_int (hash * 234 + as_char byte))); [by right |]. apply IH.
Qed.

Lemma as_char_range (byte : Z) :
  0 <= byte <= 255 ->
  -128 <= as_char byte <= 255 /\
  (byte <> 0 -> as_char byte <> 0) /\
  (as_char byte <= 127 \/ forall b, 0 <= b <= 255 -> as_char b = b).
Proof.
  intros Hb. unfold as_char. destruct char_is_signed; simpl.
  - destruct (128 <=? byte) eqn:E; [apply Z.leb_le in E | apply Z.leb_gt in E];
      (split; [lia |]); (split; [lia |]); left; lia.
  - split; [lia |]. split; [done |]. by right.
Qed.

Lemma address_hash_from_overflow (b0 b1 b2 b3 b4 b5 b6 b7 : Z) :
  0 <= b0 <= 255 -> 0 <= b1 <= 255 -> 0 <= b2 <= 255 -> 0 <= b3 <= 255 ->
  0 <= b4 <= 255 -> 0 <= b5 <= 255 -> 0 <= b6 <= 255 -> 0 <= b7 <= 255 ->
  b0 <> 0 \/ b1 <> 0 \/ b2 <> 0 ->
  address_hash_from [b0; b1; b2; b3; b4; b5; b6; b7] 0 = Undefined.
Proof.
  intros H0 H1 H2 H3 H4 H5 H6 H7 Hnz.
  destruct (address_hash_from_outcome [b0; b1; b2; b3; b4; b5; b6; b7] 0)
    as [[r E] | E]; [| done].
  exfalso.
  repeat (apply address_hash_from_step in E; destruct E as (? & ? & E)).
  assert (Hsign : (forall b, 0 <= b <= 255 -> as_char b <= 127) \/
                  (forall b, 0 <= b <= 255 -> as_char b = b)).
  { unfold as_char. destruct char_is_signed; simpl; [left | by right].
    intros b Hb. destruct (128 <=? b) eqn:Eb;
      [apply Z.leb_le in Eb | apply Z.leb_gt in Eb]; lia. }
  pose proof (as_char_range b0 H0) as (? & ? & _).
  pose proof (as_char_range b1 H1) as (? & ? & _).
  pose proof (as_char_range b2 H2) as (? & ? & _).
  pose proof (as_char_range b3 H3) as (? & _).
  pose proof (as_char_range b4 H4) as (? & _).
  pose proof (as_char_range b5 H5) as (? & _).
  pose proof (as_char_range b6 H6) as (? & _).
  pose proof (as_char_range b7 H7) as (? & _).
  destruct Hsign as [Hs | Hs];
    pose proof (Hs b0 H0); pose proof (Hs b1 H1); pose proof (Hs b2 H2);
    pose proof (Hs b3 H3); pose proof (Hs b4 H4); pose proof (Hs b5 H5);
    pose proof (Hs b6 H6); pose proof (Hs b7 H7); lia.
Qed.

Lemma bytes_of_uint32 (x : Z) :
  0 <= x < 4294967296 ->
  0 <= x mod 256 <= 255 /\ 0 <= x / 256 mod 256 <= 255 /\
  0 <= x / 65536 mod 256 <= 255 /\ 0 <= x / 16777216 <= 255.
Proof.
  intros Hx.
  pose proof (Z.mod_pos_bound x 256 ltac:(lia)).
  pose proof (Z.mod_pos_bound (x / 256) 256 ltac:(lia)).
  pose proof (Z.mod_pos_bound (x / 65536) 256 ltac:(lia)).
  pose proof (Z.div_pos x 16777216 ltac:(lia) ltac:(lia)).
  pose proof (Z.div_lt_upper_bound x 16777216 256 ltac:(lia) ltac:(lia)).
  lia.
Qed.

Lemma bytes_of_uint16 (x : Z) :
  0 <= x < 65536 -> 0 <= x mod 256 <= 255 /\ 0 <= x / 256 <= 255.
Proof.
  intros Hx.
  pose proof (Z.mod_pos_bound x 256 ltac:(lia)).
  pose proof (Z.div_pos x 256 ltac:(lia) ltac:(lia)).
  pose proof (Z.div_lt_upper_bound x 256 256 ltac:(lia) ltac:(lia)).
  lia.
Qed.

Lemma store32_bytes (x : Z) :
  0 <= x < 4294967296 ->
  exists b0 b1 b2 b3,
    store32 x = [b0; b1; b2; b3] /\
    0 <= b0 <= 255 /\ 0 <= b1 <= 255 /\ 0 <= b2 <= 255 /\ 0 <= b3 <= 255.
Proof.
  intros Hx. destruct (bytes_of_uint32 x Hx) as (X0 & X1 & X2 & X3).
  unfold store32. generalize host_little_endian. intros [|].
  - exists (x mod 256), (x / 256 mod 256), (x / 65536 mod 256), (x / 16777216).
    exact (conj eq_refl (conj X0 (conj X1 (conj X2 X3)))).
  - exists (x / 16777216), (x / 65536 mod 256), (x / 256 mod 256), (x mod 256).
    exact (conj eq_refl (conj X3 (conj X2 (conj X1 X0)))).
Qed.

Lemma store16_bytes (x : Z) :
  0 <= x < 65536 ->
  exists b0 b1, store16 x = [b0; b1] /\ 0 <= b0 <= 255 /\ 0 <= b1 <= 255.
Proof.
  intros Hx. destruct (bytes_of_uint16 x Hx) as (X0 & X1).
  unfold store16. generalize host_little_endian. intros [|].
  - exists (x mod 256), (x / 256). exact (conj eq_refl (conj X0 X1)).
  - exists (x / 256), (x mod 256). exact (conj eq_refl (conj X1 X0)).
Qed.

Lemma address_bytes_are_bytes (cn : msg_Conn) (sockaddr : sockaddr_in) :
  exists b0 b1 b2 b3 b4 b5 b6 b7,
    address_bytes (address_of cn sockaddr) = [b0; b1; b2; b3; b4; b5; b6; b7] /\
    0 <= b0 <= 255 /\ 0 <= b1 <= 255 /\ 0 <= b2 <= 255 /\ 0 <= b3 <= 255 /\
    0 <= b4 <= 255 /\ 0 <= b5 <= 255 /\ 0 <= b6 <= 255 /\ 0 <= b7 <= 255.
Proof.
  assert (H32 : 0 <= uint32 (sin_addr sockaddr) < 4294967296)
    by (unfold uint32; apply Z.mod_pos_bound; lia).
  assert (Hp : 0 <= uint16 (remote_port cn) < 65536)
    by (unfold uint16; apply Z.mod_pos_bound; lia).
  assert (Ht : 0 <= uint16 (protocol_type cn) < 65536)
    by (unfold uint16; apply Z.mod_pos_bound; lia).
  destruct (store32_bytes _ H32) as (b0 & b1 & b2 & b3 & E32 & B0 & B1 & B2 & B3).
  destruct (store16_bytes _ Hp) as (b4 & b5 & Ep & B4 & B5).
  destruct (store16_bytes _ Ht) as (b6 & b7 & Et & B6 & B7).
  exists b0, b1, b2, b3, b4, b5, b6, b7.
  split; [| exact (conj B0 (conj B1 (conj B2 (conj B3 (conj B4 (conj B5 (conj B6 B7)))))))].
  unfold address_bytes, address_of. cbn [ip port address_protocol_type].
  rewrite E32, Ep, Et. reflexivity.
Qed.

(** X18. [address_hash] overflows [int] on ordinary keys. For every key
    [remote_address_seen] builds, if one of its first three bytes in
    memory, the first three bytes of the ip, is not zero, then the
    [hash *= 234] or [hash += bytes[i]] of some iteration leaves the
    range of [int], whether [char] is signed or not and whatever the
    byte order of the host: the function has no defined result. *)
Theorem address_hash_overflows (cn : msg_Conn) (sockaddr : sockaddr_in) :
  take 3 (address_bytes (address_of cn sockaddr)) <> [0; 0; 0] ->
  address_hash (address_of cn sockaddr) = Undefined.
Proof.
  intros Hnz. unfold address_hash.
  destruct (address_bytes_are_bytes cn sockaddr)
    as (b0 & b1 & b2 & b3 & b4 & b5 & b6 & b7 & E & H0 & H1 & H2 & H3 & H4 & H5 & H6 & H7).
  rewrite E in Hnz |- *. simpl in Hnz.
  apply address_hash_from_overflow; try done.
  destruct (decide (b0 = 0)) as [-> |]; [| by left].
  destruct (decide (b1 = 0)) as [-> |]; [| by right; left].
  destruct (decide (b2 = 0)) as [-> |]; [| by right; right].
  done.
Qed.


End Msgbox.

(** * The properties on sample inputs

    The host is little-endian, the file is built with DEBUG, and the
    libc routines are the stand-ins above. *)

(** C1 on a sample: a listen in the state a connect has left. *)
Lemma open_socket_outcomes_witness :
  let st := connected_state true linux_strerror loopback_inet_aton in
  queue_allocated st /\ conns_live st /\
  exists st',
    open_socket true linux_strerror loopback_inet_aton
      "udp://*:9000" 0 0 1 (open_ok 4) st = Ret st' /\
    ((opened_registered st st' /\
      exists pc, enqueued (init_if_needed st) st' = [pc] /\
        ((1 <> 0 /\ event pc = msg_listening) \/
         (1 = 0 /\ event pc = msg_connection_ready /\
          exists cn,
            parsed_conn loopback_inet_aton "udp://*:9000" 0 0 1 (open_ok 4) = (None, cn) /\
            conn_status (init_if_needed st)
              !! registry_key (remote_ip cn) (remote_port cn) (protocol_type cn)
            = None))) \/
     opened_failed st st' \/
     (1 = 0 /\
      (exists cn,
          parsed_conn loopback_inet_aton "udp://*:9000" 0 0 1 (open_ok 4) = (None, cn) /\
          is_Some (conn_status (init_if_needed st)
                     !! registry_key (remote_ip cn) (remote_port cn) (protocol_type cn))) /\
      opened_silently st st')).
Proof.
  intros st.
  assert (Hq : queue_allocated st) by (intros _; vm_compute; eauto).
  assert (Hl : conns_live st).
  { intros _. split; [vm_compute; reflexivity |]. intros c Hc.
    assert (E : conns st = [0]) by (vm_compute; reflexivity).
    rewrite E in Hc. apply list_elem_of_singleton in Hc as ->.
    vm_compute. eauto. }
  split; [exact Hq |]. split; [exact Hl |].
  exact (open_socket_outcomes true linux_strerror loopback_inet_aton
           "udp://*:9000" 0 0 1 (open_ok 4) st Hq Hl).
Defined.

(** C1 as stated fails: a second connect to the same address leaves the
    new connection registered and enqueues nothing, which is neither of
    the two outcomes the claim allows. *)
Lemma second_connect_enqueues_nothing :
  let st := connected_state true linux_strerror loopback_inet_aton in
  exists st',
    msg_connect true linux_strerror loopback_inet_aton
      "udp://*:9000" 0 0 (open_ok 4) st = Ret st' /\
    queue_allocated st /\ conns_live st /\
    opened_silently st st' /\
    ~ (opened_registered st st' \/ opened_failed st st').
Proof.
  intros st. eexists. split; [vm_compute; reflexivity |].
  split; [intros _; vm_compute; eauto |].
  split.
  { intros _. split; [vm_compute; reflexivity |]. intros c Hc.
    assert (E : conns st = [0]) by (vm_compute; reflexivity).
    rewrite E in Hc. apply list_elem_of_singleton in Hc as ->.
    vm_compute. eauto. }
  split.
  { split; [| vm_compute; reflexivity].
    exists 1%nat,
      {| conn_context := 0; callback := 0; for_listening := 0; socket := 4;
         protocol_type := SOCK_DGRAM; remote_ip := 0; remote_port := 9000;
         reply_id := 0 |},
      {| fd := 4; events := POLLIN; revents := 0 |}.
    repeat split; vm_compute; reflexivity. }
  intros [(_ & pc & Hin & _) | (_ & _ & pc & Heq & _)].
  - vm_compute in Hin. by apply not_elem_of_nil in Hin.
  - vm_compute in Heq. discriminate Heq.
Qed.

(** C2 on a sample: a request header with reply id 5 in front of "hi". *)
Lemma set_header_decode_roundtrip_witness :
  let st := buffer_state true linux_strerror loopback_inet_aton in
  bytes hi_data = Ptr 7 8 /\
  heap st !! 7 = Some (OBytes [0; 0; 0; 0; 0; 0; 0; 0; 104; 105]) /\
  header_len <= 8 /\ 0 <= num_bytes hi_data /\
  8 + num_bytes hi_data <= Z.of_nat (length [0; 0; 0; 0; 0; 0; 0; 0; 104; 105]) /\
  is_uint16 request /\ is_uint16 5 /\
  exists st',
    set_header true hi_data request 1 0 5 st = Ret st' /\
    (hdr <- load_bytes (ptr_add (bytes hi_data) (- header_len)) header_len st' ;;
     Ret (decode_header true hdr))
    = Ret (Some {| message_type := request; num_packets := 1;
                   packet_id := 0; header_reply_id := 5 |}) /\
    load_bytes (bytes hi_data) (num_bytes hi_data) st'
    = load_bytes (bytes hi_data) (num_bytes hi_data) st.
Proof.
  intros st.
  assert (H1 : bytes hi_data = Ptr 7 8) by reflexivity.
  assert (H2 : heap st !! 7 = Some (OBytes [0; 0; 0; 0; 0; 0; 0; 0; 104; 105]))
    by (vm_compute; reflexivity).
  assert (H3 : header_len <= 8) by (unfold header_len; lia).
  assert (H4 : 0 <= num_bytes hi_data) by (simpl; lia).
  assert (H5 : 8 + num_bytes hi_data
               <= Z.of_nat (length [0; 0; 0; 0; 0; 0; 0; 0; 104; 105]))
    by (simpl; lia).
  assert (H6 : is_uint16 request) by (unfold is_uint16, request; lia).
  assert (H7 : is_uint16 5) by (unfold is_uint16; lia).
  repeat (split; [assumption |]).
  exact (set_header_decode_roundtrip true hi_data 7 8 _ request 5 st H1 H2 H3 H4 H5 H6 H7).
Defined.

(** C3 on a sample: four frames, three of them from one sender. *)
Lemma connection_ready_once_per_peer_witness :
  let st := listening_state true linux_strerror loopback_inet_aton in
  let obs := sample_observations true in
  (forall ob, ob ∈ obs -> conn_at st (obs_conn ob)) /\
  is_Some (arrays st !! immediate_callbacks st) /\
  Forall obs_in_range obs /\
  conn_status st
    !! {| ip := 16777343; port := 5000; address_protocol_type := SOCK_DGRAM |} = None /\
  (exists ob, ob ∈ obs /\ obs_triple ob = (16777343, 5000, SOCK_DGRAM)) /\
  exists log st' before ob pc after,
    observe_run obs st = Ret (log, st') /\
    map fst log = obs /\
    log = before ++ (ob, [pc]) :: after /\
    Forall (fun e => obs_triple e.1 <> (16777343, 5000, SOCK_DGRAM)) before /\
    obs_triple ob = (16777343, 5000, SOCK_DGRAM) /\
    pc = pending (obs_conn ob) msg_connection_ready msg_no_data NULL /\
    Forall (fun e => obs_triple e.1 = (16777343, 5000, SOCK_DGRAM) -> e.2 = []) after /\
    enqueued_for (16777343, 5000, SOCK_DGRAM) log = [pc].
Proof.
  intros st obs.
  assert (H1 : forall ob, ob ∈ obs -> conn_at st (obs_conn ob)).
  { intros ob Hob. exists listening_conn.
    repeat (apply elem_of_cons in Hob as [-> | Hob]; [vm_compute; reflexivity |]).
    by apply not_elem_of_nil in Hob. }
  assert (H2 : is_Some (arrays st !! immediate_callbacks st)) by (vm_compute; eauto).
  assert (H3 : Forall obs_in_range obs)
    by (unfold obs, sample_observations; cbv zeta;
        repeat (constructor;
                  [unfold obs_in_range, is_uint16; simpl; unfold SOCK_DGRAM; lia |]);
        constructor).
  assert (H4 : conn_status st
                 !! {| ip := 16777343; port := 5000; address_protocol_type := SOCK_DGRAM |}
               = None) by (vm_compute; reflexivity).
  assert (H5 : exists ob, ob ∈ obs /\ obs_triple ob = (16777343, 5000, SOCK_DGRAM)).
  { eexists. split; [left | reflexivity]. }
  repeat (split; [assumption |]).
  exact (connection_ready_once_per_peer 16777343 5000 SOCK_DGRAM obs st
           H1 H2 H3 H4 H5).
Defined.




(** The sample tick of C4, run: the listening event is delivered, the
    error event enqueued meanwhile is not, and it is what the queue
    holds afterwards. *)
Lemma sample_tick_defers_the_error :
  exists log st' pc,
    msg_runloop true true linux_strerror
      (sample_user_code true linux_strerror loopback_inet_aton) 1 0 quiet_tick
      (listening_state true linux_strerror loopback_inet_aton) = Ret (log, st') /\
    map (fun dl => event (delivered dl)) log = [msg_listening] /\
    map enqueued_during log = [[pc]] /\
    event pc = msg_error /\
    queue st' = [pc].
Proof.
  eexists _, _, _. split; [vm_compute; reflexivity |].
  repeat split; reflexivity.
Qed.

(** C5 on a sample: the one-way frame "hi" read on the listening socket. *)
Lemma read_from_socket_assertions_witness :
  let st := listening_state true linux_strerror loopback_inet_aton in
  let ro := tick_reads hi_tick 0 in
  let header := {| message_type := one_way; num_packets := 1; packet_id := 0;
                   header_reply_id := 0 |} in
  on_recv ro = recv_bytes (take 8 hi_frame) /\
  decode_header true (take (Z.to_nat header_len) (take 8 hi_frame)) = Some header /\
  conn_at st 0 /\
  (classify true one_way = Ret (Some msg_message) /\
   classify true request = Ret (Some msg_request) /\
   classify true reply = Ret (Some msg_reply)) /\
  (handled_type (message_type header) /\ num_packets header = 1 ->
   exists st', read_from_socket true true linux_strerror 3 0 ro st = Ret st') /\
  (true = true ->
   ~ (handled_type (message_type header) /\ num_packets header = 1) ->
   read_from_socket true true linux_strerror 3 0 ro st = AssertFail).
Proof.
  intros st ro header.
  assert (H1 : on_recv ro = recv_bytes (take 8 hi_frame)) by reflexivity.
  assert (H2 : decode_header true (take (Z.to_nat header_len) (take 8 hi_frame))
               = Some header) by (vm_compute; reflexivity).
  assert (H3 : conn_at st 0) by (exists listening_conn; vm_compute; reflexivity).
  repeat (split; [assumption |]).
  exact (read_from_socket_assertions true true linux_strerror 3 0 ro st
           (take 8 hi_frame) header H1 H2 H3).
Defined.

(** C5 as stated fails: a close frame, the very frame [msg_disconnect]
    sends, has a message type among the five kinds and a packet count of
    1, and reading it stops at [assert(0)]. *)
Lemma close_frame_reaches_assert :
  exists header,
    decode_header true (take (Z.to_nat header_len) close_frame) = Some header /\
    message_type header = close /\
    num_packets header = 1 /\
    read_from_socket true true linux_strerror 3 0 close_read
      (listening_state true linux_strerror loopback_inet_aton) = AssertFail.
Proof.
  eexists. split; [vm_compute; reflexivity |].
  repeat split; vm_compute; reflexivity.
Qed.

(** C7 on a sample: [recv] fails with errno 11 on the listening socket. *)
Lemma receive_failure_keeps_connection_witness :
  let st := listening_state true linux_strerror loopback_inet_aton in
  let ro := tick_reads quiet_tick 0 in
  let q := [pending 0 msg_listening msg_no_data NULL] in
  arrays st !! immediate_callbacks st = Some q /\
  conn_at st 0 /\
  ((on_recv ro = recv_error 11 /\ "recv" = "recv") \/
   (exists bs header ev,
       on_recv ro = recv_bytes bs /\
       decode_header true (take (Z.to_nat header_len) bs) = Some header /\
       classify true (message_type header) = Ret ev /\
       num_packets header = 1 /\
       on_recvfrom ro = recvfrom_error 11 /\ "recv" = "recvfrom")) /\
  exists st' d,
    read_from_socket true true linux_strerror 3 0 ro st = Ret st' /\
    queue st' = q ++ [pending 0 msg_error d NULL] /\
    load_bytes (bytes d) (num_bytes d) st'
    = Ret (string_bytes (os_error_text linux_strerror "recv" 11) ++ [0]) /\
    conns st' = conns st /\ poll_fds st' = poll_fds st /\
    (registered 0 st -> registered 0 st').
Proof.
  intros st ro q.
  assert (H1 : arrays st !! immediate_callbacks st = Some q) by (vm_compute; reflexivity).
  assert (H2 : conn_at st 0) by (exists listening_conn; vm_compute; reflexivity).
  assert (H3 : (on_recv ro = recv_error 11 /\ "recv" = "recv") \/
               (exists bs header ev,
                   on_recv ro = recv_bytes bs /\
                   decode_header true (take (Z.to_nat header_len) bs) = Some header /\
                   classify true (message_type header) = Ret ev /\
                   num_packets header = 1 /\
                   on_recvfrom ro = recvfrom_error 11 /\ "recv" = "recvfrom"))
    by (left; split; reflexivity).
  repeat (split; [assumption |]).
  exact (receive_failure_keeps_connection true true linux_strerror 3 0 ro st q 11 "recv"
           H1 H2 H3).
Defined.

(** C8 on a sample: "hi" sent on the listening datagram connection goes
    out through [sendto]. *)
Lemma msg_send_frames_and_routes_witness :
  let st := buffer_state true linux_strerror loopback_inet_aton in
  let content := [0; 0; 0; 0; 0; 0; 0; 0; 104; 105] in
  heap st !! 0 = Some (OConn listening_conn) /\
  bytes hi_data = Ptr 7 8 /\
  heap st !! 7 = Some (OBytes content) /\
  header_len <= 8 /\ 0 <= num_bytes hi_data /\
  8 + num_bytes hi_data <= Z.of_nat (length content) /\
  exists st',
    msg_send true 0 hi_data st = Ret st' /\
    decode_header true (header_bytes true one_way 1 0 0)
    = Some {| message_type := one_way; num_packets := 1; packet_id := 0;
              header_reply_id := 0 |} /\
    load_bytes (ptr_add (bytes hi_data) (- header_len)) header_len st'
    = Ret (header_bytes true one_way 1 0 0) /\
    load_bytes (bytes hi_data) (num_bytes hi_data) st'
    = load_bytes (bytes hi_data) (num_bytes hi_data) st /\
    syscalls st' =
      syscalls st ++
      [if (protocol_type listening_conn =? msg_udp)
          && negb (for_listening listening_conn =? 0)
       then SysSendto (socket listening_conn)
              (header_bytes true one_way 1 0 0 ++ slice 8 (num_bytes hi_data) content) 0
              (set_sockaddr_for_conn true listening_conn)
       else SysSend (socket listening_conn)
              (header_bytes true one_way 1 0 0 ++ slice 8 (num_bytes hi_data) content) 0] /\
    queue st' = queue st /\ conns st' = conns st.
Proof.
  intros st content.
  assert (H1 : heap st !! 0 = Some (OConn listening_conn)) by (vm_compute; reflexivity).
  assert (H2 : bytes hi_data = Ptr 7 8) by reflexivity.
  assert (H3 : heap st !! 7 = Some (OBytes content)) by (vm_compute; reflexivity).
  assert (H4 : header_len <= 8) by (unfold header_len; lia).
  assert (H5 : 0 <= num_bytes hi_data) by (simpl; lia).
  assert (H6 : 8 + num_bytes hi_data <= Z.of_nat (length content)) by (simpl; lia).
  repeat (split; [assumption |]).
  exact (msg_send_frames_and_routes true 0 hi_data st listening_conn 7 8 content
           H1 H2 H3 H4 H5 H6).
Defined.

(** C6 on a failing input. The listening socket is readable and holds
    the frame "hi". The tick reads it into a buffer obtained from
    [malloc], queues the message call with [to_free] NULL, and flushes
    the queue; the callback does nothing. After the tick the buffer is
    still allocated: the flush frees [to_free] only. *)
Theorem received_buffer_outlives_flush :
  let st := listening_state true linux_strerror loopback_inet_aton in
  let tick := msg_runloop true true linux_strerror idle_user_code 8 0 hi_tick st in
  exists call buffer,
    returned tick = true /\
    last (map delivered (tick_log tick)) = Some call /\
    event call = msg_message /\
    data call = {| num_bytes := 2; bytes := Ptr buffer header_len |} /\
    to_free call = NULL /\
    is_allocated buffer st = false /\
    is_allocated buffer (tick_state tick) = true.
Proof.
  intros st tick.
  exists (pending 0 msg_message {| num_bytes := 2; bytes := Ptr 1 header_len |} NULL), 1.
  repeat split; vm_compute; reflexivity.
Qed.

(** * Further properties on sample inputs *)

(** X2 on a sample. *)
Lemma msg_new_data_reads_back_witness :
  no_nul "hi" /\
  exists d st' b,
    msg_new_data "hi" initial_state = Ret (d, st') /\
    bytes d = Ptr b header_len /\ heap initial_state !! b = None /\
    num_bytes d = strlen "hi" + 1 /\
    msg_as_str d st' = Ret "hi" /\
    msg_error_str d st' = Ret "hi".
Proof.
  assert (H : no_nul "hi") by (simpl; repeat split; discriminate).
  split; [exact H |].
  exact (msg_new_data_reads_back "hi" initial_state H).
Defined.

(** X4. The header travels in network byte order whatever the byte
    order of the host: the eight bytes [set_header] writes are the four
    fields, high byte first, and a host of either byte order decodes
    them to the same fields. *)
Theorem header_wire_format_host_independent (sender receiver : bool) (t n p r : Z) :
  is_uint16 t -> is_uint16 n -> is_uint16 p -> is_uint16 r ->
  header_bytes sender t n p r =
  [t / 256; t mod 256; n / 256; n mod 256; p / 256; p mod 256; r / 256; r mod 256] /\
  decode_header receiver (header_bytes sender t n p r)
  = Some {| message_type := t; num_packets := n; packet_id := p; header_reply_id := r |}.
Proof.
  intros Ht Hn Hp Hr.
  split; [by apply header_bytes_network_order |].
  rewrite (header_bytes_network_order sender) by done.
  rewrite <- (header_bytes_network_order receiver) by done.
  by apply decode_header_bytes.
Qed.

Lemma header_wire_format_host_independent_witness :
  is_uint16 reply /\ is_uint16 1 /\ is_uint16 0 /\ is_uint16 32773 /\
  header_bytes true reply 1 0 32773 =
  [reply / 256; reply mod 256; 1 / 256; 1 mod 256; 0 / 256; 0 mod 256;
   32773 / 256; 32773 mod 256] /\
  decode_header false (header_bytes true reply 1 0 32773)
  = Some {| message_type := reply; num_packets := 1; packet_id := 0;
            header_reply_id := 32773 |}.
Proof.
  assert (H1 : is_uint16 reply) by (unfold is_uint16, reply; lia).
  assert (H2 : is_uint16 1) by (unfold is_uint16; lia).
  assert (H3 : is_uint16 0) by (unfold is_uint16; lia).
  assert (H4 : is_uint16 32773) by (unfold is_uint16; lia).
  repeat (split; [assumption |]).
  exact (header_wire_format_host_independent true false reply 1 0 32773 H1 H2 H3 H4).
Defined.

(** X9. What [msg_send] puts on the wire, [read_from_socket] delivers:
    when the frame one host sends with [msg_send] is the datagram
    another host (of either byte order) reads, the reader enqueues a
    message event for its connection whose data is the sender's
    payload, byte for byte and of the same length. *)
Theorem sent_message_is_received (sender_le receiver_le DEBUG : bool)
    (strerror : Z -> string)
    (c_s : Z) (d : msg_Data) (st_s : State) (cn_s : msg_Conn) (b off : Z)
    (content : list Z)
    (sock c_r : Z) (st_r : State) (q : list PendingCall) (cn_r : msg_Conn)
    (from : sockaddr_in) :
  heap st_s !! c_s = Some (OConn cn_s) ->
  bytes d = Ptr b off ->
  heap st_s !! b = Some (OBytes content) ->
  header_len <= off -> 0 <= num_bytes d ->
  off + num_bytes d <= Z.of_nat (length content) ->
  num_bytes d + header_len <= recv_buffer_len ->
  arrays st_r !! immediate_callbacks st_r = Some q ->
  heap st_r !! c_r = Some (OConn cn_r) ->
  let payload := slice off (num_bytes d) content in
  let frame := header_bytes sender_le one_way 1 0 0 ++ payload in
  let ro := {| on_recv := recv_bytes (take 8 frame);
               on_recvfrom := recvfrom_dgram frame from |} in
  exists st_s' st_r' wire call,
    msg_send sender_le c_s d st_s = Ret st_s' /\
    last (syscalls st_s') = Some wire /\
    (wire = SysSend (socket cn_s) frame 0 \/
     wire = SysSendto (socket cn_s) frame 0 (set_sockaddr_for_conn sender_le cn_s)) /\
    read_from_socket receiver_le DEBUG strerror sock c_r ro st_r = Ret st_r' /\
    last (queue st_r') = Some call /\
    conn call = c_r /\ event call = msg_message /\ to_free call = NULL /\
    num_bytes (data call) = num_bytes d /\
    load_bytes (bytes (data call)) (num_bytes (data call)) st_r' = Ret payload.
Proof.
  intros Hcs Hd Hb Hoff Hn Hlen Hmax Hq Hcr payload frame ro.
  assert (H16 : forall x, 0 <= x < 2 -> is_uint16 x) by (unfold is_uint16; lia).
  assert (Hhb : header_bytes sender_le one_way 1 0 0 = [0; 0; 0; 1; 0; 0; 0; 0]).
  { rewrite header_bytes_network_order by (apply H16; unfold one_way; lia). done. }
  assert (Hpl : Z.of_nat (length payload) = num_bytes d)
    by (apply length_slice; unfold header_len in *; lia).
  assert (Hfl : Z.of_nat (length frame) = num_bytes d + 8).
  { unfold frame. rewrite length_app, Hhb. simpl length. lia. }
  assert (Htake : take (Z.to_nat recv_buffer_len) frame = frame).
  { apply take_ge. unfold header_len in *. lia. }
  destruct (read_from_socket_frame receiver_le DEBUG strerror sock c_r ro st_r q cn_r
              (take 8 frame)
              {| message_type := one_way; num_packets := 1; packet_id := 0;
                 header_reply_id := 0 |}
              msg_message frame from)
    as (st_r' & buf & Hread & Hfresh & Hres); try done.
  { unfold frame. rewrite Hhb.
    change (take (Z.to_nat header_len) (take 8 ([0; 0; 0; 1; 0; 0; 0; 0] ++ payload)))
      with [0; 0; 0; 1; 0; 0; 0; 0].
    assert (Hhr : header_bytes receiver_le one_way 1 0 0 = [0; 0; 0; 1; 0; 0; 0; 0]).
    { rewrite header_bytes_network_order by (apply H16; unfold one_way; lia). done. }
    rewrite <- Hhr. apply decode_header_bytes; apply H16; unfold one_way; lia. }
  { lia. }
  cbv zeta in Hres. rewrite Htake in Hres.
  destruct Hres as (Hload & _ & Hqueue & _).
  eexists _, st_r', _, _.
  split; [by apply (msg_send_effect sender_le c_s d st_s cn_s b off content) |].
  split; [simpl; apply last_snoc |].
  split.
  { fold payload. fold frame.
    destruct ((protocol_type cn_s =? msg_udp) && negb (for_listening cn_s =? 0));
      [by right | by left]. }
  split; [exact Hread |].
  split; [rewrite Hqueue, !app_assoc; apply last_snoc |].
  cbn [conn event to_free data num_bytes bytes pending].
  repeat split; try done.
  - unfold header_len. lia.
  - cbn [bytes num_bytes] in Hload. rewrite Hload. f_equal.
    unfold frame. rewrite Hhb. reflexivity.
Qed.

(** X6 on a sample: port 70000 is accepted. *)
Lemma parse_address_str_decimal_port_witness :
  let cn := zeroed_conn 0 0 in
  ("udp://" = "tcp://" \/ "udp://" = "udp://") /\
  strchr "127.0.0.1" ":" = None /\
  (1 <= String.length "127.0.0.1" <= 15)%nat /\
  parse_ip loopback_inet_aton "127.0.0.1" = Some 16777343 /\
  "70000" <> "" /\ all_digits "70000" /\
  exists cn',
    parse_address_str loopback_inet_aton
      ("udp://" +:+ "127.0.0.1" +:+ String ":" "70000") cn = (None, cn') /\
    protocol_type cn' = (if decide ("udp://" = "tcp://") then SOCK_STREAM else SOCK_DGRAM) /\
    remote_ip cn' = 16777343 /\
    remote_port cn' = int32 (Z.min LONG_MAX (decimal "70000")) /\
    conn_context cn' = conn_context cn /\ callback cn' = callback cn /\
    for_listening cn' = for_listening cn /\ socket cn' = socket cn /\
    reply_id cn' = reply_id cn.
Proof.
  intros cn.
  assert (H1 : "udp://" = "tcp://" \/ "udp://" = "udp://") by (right; reflexivity).
  assert (H2 : strchr "127.0.0.1" ":" = None) by reflexivity.
  assert (H3 : (1 <= String.length "127.0.0.1" <= 15)%nat) by (simpl; lia).
  assert (H4 : parse_ip loopback_inet_aton "127.0.0.1" = Some 16777343)
    by (vm_compute; reflexivity).
  assert (H5 : "70000" <> "") by discriminate.
  assert (H6 : all_digits "70000") by (simpl; repeat split; eexists; reflexivity).
  repeat (split; [assumption |]).
  exact (parse_address_str_decimal_port loopback_inet_aton "udp://" "127.0.0.1" "70000"
           16777343 cn H1 H2 H3 H4 H5 H6).
Defined.

(** X8 on a sample: the listening connection reads [hi_frame]. *)
Lemma read_from_socket_delivers_witness :
  let st := listening_state true linux_strerror loopback_inet_aton in
  let ro := tick_reads hi_tick 0 in
  let q := [pending 0 msg_listening msg_no_data NULL] in
  let header := {| message_type := one_way; num_packets := 1; packet_id := 0;
                   header_reply_id := 0 |} in
  arrays st !! immediate_callbacks st = Some q /\
  heap st !! 0 = Some (OConn listening_conn) /\
  on_recv ro = recv_bytes (take 8 hi_frame) /\
  decode_header true (take (Z.to_nat header_len) (take 8 hi_frame)) = Some header /\
  classify true (message_type header) = Ret (Some msg_message) /\
  num_packets header = 1 /\
  on_recvfrom ro = recvfrom_dgram hi_frame hi_sender /\
  (8 <= length hi_frame)%nat /\
  let received := take (Z.to_nat recv_buffer_len) hi_frame in
  let cn' := with_remote_port (ntohs true (sin_port hi_sender))
               (with_remote_ip (sin_addr hi_sender)
                  (with_reply_id (header_reply_id header) listening_conn)) in
  let key := address_of cn' hi_sender in
  exists st' b,
    read_from_socket true true linux_strerror 3 0 ro st = Ret st' /\
    heap st !! b = None /\
    let d := {| num_bytes := Z.of_nat (length received) - header_len;
                bytes := Ptr b header_len |} in
    load_bytes (bytes d) (num_bytes d) st' = Ret (drop 8 received) /\
    heap st' !! 0 = Some (OConn cn') /\
    queue st' =
      q ++ match conn_status st !! key with
           | Some _ => []
           | None => [pending 0 msg_connection_ready msg_no_data NULL]
           end ++ [pending 0 msg_message d NULL] /\
    conn_status st' =
      match conn_status st !! key with
      | Some _ => conn_status st
      | None => <[key := {| last_seen_at := 0 |}]> (conn_status st)
      end /\
    conns st' = conns st /\ poll_fds st' = poll_fds st.
Proof.
  intros st ro q header.
  assert (H1 : arrays st !! immediate_callbacks st = Some q) by (vm_compute; reflexivity).
  assert (H2 : heap st !! 0 = Some (OConn listening_conn)) by (vm_compute; reflexivity).
  assert (H3 : on_recv ro = recv_bytes (take 8 hi_frame)) by reflexivity.
  assert (H4 : decode_header true (take (Z.to_nat header_len) (take 8 hi_frame))
               = Some header) by (vm_compute; reflexivity).
  assert (H5 : classify true (message_type header) = Ret (Some msg_message))
    by reflexivity.
  assert (H6 : num_packets header = 1) by reflexivity.
  assert (H7 : on_recvfrom ro = recvfrom_dgram hi_frame hi_sender) by reflexivity.
  assert (H8 : (8 <= length hi_frame)%nat) by (simpl; lia).
  repeat (split; [assumption |]).
  exact (read_from_socket_delivers true true linux_strerror 3 0 ro st q listening_conn
           (take 8 hi_frame) header msg_message hi_frame hi_sender
           H1 H2 H3 H4 H5 H6 H7 H8).
Defined.

(** X9 on a sample: "hi" sent by a little-endian host is received by a
    big-endian one. *)
Lemma sent_message_is_received_witness :
  let st_s := buffer_state true linux_strerror loopback_inet_aton in
  let st_r := listening_state false linux_strerror loopback_inet_aton in
  let content := [0; 0; 0; 0; 0; 0; 0; 0; 104; 105] in
  let q := [pending 0 msg_listening msg_no_data NULL] in
  heap st_s !! 0 = Some (OConn listening_conn) /\
  bytes hi_data = Ptr 7 8 /\
  heap st_s !! 7 = Some (OBytes content) /\
  header_len <= 8 /\ 0 <= num_bytes hi_data /\
  8 + num_bytes hi_data <= Z.of_nat (length content) /\
  num_bytes hi_data + header_len <= recv_buffer_len /\
  arrays st_r !! immediate_callbacks st_r = Some q /\
  heap st_r !! 0 = Some (OConn listening_conn) /\
  let payload := slice 8 (num_bytes hi_data) content in
  let frame := header_bytes true one_way 1 0 0 ++ payload in
  let ro := {| on_recv := recv_bytes (take 8 frame);
               on_recvfrom := recvfrom_dgram frame hi_sender |} in
  exists st_s' st_r' wire call,
    msg_send true 0 hi_data st_s = Ret st_s' /\
    last (syscalls st_s') = Some wire /\
    (wire = SysSend (socket listening_conn) frame 0 \/
     wire = SysSendto (socket listening_conn) frame 0
              (set_sockaddr_for_conn true listening_conn)) /\
    read_from_socket false true linux_strerror 3 0 ro st_r = Ret st_r' /\
    last (queue st_r') = Some call /\
    conn call = 0 /\ event call = msg_message /\ to_free call = NULL /\
    num_bytes (data call) = num_bytes hi_data /\
    load_bytes (bytes (data call)) (num_bytes (data call)) st_r' = Ret payload.
Proof.
  intros st_s st_r content q.
  assert (H1 : heap st_s !! 0 = Some (OConn listening_conn)) by (vm_compute; reflexivity).
  assert (H2 : bytes hi_data = Ptr 7 8) by reflexivity.
  assert (H3 : heap st_s !! 7 = Some (OBytes content)) by (vm_compute; reflexivity).
  assert (H4 : header_len <= 8) by (unfold header_len; lia).
  assert (H5 : 0 <= num_bytes hi_data) by (simpl; lia).
  assert (H6 : 8 + num_bytes hi_data <= Z.of_nat (length content)) by (simpl; lia).
  assert (H7 : num_bytes hi_data + header_len <= recv_buffer_len)
    by (unfold header_len, recv_buffer_len; simpl; lia).
  assert (H8 : arrays st_r !! immediate_callbacks st_r = Some q)
    by (vm_compute; reflexivity).
  assert (H9 : heap st_r !! 0 = Some (OConn listening_conn)) by (vm_compute; reflexivity).
  repeat (split; [assumption |]).
  exact (sent_message_is_received true false true linux_strerror 0 hi_data st_s
           listening_conn 7 8 content 3 0 st_r q listening_conn hi_sender
           H1 H2 H3 H4 H5 H6 H7 H8 H9).
Defined.

(** X10 on a sample. *)
Lemma msg_disconnect_sends_close_witness :
  let st := listening_state true linux_strerror loopback_inet_aton in
  heap st !! 0 = Some (OConn listening_conn) /\
  exists st' b,
    msg_disconnect true 0 st = Ret st' /\
    syscalls st' =
      syscalls st ++ [SysSend (socket listening_conn) [0; 4; 0; 1; 0; 0; 0; 0] 0] /\
    conns st' = conns st /\ poll_fds st' = poll_fds st /\
    queue st' = queue st /\ conn_status st' = conn_status st /\
    heap st' !! 0 = Some (OConn listening_conn) /\
    heap st !! b = None /\ is_Some (heap st' !! b).
Proof.
  intros st.
  assert (H1 : heap st !! 0 = Some (OConn listening_conn)) by (vm_compute; reflexivity).
  split; [assumption |].
  exact (msg_disconnect_sends_close true 0 listening_conn st H1).
Defined.

(** X11 on a sample: the first [msg_listen]. *)
Lemma open_socket_keeps_well_formed_witness :
  (init_done initial_state = false \/ wf initial_state) /\
  exists st',
    open_socket true linux_strerror loopback_inet_aton "udp://*:9000" 0 1 1 (open_ok 3)
      initial_state = Ret st' /\ wf st'.
Proof.
  assert (H1 : init_done initial_state = false \/ wf initial_state)
    by (left; reflexivity).
  split; [assumption |].
  exact (open_socket_keeps_well_formed true linux_strerror loopback_inet_aton
           "udp://*:9000" 0 1 1 (open_ok 3) initial_state H1).
Defined.




(** X13 on a sample: a [msg_connect] after the [msg_listen]. *)
Lemma public_functions_keep_registrations_witness :
  let st := listening_state true linux_strerror loopback_inet_aton in
  let st' := state_of (msg_connect true linux_strerror loopback_inet_aton
                         "udp://127.0.0.1:9000" 0 0 (open_ok 4) st) in
  init_done st = true /\
  rtc (api_step true linux_strerror loopback_inet_aton) st st' /\
  registrations_kept st st' /\ (wf st -> wf st').
Proof.
  intros st st'.
  assert (H1 : init_done st = true) by (vm_compute; reflexivity).
  assert (H2 : rtc (api_step true linux_strerror loopback_inet_aton) st st').
  { apply rtc_once.
    apply (api_connect true linux_strerror loopback_inet_aton
             "udp://127.0.0.1:9000" 0 0 (open_ok 4)).
    vm_compute; reflexivity. }
  repeat (split; [assumption |]).
  exact (public_functions_keep_registrations true linux_strerror loopback_inet_aton
           st st' H1 H2).
Defined.

(** X14 on a sample: a tick in which [poll] times out. *)
Lemma msg_runloop_without_input_witness :
  let user := sample_user_code true linux_strerror loopback_inet_aton in
  let st := listening_state true linux_strerror loopback_inet_aton in
  init_done st = true /\
  (poll_ret quiet_tick <= 0 \/
   (forall i, Z.land (poll_revents quiet_tick i) POLLIN = 0)) /\
  exists st1,
    io_phase true true linux_strerror 0 quiet_tick st = Ret st1 /\
    syscalls st1 = syscalls st ++ [SysPoll (poll_fds st) 0] /\
    heap st1 = heap st /\ arrays st1 = arrays st /\
    immediate_callbacks st1 = immediate_callbacks st /\ queue st1 = queue st /\
    conns st1 = conns st /\ conn_status st1 = conn_status st /\
    fd <$> poll_fds st1 = fd <$> poll_fds st /\
    stderr st1 =
      stderr st ++
      (if (poll_ret quiet_tick =? -1)
          && ((poll_errno quiet_tick =? EFAULT) || (poll_errno quiet_tick =? EINVAL))
       then ["Internal msgbox error during 'poll' call: "
             +:+ linux_strerror (poll_errno quiet_tick) +:+ newline]
       else []) /\
    forall fuel,
      msg_runloop true true linux_strerror user fuel 0 quiet_tick st
      = dispatch_phase user fuel st1.
Proof.
  intros user st.
  assert (H2 : init_done st = true) by (vm_compute; reflexivity).
  assert (H4 : poll_ret quiet_tick <= 0 \/
               (forall i, Z.land (poll_revents quiet_tick i) POLLIN = 0))
    by (left; simpl; lia).
  repeat (split; [assumption |]).
  exact (msg_runloop_without_input true true linux_strerror user 0 quiet_tick st H2 H4).
Defined.


(** X16 on a sample: an address that does not parse. *)
Lemma open_socket_reports_failure_witness :
  let o := open_ok 4 in
  let text := open_error_text linux_strerror loopback_inet_aton "bogus" 0 0 1 o in
  queue_allocated initial_state /\ conns_live initial_state /\
  (socket_ret o = -1 \/ is_Some (parsed_conn loopback_inet_aton "bogus" 0 0 1 o).1 \/
   open_ret o = -1) /\
  no_nul text /\
  exists st' pc,
    open_socket true linux_strerror loopback_inet_aton "bogus" 0 0 1 o initial_state
    = Ret st' /\
    queue st' = queue (init_if_needed initial_state) ++ [pc] /\
    conn pc = opened_conn initial_state /\ event pc = msg_error /\
    to_free pc = Ptr (opened_conn initial_state) 0 /\
    msg_error_str (data pc) st' = Ret text /\
    msg_as_str (data pc) st' = Ret text /\
    (opened_conn initial_state ∉ conns st') /\
    length (poll_fds st') = length (poll_fds (init_if_needed initial_state)).
Proof.
  intros o text.
  assert (H1 : queue_allocated initial_state) by (intros H; discriminate H).
  assert (H2 : conns_live initial_state) by (intros H; discriminate H).
  assert (H3 : socket_ret o = -1 \/
               is_Some (parsed_conn loopback_inet_aton "bogus" 0 0 1 o).1 \/
               open_ret o = -1)
    by (right; left; vm_compute; eauto).
  assert (H4 : no_nul text) by (vm_compute; repeat split; intros H; discriminate H).
  repeat (split; [assumption |]).
  exact (open_socket_reports_failure true linux_strerror loopback_inet_aton "bogus"
           0 0 1 o initial_state H1 H2 H3 H4).
Defined.

(** X17 on a sample: the listening connection answers [hi_sender]. *)
Lemma reply_goes_to_last_sender_witness :
  let st := listening_state true linux_strerror loopback_inet_aton in
  let ro := tick_reads hi_tick 0 in
  let q := [pending 0 msg_listening msg_no_data NULL] in
  let header := {| message_type := one_way; num_packets := 1; packet_id := 0;
                   header_reply_id := 0 |} in
  arrays st !! immediate_callbacks st = Some q /\
  heap st !! 0 = Some (OConn listening_conn) /\
  on_recv ro = recv_bytes (take 8 hi_frame) /\
  decode_header true (take (Z.to_nat header_len) (take 8 hi_frame)) = Some header /\
  classify true (message_type header) = Ret (Some msg_message) /\
  num_packets header = 1 /\
  on_recvfrom ro = recvfrom_dgram hi_frame hi_sender /\
  (8 <= length hi_frame)%nat /\
  protocol_type listening_conn = msg_udp /\ for_listening listening_conn <> 0 /\
  is_uint16 (sin_port hi_sender) /\ 0 <= sin_addr hi_sender < 4294967296 /\
  exists st' call st'',
    read_from_socket true true linux_strerror 3 0 ro st = Ret st' /\
    last (queue st') = Some call /\
    conn call = 0 /\ event call = msg_message /\
    msg_send true 0 (data call) st' = Ret st'' /\
    last (syscalls st'') =
      Some (SysSendto (socket listening_conn)
              ([0; 0; 0; 1; 0; 0; 0; 0]
               ++ drop 8 (take (Z.to_nat recv_buffer_len) hi_frame))
              0
              {| sin_family := AF_INET; sin_port := sin_port hi_sender;
                 sin_addr := sin_addr hi_sender |}).
Proof.
  intros st ro q header.
  assert (H1 : arrays st !! immediate_callbacks st = Some q) by (vm_compute; reflexivity).
  assert (H2 : heap st !! 0 = Some (OConn listening_conn)) by (vm_compute; reflexivity).
  assert (H3 : on_recv ro = recv_bytes (take 8 hi_frame)) by reflexivity.
  assert (H4 : decode_header true (take (Z.to_nat header_len) (take 8 hi_frame))
               = Some header) by (vm_compute; reflexivity).
  assert (H5 : classify true (message_type header) = Ret (Some msg_message))
    by reflexivity.
  assert (H6 : num_packets header = 1) by reflexivity.
  assert (H7 : on_recvfrom ro = recvfrom_dgram hi_frame hi_sender) by reflexivity.
  assert (H8 : (8 <= length hi_frame)%nat) by (simpl; lia).
  assert (H9 : protocol_type listening_conn = msg_udp) by reflexivity.
  assert (H10 : for_listening listening_conn <> 0) by (simpl; lia).
  assert (H11 : is_uint16 (sin_port hi_sender)) by (unfold is_uint16; simpl; lia).
  assert (H12 : 0 <= sin_addr hi_sender < 4294967296) by (simpl; lia).
  repeat (split; [assumption |]).
  exact (reply_goes_to_last_sender true true linux_strerror 3 0 ro st q listening_conn
           (take 8 hi_frame) header msg_message hi_frame hi_sender
           H1 H2 H3 H4 H5 H6 H7 H8 H9 H10 H11 H12).
Defined.

(** X18 on a sample: the key of a frame from 127.0.0.1, port 5000. *)
Lemma address_hash_overflows_witness :
  let cn := with_remote_port 5000 (with_remote_ip 16777343 listening_conn) in
  take 3 (address_bytes true (address_of cn hi_sender)) <> [0; 0; 0] /\
  address_hash true true (address_of cn hi_sender) = Undefined.
Proof.
  intros cn.
  assert (H1 : take 3 (address_bytes true (address_of cn hi_sender)) <> [0; 0; 0])
    by (vm_compute; discriminate).
  split; [assumption |].
  exact (address_hash_overflows true true cn hi_sender H1).
Defined.
